(** * Power Distributor: overload acceptance and proportional distribution

    A shallow embedding of [custom_components/power_distributor/sensor.py]
    (with the constants of [const.py]) and of the two steps of
    [config_flow.py], and the properties of the per-tick computation, of the
    sensor entities and of the configuration flow.

    Numbers: a Python [float] is embedded as an exact rational [Q]; the
    development therefore speaks about the arithmetic the code writes down,
    not about binary64 rounding, infinities or NaN.  Equalities between
    computed numbers are stated with [==] ([Qeq]).

    Exceptions: a Python division raises [ZeroDivisionError] on a zero
    divisor, so every [/] of the source is the partial [py_div]; subscripting
    and arithmetic on [None] are partial as well.

    Time: [datetime.now()] is an effect.  The wall clock is a sequence of
    readings [wall : nat -> datetime]; the world counts how many readings have
    been taken so far, and each call returns the next one. *)

From Stdlib Require Import QArith Qround ZArith List String Ascii DecimalString Bool Lia Lqa.
Import ListNotations.
Open Scope Q_scope.

(* ================================================================= *)
(** * The embedding *)

(* ================================================================= *)
(** ** Python values and built-ins *)

(** A [datetime] is a number of microseconds since a fixed origin, a
    [timedelta] a signed number of microseconds. *)
Definition datetime : Type := Z.
Definition timedelta : Type := Z.

Definition datetime_sub (a b : datetime) : timedelta := (a - b)%Z.

Definition total_seconds (td : timedelta) : Q := inject_Z td / 1000000.

Inductive exn : Type :=
| ZeroDivisionError
| TypeError
| IndexError.

Inductive outcome (A : Type) : Type :=
| Ok (a : A)
| Raise (e : exn).
Arguments Ok {A} a.
Arguments Raise {A} e.

(** [x < y] on floats. *)
Definition Qltb (x y : Q) : bool := negb (Qle_bool y x).

(** [min(a, b)]: the first argument unless the second is strictly smaller. *)
Definition py_min (a b : Q) : Q := if Qltb b a then b else a.

(** [max(a, b)]: the first argument unless the second is strictly larger. *)
Definition py_max (a b : Q) : Q := if Qltb a b then b else a.

(** [a / b]. *)
Definition py_div (a b : Q) : outcome Q :=
  if Qeq_bool b 0 then Raise ZeroDivisionError else Ok (a / b).

(** [sum(l)]. *)
Definition py_sum (l : list Q) : Q := fold_left Qplus l 0.

(** Nearest integer, ties to the even one. *)
Definition round_half_even (x : Q) : Z :=
  let f := Qfloor x in
  let r := x - inject_Z f in
  if Qltb r (1 # 2) then f
  else if Qltb (1 # 2) r then (f + 1)%Z
  else if Z.even f then f else (f + 1)%Z.

(** [round(x, 2)]. *)
Definition py_round2 (x : Q) : Q := inject_Z (round_half_even (x * 100)) / 100.

(* ================================================================= *)
(** ** A state and exception monad *)

Definition M (S A : Type) : Type := S -> S * outcome A.

Definition ret {S A : Type} (a : A) : M S A := fun s => (s, Ok a).

Definition raise {S A : Type} (e : exn) : M S A := fun s => (s, Raise e).

Definition bind {S A B : Type} (m : M S A) (k : A -> M S B) : M S B :=
  fun s =>
    match m s with
    | (s', Ok a) => k a s'
    | (s', Raise e) => (s', Raise e)
    end.

(** A pure, possibly raising computation run inside the monad. *)
Definition lift {S A : Type} (o : outcome A) : M S A := fun s => (s, o).

(** [try: m  except Exception: pass]. *)
Definition try_except {S : Type} (m : M S unit) : M S unit :=
  fun s =>
    match m s with
    | (s', Ok _) => (s', Ok tt)
    | (s', Raise _) => (s', Ok tt)
    end.

Definition obind {A B : Type} (o : outcome A) (k : A -> outcome B) : outcome B :=
  match o with
  | Ok a => k a
  | Raise e => Raise e
  end.

Declare Scope py_scope.
Delimit Scope py_scope with py.
Notation "x <- m ;; k" := (bind m (fun x => k))
  (at level 61, m at next level, right associativity) : py_scope.
Notation "m ;; k" := (bind m (fun _ => k))
  (at level 61, right associativity) : py_scope.
Notation "x <~ o ;; k" := (obind o (fun x => k))
  (at level 61, o at next level, right associativity) : py_scope.
Open Scope py_scope.

(** The world a computation runs in: the number of clock readings taken so
    far and the mutable object in scope. *)
Record World (H : Type) : Type := mkWorld { calls : nat; obj : H }.
Arguments mkWorld {H} calls obj.
Arguments calls {H} w.
Arguments obj {H} w.

Definition get_obj {H : Type} : M (World H) H := fun w => (w, Ok (obj w)).

Definition modify_obj {H : Type} (f : H -> H) : M (World H) unit :=
  fun w => (mkWorld (calls w) (f (obj w)), Ok tt).

(* ================================================================= *)
(** ** Constants ([const.py], [homeassistant.const]) *)

Definition NUM_CONSUMERS : nat := 4.
Definition SCAN_INTERVAL_SECONDS : Z := 5.

Definition STATE_UNAVAILABLE : string := "unavailable".
Definition STATE_UNKNOWN : string := "unknown".

(* ================================================================= *)
(** ** Data model *)

(** The configuration entry [data]: the five source entities, the two hard
    limits and the six tuning durations (minutes).  [PowerManagement.__init__]
    copies the numeric entries into attributes that are never assigned again;
    the embedding reads them from the configuration. *)
Record Config : Type := mkConfig {
  entity_combined_load : string;
  entity_unit_1 : string;
  entity_unit_2 : string;
  entity_unit_3 : string;
  entity_unit_4 : string;
  max_combined_load : Q;
  max_individual_load : Q;
  _delay_5 : Q;
  _delay_20 : Q;
  _ramp_5 : Q;
  _ramp_20 : Q;
  _recover_fast : Q;
  _recover_slow : Q
}.

(** One overload-acceptance dictionary
    [{'oa', 'ramp_start', 'init_factor', 'ramp_dur'}]. *)
Record OAState : Type := mkOA {
  oa : Q;
  ramp_start : option datetime;
  init_factor : Q;
  ramp_dur : option Q
}.

Definition setitem_oa (v : Q) (d : OAState) : OAState :=
  mkOA v (ramp_start d) (init_factor d) (ramp_dur d).
Definition setitem_ramp_start (v : option datetime) (d : OAState) : OAState :=
  mkOA (oa d) v (init_factor d) (ramp_dur d).
Definition setitem_init_factor (v : Q) (d : OAState) : OAState :=
  mkOA (oa d) (ramp_start d) v (ramp_dur d).
Definition setitem_ramp_dur (v : option Q) (d : OAState) : OAState :=
  mkOA (oa d) (ramp_start d) (init_factor d) v.

(** The mutable attributes of a [PowerManagement] instance. *)
Record PowerManagement : Type := mkPM {
  _config : Config;
  _combined_oa : Q;
  _combined_ramp_start : option datetime;
  _combined_ramp_dur : option Q;
  _combined_init_factor : Q;
  _consumer_oa_states : list OAState;
  _last_update_time : datetime
}.

(** The dictionary returned by [run_distribution]. *)
Record DistributionResult : Type := mkResult {
  combined_oa_percent : Q;
  current_combined_limit_A : Q;
  available_managed_capacity_A : Q;
  individual_oa_percents : list Q;
  final_limits_A : list Q;
  units_pre_capped_demand_A : list Q
}.

(** The local variables of [run_distribution] when it reaches its [return]
    statement (the values before presentation rounding). *)
Record Locals : Type := mkLocals {
  time_delta_min : Q;
  L_unmanaged_actual : Q;
  combined_limit_factor : Q;
  current_combined_limit : Q;
  X_managed_capacity : Q;
  pre_capped_requests : list Q;
  individual_oa_percents_ : list Q;
  L_units_pre_capped_total : Q;
  final_limits : list Q
}.

(** [hass.data[DOMAIN]]: the manager and the last published result ([None]
    stands for the initial empty dictionary). *)
Record HassData : Type := mkHassData {
  manager : PowerManagement;
  latest_results : option DistributionResult
}.

(* ================================================================= *)
(** ** Helper functions *)

Section Sensor.

(** Python's built-in [float] applied to a string: [Some x] when the string
    denotes a number, [None] when it raises [ValueError]. *)
Variable py_float : string -> option Q.

(** [get_float_state]: the argument is [hass.states.get(entity_id)], either
    [None] or a state object whose [.state] string is given. *)
Definition get_float_state (state : option string) : option Q :=
  match state with
  | None => None
  | Some s =>
      if (String.eqb s STATE_UNAVAILABLE || String.eqb s STATE_UNKNOWN)%bool
      then None
      else py_float s
  end.

Definition _interpolate_value (x x1 y1 x2 y2 : Q) : outcome Q :=
  if Qeq_bool x1 x2 then Ok y1
  else if Qle_bool x x1 then Ok y1
  else if Qle_bool x2 x then Ok y2
  else q <~ py_div ((x - x1) * (y2 - y1)) (x2 - x1) ;; Ok (y1 + q).

(* ================================================================= *)
(** ** PowerManagement *)

(** The wall clock: the n-th call of [datetime.now()] returns [wall n]. *)
Variable wall : nat -> datetime.

Definition datetime_now {H : Type} : M (World H) datetime :=
  fun w => (mkWorld (S (calls w)) (obj w), Ok (wall (calls w))).

Definition __init__ (config : Config) : M (World unit) PowerManagement :=
  now <- datetime_now ;;
  ret (mkPM config 100 None None 1
         (repeat (mkOA 100 None 1 None) NUM_CONSUMERS) now).

Definition _calculate_oa_timing (self : Config) (overload_ratio : Q)
  : outcome (Q * Q) :=
  let ratio := py_min 1.20 overload_ratio in
  T_delay <~ _interpolate_value ratio 1.05 (_delay_5 self) 1.20 (_delay_20 self) ;;
  T_ramp <~ _interpolate_value ratio 1.05 (_ramp_5 self) 1.20 (_ramp_20 self) ;;
  Ok (T_delay, T_ramp).

Definition _calculate_recovery_time (self : Config) (load_ratio : Q) : outcome Q :=
  _interpolate_value load_ratio 0.80 (_recover_fast self) 1.00 (_recover_slow self).

(** [_update_oa_state(current_load, reference_limit, state, time_delta_min)]:
    the dictionary [state] is the object of the world and is mutated in
    place; [self] is only read for its tuning parameters. *)
Definition _update_oa_state (self : Config) (current_load reference_limit : Q)
    (time_delta_min : Q) : M (World OAState) Q :=
  now <- datetime_now ;;
  if Qle_bool reference_limit 0 then ret 1
  else
    overload_ratio <- lift (py_div current_load reference_limit) ;;
    if Qle_bool current_load reference_limit then
      (* RECOVERY (Load <= Limit) *)
      modify_obj (setitem_ramp_start None) ;;
      q <- lift (py_div current_load reference_limit) ;;
      let load_ratio := py_max 0 (py_min 1 q) in
      T_recover <- lift (_calculate_recovery_time self load_ratio) ;;
      rate_rise_per_min <-
        lift (if Qltb 0 T_recover then py_div 100 T_recover else Ok 100) ;;
      state <- get_obj ;;
      modify_obj (setitem_oa (py_min 100 (oa state + rate_rise_per_min * time_delta_min))) ;;
      ret (py_max 1 overload_ratio)
    else
      (* CONSUMPTION (Load > Limit) *)
      timing <- lift (_calculate_oa_timing self overload_ratio) ;;
      let T_delay := fst timing in
      let T_ramp := snd timing in
      rate_consume_per_min <-
        lift (if Qltb 0 T_delay then py_div 100 T_delay else Ok 100) ;;
      state <- get_obj ;;
      modify_obj (setitem_oa (py_max 0 (oa state - rate_consume_per_min * time_delta_min))) ;;
      state <- get_obj ;;
      if Qltb 0 (oa state) then
        modify_obj (setitem_ramp_start None) ;;
        ret overload_ratio
      else
        (* LIMITING (Ramping Down) Phase (OA <= 0) *)
        match ramp_start state with
        | None =>
            modify_obj (setitem_ramp_start (Some now)) ;;
            modify_obj (setitem_ramp_dur (Some T_ramp)) ;;
            modify_obj (setitem_init_factor overload_ratio)
        | Some _ => ret tt
        end ;;
        state <- get_obj ;;
        started <- match ramp_start state with
                   | Some t => ret t
                   | None => raise TypeError
                   end ;;
        time_elapsed_min <- lift (py_div (total_seconds (datetime_sub now started)) 60) ;;
        dur <- match ramp_dur state with
               | Some d => ret d
               | None => raise TypeError
               end ;;
        q <- lift (py_div time_elapsed_min dur) ;;
        let ramp_progress := py_min 1 q in
        let current_limit_factor :=
          init_factor state - (init_factor state - 1) * ramp_progress in
        if Qle_bool 1 ramp_progress then
          modify_obj (setitem_oa 0) ;;
          ret 1
        else ret current_limit_factor.

(** Run [m] on a dictionary [d] created locally by the caller.  The caller
    continues with the mutated dictionary when [m] returns; when [m] raises,
    the exception propagates and the local dictionary is lost. *)
Definition with_local {H A : Type} (d : OAState) (m : M (World OAState) A)
  : M (World H) (OAState * A) :=
  fun w =>
    match m (mkWorld (calls w) d) with
    | (w', Ok a) => (mkWorld (calls w') (obj w), Ok (obj w', a))
    | (w', Raise e) => (mkWorld (calls w') (obj w), Raise e)
    end.

(** [l[i] = v] for [i] in range. *)
Fixpoint list_update {A : Type} (i : nat) (v : A) (l : list A) : list A :=
  match l, i with
  | [], _ => []
  | _ :: t, O => v :: t
  | h :: t, S j => h :: list_update j v t
  end.

Definition set_consumer (i : nat) (d : OAState) (self : PowerManagement)
  : PowerManagement :=
  mkPM (_config self) (_combined_oa self) (_combined_ramp_start self)
       (_combined_ramp_dur self) (_combined_init_factor self)
       (list_update i d (_consumer_oa_states self)) (_last_update_time self).

Definition set_last_update_time (t : datetime) (self : PowerManagement)
  : PowerManagement :=
  mkPM (_config self) (_combined_oa self) (_combined_ramp_start self)
       (_combined_ramp_dur self) (_combined_init_factor self)
       (_consumer_oa_states self) t.

(** The four assignments that copy the local combined dictionary back into
    the attributes of [self]. *)
Definition set_combined (d : OAState) (self : PowerManagement) : PowerManagement :=
  mkPM (_config self) (oa d) (ramp_start d) (ramp_dur d) (init_factor d)
       (_consumer_oa_states self) (_last_update_time self).

(** Run [m] on the dictionary [self._consumer_oa_states[i]].  The dictionary
    is shared with [self], so whatever [m] did to it is visible in [self]
    afterwards, also when [m] raises.  Subscripting out of range raises
    [IndexError]. *)
Definition on_consumer {A : Type} (i : nat) (m : M (World OAState) A)
  : M (World PowerManagement) (OAState * A) :=
  fun w =>
    match nth_error (_consumer_oa_states (obj w)) i with
    | None => (w, Raise IndexError)
    | Some d =>
        match m (mkWorld (calls w) d) with
        | (w', Ok a) =>
            (mkWorld (calls w') (set_consumer i (obj w') (obj w)), Ok (obj w', a))
        | (w', Raise e) =>
            (mkWorld (calls w') (set_consumer i (obj w') (obj w)), Raise e)
        end
    end.

(** The loop [for i, requested_load in enumerate(L_units_actual)], from
    index [i] on, with the two lists it appends to. *)
Fixpoint consumer_loop (self : Config) (time_delta_min : Q) (i : nat)
    (L_units_actual : list Q) (pre_capped_requests individual_oa_percents : list Q)
  : M (World PowerManagement) (list Q * list Q) :=
  match L_units_actual with
  | [] => ret (pre_capped_requests, individual_oa_percents)
  | requested_load :: rest =>
      r <- on_consumer i
             (_update_oa_state self requested_load (max_individual_load self)
                time_delta_min) ;;
      let consumer_state := fst r in
      let individual_limit_factor := snd r in
      let individual_oa_percents :=
        individual_oa_percents ++ [py_round2 (oa consumer_state)] in
      let consumer_oa_cap := max_individual_load self * individual_limit_factor in
      let pre_capped_request := py_min requested_load consumer_oa_cap in
      consumer_loop self time_delta_min (S i) rest
        (pre_capped_requests ++ [pre_capped_request]) individual_oa_percents
  end.

(** Step 3 of [run_distribution]: the proportional distribution. *)
Definition proportional_distribution (X_managed_capacity : Q)
    (pre_capped_requests : list Q) : outcome (list Q) :=
  let L_units_pre_capped_total := py_sum pre_capped_requests in
  if Qle_bool L_units_pre_capped_total X_managed_capacity then Ok pre_capped_requests
  else if Qltb 0 L_units_pre_capped_total then
    scaling_factor <~ py_div X_managed_capacity L_units_pre_capped_total ;;
    Ok (map (fun load => load * scaling_factor) pre_capped_requests)
  else Ok (repeat 0 NUM_CONSUMERS).

(** [run_distribution] up to its [return] statement. *)
Definition run_distribution_locals (L_combined_actual : Q) (L_units_actual : list Q)
  : M (World PowerManagement) Locals :=
  now <- datetime_now ;;
  self <- get_obj ;;
  let time_delta_sec := total_seconds (datetime_sub now (_last_update_time self)) in
  time_delta_min <- lift (py_div time_delta_sec 60) ;;
  modify_obj (set_last_update_time now) ;;
  let L_units_total := py_sum L_units_actual in
  let L_unmanaged_actual := py_max 0 (L_combined_actual - L_units_total) in
  self <- get_obj ;;
  let combined_oa_state :=
    mkOA (_combined_oa self) (_combined_ramp_start self)
         (_combined_init_factor self) (_combined_ramp_dur self) in
  r <- with_local combined_oa_state
         (_update_oa_state (_config self) L_combined_actual
            (max_combined_load (_config self)) time_delta_min) ;;
  let combined_oa_state := fst r in
  let combined_limit_factor := snd r in
  modify_obj (set_combined combined_oa_state) ;;
  let current_combined_limit :=
    if Qltb 1 combined_limit_factor then L_combined_actual
    else max_combined_load (_config self) * combined_limit_factor in
  let X_managed_capacity := py_max 0 (current_combined_limit - L_unmanaged_actual) in
  lp <- consumer_loop (_config self) time_delta_min 0 L_units_actual [] [] ;;
  let pre_capped_requests := fst lp in
  let individual_oa_percents := snd lp in
  let L_units_pre_capped_total := py_sum pre_capped_requests in
  final_limits <- lift (proportional_distribution X_managed_capacity pre_capped_requests) ;;
  ret (mkLocals time_delta_min L_unmanaged_actual combined_limit_factor
         current_combined_limit X_managed_capacity pre_capped_requests
         individual_oa_percents L_units_pre_capped_total final_limits).

Definition run_distribution (L_combined_actual : Q) (L_units_actual : list Q)
  : M (World PowerManagement) DistributionResult :=
  l <- run_distribution_locals L_combined_actual L_units_actual ;;
  self <- get_obj ;;
  ret (mkResult (py_round2 (_combined_oa self))
         (py_round2 (current_combined_limit l))
         (py_round2 (X_managed_capacity l))
         (individual_oa_percents_ l)
         (map py_round2 (final_limits l))
         (map py_round2 (pre_capped_requests l))).

(* ================================================================= *)
(** ** The controller *)

Definition unit_keys : list (Config -> string) :=
  [entity_unit_1; entity_unit_2; entity_unit_3; entity_unit_4].

Definition set_latest_results (r : option DistributionResult) (d : HassData)
  : HassData :=
  mkHassData (manager d) r.

(** A method call on [hass.data[DOMAIN]['manager']]. *)
Definition in_manager {A : Type} (m : M (World PowerManagement) A)
  : M (World HassData) A :=
  fun w =>
    match m (mkWorld (calls w) (manager (obj w))) with
    | (w', r) =>
        (mkWorld (calls w') (mkHassData (obj w') (latest_results (obj w))), r)
    end.

(** The inputs the controller gathers: [hass_states] is [hass.states.get] at
    the time of the tick. *)
Definition gather_units (hass_states : string -> option string) (data : Config)
  : list Q :=
  map (fun entity_key =>
         let unit_state := hass_states (entity_key data) in
         match get_float_state unit_state with
         | Some load => load
         | None => 0
         end) unit_keys.

(** [async_run_controller]: scheduling the entity refresh is left to the
    platform and is not part of the model. *)
Definition async_run_controller (hass_states : string -> option string)
  : M (World HassData) unit :=
  hd <- get_obj ;;
  let data := _config (manager hd) in
  let combined_state := hass_states (entity_combined_load data) in
  let L_combined_actual := get_float_state combined_state in
  let L_units_actual := gather_units hass_states data in
  match L_combined_actual with
  | None => ret tt
  | Some L =>
      try_except
        (results <- in_manager (run_distribution L L_units_actual) ;;
         modify_obj (set_latest_results (Some results)))
  end.

End Sensor.

(* ================================================================= *)
(** ** PowerDistributorSensor *)

Definition DOMAIN : string := "power_distributor".

(** A value held in an attribute dictionary: a string, a float or [None]. *)
Inductive py_value : Type :=
| VStr (s : string)
| VFloat (x : Q)
| VNone.

(** An attribute dictionary, in insertion order; keys occur once. *)
Definition py_dict : Type := list (string * py_value).

(** [d.get(k)] as an option. *)
Fixpoint dict_lookup (k : string) (d : py_dict) : option py_value :=
  match d with
  | [] => None
  | (k', v) :: rest => if String.eqb k k' then Some v else dict_lookup k rest
  end.

(** [d.get(k, default)]. *)
Definition dict_get (k : string) (default : py_value) (d : py_dict) : py_value :=
  match dict_lookup k d with
  | Some v => v
  | None => default
  end.

(** [d[k] = v]: an existing key keeps its place, a new key goes last. *)
Fixpoint dict_setitem (k : string) (v : py_value) (d : py_dict) : py_dict :=
  match d with
  | [] => [(k, v)]
  | (k', v') :: rest =>
      if String.eqb k k' then (k', v) :: rest
      else (k', v') :: dict_setitem k v rest
  end.

(** [d.update(items)]. *)
Definition dict_update (items : py_dict) (d : py_dict) : py_dict :=
  fold_left (fun acc kv => dict_setitem (fst kv) (snd kv) acc) items d.

(** [l[i]] with an integer index: a negative index counts from the end, an
    index out of range raises [IndexError]. *)
Definition py_getitem {A : Type} (l : list A) (i : Z) : outcome A :=
  let n := Z.of_nat (List.length l) in
  let j := if (i <? 0)%Z then (i + n)%Z else i in
  if ((0 <=? j)%Z && (j <? n)%Z)%bool then
    match nth_error l (Z.to_nat j) with
    | Some x => Ok x
    | None => Raise IndexError
    end
  else Raise IndexError.

(** [str.lower()] on the ASCII letters (the names this module builds are
    ASCII). *)
Definition ascii_lower (c : Ascii.ascii) : Ascii.ascii :=
  let n := Ascii.nat_of_ascii c in
  if ((65 <=? n)%nat && (n <=? 90)%nat)%bool then Ascii.ascii_of_nat (n + 32) else c.

Fixpoint str_lower (s : string) : string :=
  match s with
  | EmptyString => EmptyString
  | String c rest => String (ascii_lower c) (str_lower rest)
  end.

(** [s.replace(old, new)] for one-character [old] and [new]. *)
Fixpoint str_replace_char (old new : Ascii.ascii) (s : string) : string :=
  match s with
  | EmptyString => EmptyString
  | String c rest =>
      String (if Ascii.eqb c old then new else c) (str_replace_char old new rest)
  end.

(** [str(n)] for a natural number. *)
Definition str_of_nat (n : nat) : string := NilEmpty.string_of_uint (Nat.to_uint n).

(** The attributes of one sensor entity. *)
Record PowerDistributorSensor : Type := mkSensor {
  _source_entity_id : string;
  _is_combined : bool;
  _index : Z;
  _attr_name : string;
  _attr_unique_id : string;
  _last_result : option DistributionResult;
  _last_actual_load : option Q;
  _state_is_valid : bool
}.

(** [PowerDistributorSensor.__init__]. *)
Definition Sensor__init__ (entry_id : string) (index : Z) (source_entity_id : string)
    (name : string) (is_combined : bool) : PowerDistributorSensor :=
  mkSensor source_entity_id is_combined index name
    (DOMAIN ++ "_" ++ entry_id ++ "_" ++ str_replace_char " " "_" (str_lower name))
    None None true.

Definition native_value (self : PowerDistributorSensor) : option Q :=
  _last_actual_load self.

Definition available (self : PowerDistributorSensor) : bool :=
  match _last_actual_load self with
  | Some _ => _state_is_valid self
  | None => false
  end.

(** [extra_state_attributes]; [hass_data] is [self.hass.data[DOMAIN]]. *)
Definition extra_state_attributes (self : PowerDistributorSensor)
    (hass_data : HassData) : outcome py_dict :=
  let attrs := [("source_entity_id"%string, VStr (_source_entity_id self))] in
  match _last_result self with
  | None => Ok (dict_setitem "status" (VStr "Initializing") attrs)
  | Some result =>
      attrs <~ (if _is_combined self then
                  Ok (dict_update
                        [("calculated_limit_combined_A"%string,
                          VFloat (current_combined_limit_A result));
                         ("combined_oa_percent"%string,
                          VFloat (combined_oa_percent result));
                         ("max_combined_load_x"%string,
                          VFloat (max_combined_load (_config (manager hass_data))));
                         ("available_managed_capacity_A"%string,
                          VFloat (available_managed_capacity_A result))]
                        attrs)
                else
                  limit <~ py_getitem (final_limits_A result) (_index self) ;;
                  percent <~ py_getitem (individual_oa_percents result) (_index self) ;;
                  Ok (dict_update
                        [("calculated_limit_unit_A"%string, VFloat limit);
                         ("individual_oa_percent"%string, VFloat percent);
                         ("max_individual_load_y"%string,
                          VFloat (max_individual_load (_config (manager hass_data))))]
                        attrs)) ;;
      let current_limit :=
        dict_get "calculated_limit_unit_A"
          (dict_get "calculated_limit_combined_A" VNone attrs) attrs in
      exceeded <~ match _last_actual_load self, current_limit with
                  | None, _ => Ok false
                  | Some _, VNone => Ok false
                  | Some load, VFloat limit => Ok (Qltb (limit + 0.01) load)
                  | Some _, VStr _ => Raise TypeError
                  end ;;
      Ok (dict_setitem "control_status"
            (VStr (if exceeded : bool then "Limit Exceeded" else "Limit Enforced"))
            attrs)
  end.

Section Entities.

Variable py_float : string -> option Q.
Variable wall : nat -> datetime.

(** [async_update]: [hass_states] is [hass.states.get], [hass_data] is
    [hass.data[DOMAIN]], both at the time of the update. *)
Definition async_update (hass_states : string -> option string)
    (hass_data : HassData) (self : PowerDistributorSensor) : PowerDistributorSensor :=
  let new_state := hass_states (_source_entity_id self) in
  let load := get_float_state py_float new_state in
  mkSensor (_source_entity_id self) (_is_combined self) (_index self)
    (_attr_name self) (_attr_unique_id self)
    (latest_results hass_data)
    load
    (match load with None => false | Some _ => true end).

(** The loop of [async_setup_entry] that creates the unit sensors, from
    index [i] on. *)
Fixpoint unit_sensors (entry_id : string) (data : Config) (i : nat)
    (keys : list (Config -> string)) : list PowerDistributorSensor :=
  match keys with
  | [] => []
  | entity_key :: rest =>
      Sensor__init__ entry_id (Z.of_nat i) (entity_key data)
        ("Unit " ++ str_of_nat (i + 1) ++ " Status") false
      :: unit_sensors entry_id data (S i) rest
  end.

(** The sensors [async_setup_entry] creates. *)
Definition setup_sensors (entry_id : string) (data : Config)
  : list PowerDistributorSensor :=
  Sensor__init__ entry_id (-1) (entity_combined_load data) "Combined Load Status" true
  :: unit_sensors entry_id data 0 unit_keys.

(** What the platform holds after setup: [hass.data[DOMAIN]] and the sensor
    entities. *)
Record Platform : Type := mkPlatform {
  hass_data : HassData;
  sensors : list PowerDistributorSensor
}.

(** [async_setup_entry]: the manager is constructed, the sensors are
    created, and the controller runs once, called with [datetime.now()].
    Registering the entities and the timer is left to the platform. *)
Definition async_setup_entry (entry_id : string) (data : Config)
    (hass_states : string -> option string) : M (World unit) Platform :=
  fun w =>
    match __init__ wall data w with
    | (w1, Raise e) => (w1, Raise e)
    | (w1, Ok m) =>
        let hd := mkHassData m None in
        let created := setup_sensors entry_id data in
        match datetime_now wall (mkWorld (calls w1) hd) with
        | (w2, _) =>
            match async_run_controller py_float wall hass_states w2 with
            | (w3, Ok _) => (mkWorld (calls w3) tt, Ok (mkPlatform (obj w3) created))
            | (w3, Raise e) => (mkWorld (calls w3) tt, Raise e)
            end
        end
    end.

End Entities.

(* ================================================================= *)
(** ** The configuration flow ([config_flow.py]) *)

Definition CONF_NAME : string := "name".

(** The input of the first form, as [STEP_USER_SCHEMA] delivers it: a name,
    the five entity ids and the two limits coerced to floats. *)
Record UserInput : Type := mkUserInput {
  ui_name : string;
  ui_entity_combined_load : string;
  ui_entity_unit_1 : string;
  ui_entity_unit_2 : string;
  ui_entity_unit_3 : string;
  ui_entity_unit_4 : string;
  ui_max_combined_load : Q;
  ui_max_individual_load : Q
}.

(** The input of the second form, as [STEP_TUNING_SCHEMA] delivers it: the
    six durations coerced to floats. *)
Record TuningInput : Type := mkTuningInput {
  ti_delay_5_percent : Q;
  ti_delay_20_percent : Q;
  ti_ramp_5_percent : Q;
  ti_ramp_20_percent : Q;
  ti_recovery_time_fast : Q;
  ti_recovery_time_slow : Q
}.

(** The dictionary [_user_data].  It is an attribute of the class, so every
    flow instance updates the same dictionary.  The two forms have disjoint
    keys and each delivers all of its keys, so the dictionary is described by
    the last input of each form, if any. *)
Record FlowData : Type := mkFlowData {
  user_part : option UserInput;
  tuning_part : option TuningInput
}.

(** What a step returns: a form to show ([async_show_form], with the
    suggested values and the errors) or the created entry
    ([async_create_entry]). *)
Inductive FlowResult : Type :=
| ShowForm (step_id : string) (suggested : FlowData) (errors : list (string * string))
| CreateEntry (title : string) (data : FlowData).

Inductive flow_outcome : Type :=
| FlowOk (r : FlowResult)
| FlowKeyError (key : string).

(** [async_step_tuning], on the shared dictionary. *)
Definition async_step_tuning (user_input : option TuningInput) (store : FlowData)
  : FlowData * flow_outcome :=
  match user_input with
  | Some t =>
      let store := mkFlowData (user_part store) (Some t) in
      let final_data := store in
      match user_part final_data with
      | Some u => (store, FlowOk (CreateEntry (ui_name u) final_data))
      | None => (store, FlowKeyError CONF_NAME)
      end
  | None => (store, FlowOk (ShowForm "tuning" store []))
  end.

(** [async_step_user], on the shared dictionary. *)
Definition async_step_user (user_input : option UserInput) (store : FlowData)
  : FlowData * flow_outcome :=
  match user_input with
  | Some u =>
      if (Qle_bool (ui_max_combined_load u) 0
          || Qle_bool (ui_max_individual_load u) 0)%bool
      then (store,
            FlowOk (ShowForm "user" store
                      [("base", "positive_limits_required")]%string))
      else async_step_tuning None (mkFlowData (Some u) (tuning_part store))
  | None => (store, FlowOk (ShowForm "user" store []))
  end.

(* ================================================================= *)
(** * Vocabulary of the statements

    Everything above follows the source.  The definitions of this part name
    the notions the lemmas and theorems below speak about; they are built on
    the functions above and add nothing to them. *)

(** ** One OA dictionary *)

(** The rate expression of both phases: [100.0 / T if T > 0 else 100.0]. *)
Definition rate_per_min (T : Q) : outcome Q :=
  if Qltb 0 T then py_div 100 T else Ok 100.

(** Minutes elapsed between two clock readings. *)
Definition minutes_between (now started : datetime) : Q :=
  total_seconds (datetime_sub now started) / 60.

(** The dictionary once the ramp bookkeeping has been captured. *)
Definition capture_ramp (now : datetime) (overload_ratio T_ramp : Q)
    (d : OAState) : OAState :=
  match ramp_start d with
  | None => mkOA (oa d) (Some now) overload_ratio (Some T_ramp)
  | Some _ => d
  end.

(** What the limiting phase of [_update_oa_state] does, branch by branch,
    from the dictionary [d] it finds (the buffer already decayed) and the
    clock reading [now] of the update; [n] is the number of clock readings
    taken so far. *)
Definition limiting_result (now : datetime) (overload_ratio T_ramp : Q)
    (n : nat) (d : OAState) : World OAState * outcome Q :=
  let d1 := capture_ramp now overload_ratio T_ramp d in
  match ramp_start d1, ramp_dur d1 with
  | None, _ => (mkWorld n d1, Raise TypeError)
  | Some _, None => (mkWorld n d1, Raise TypeError)
  | Some started, Some dur =>
      if Qeq_bool dur 0 then (mkWorld n d1, Raise ZeroDivisionError)
      else
        let p := py_min 1 (minutes_between now started / dur) in
        if Qle_bool 1 p then (mkWorld n (setitem_oa 0 d1), Ok 1)
        else (mkWorld n d1, Ok (init_factor d1 - (init_factor d1 - 1) * p))
  end.

(** The dictionary after one update, whatever its outcome. *)
Definition oa_next (wall : nat -> datetime) (self : Config) (load ref dt : Q)
    (n : nat) (d : OAState) : OAState :=
  obj (fst (_update_oa_state wall self load ref dt (mkWorld n d))).

Definition oa_in_range (d : OAState) : Prop := 0 <= oa d <= 100.

(** A recorded ramp start comes with an exhausted buffer and a recorded
    duration, and the captured factor is an overload ratio. *)
Definition oa_wf (d : OAState) : Prop :=
  1 <= init_factor d /\
  (ramp_start d <> None -> oa d == 0 /\ ramp_dur d <> None).

(** A recorded ramp has a recorded, positive duration. *)
Definition ramp_dur_positive (d : OAState) : Prop :=
  ramp_start d <> None -> exists dur, ramp_dur d = Some dur /\ 0 < dur.

(** The dictionary records a ramp started at [t0] lasting [dur] minutes,
    with captured factor [f0]; its buffer is exhausted. *)
Definition ramping (t0 : datetime) (dur f0 : Q) (d : OAState) : Prop :=
  oa d == 0 /\ ramp_start d = Some t0 /\ ramp_dur d = Some dur
  /\ init_factor d = f0.

(** Linearity of one returned factor [f] at the clock reading [now], for a
    ramp started at [t0] with duration [dur] and captured factor [f0]. *)
Definition on_ramp (t0 : datetime) (dur f0 : Q) (now : datetime) (f : Q) : Prop :=
  let p := minutes_between now t0 / dur in
  (0 <= p <= 1 -> f == f0 - (f0 - 1) * p) /\ (1 <= p -> f == 1).

(** One later update of a dictionary: the clock reading it takes (by its
    index), the load it sees and the elapsed minutes it is given. *)
Record OATick : Type := mkTick { tick_call : nat; tick_load : Q; tick_dt : Q }.

(** The outcomes of successive updates of one dictionary. *)
Fixpoint oa_ticks (wall : nat -> datetime) (self : Config) (reference_limit : Q)
    (ticks : list OATick) (d : OAState) : list (outcome Q) :=
  match ticks with
  | [] => []
  | t :: rest =>
      let r := _update_oa_state wall self (tick_load t) reference_limit (tick_dt t)
                 (mkWorld (tick_call t) d) in
      snd r :: oa_ticks wall self reference_limit rest (obj (fst r))
  end.

(** The level the fallback rate of 100 points per minute leads to. *)
Definition fallback_level (load ref dt : Q) (d : OAState) : Q :=
  if Qle_bool load ref then py_min 100 (oa d + 100 * dt)
  else py_max 0 (oa d - 100 * dt).

(** The two situations in which an update changes the ramp bookkeeping even
    without elapsed time: a recorded ramp while the load is at or under the
    limit (the ramp is cleared), and no recorded ramp while the buffer is
    exhausted and the load is over the limit (a ramp is started). *)
Definition ramp_event (load ref : Q) (d : OAState) : Prop :=
  0 < ref /\
  ((ramp_start d <> None /\ load <= ref)
   \/ (ramp_start d = None /\ oa d <= 0 /\ ref < load)).

(** No elapsed time: the buffer keeps its level, and outside a ramp event
    the ramp start and the captured factor are kept. *)
Definition zero_dt_kept (load ref : Q) (d d' : OAState) : Prop :=
  oa d' == oa d
  /\ (~ ramp_event load ref d ->
      ramp_start d' = ramp_start d /\ init_factor d' = init_factor d).

(** What the loop over the units appends for one unit: the load capped by
    [max_individual_load * f] for a factor [f] of at least one. *)
Definition capped_request (self : Config) (load p : Q) : Prop :=
  exists f, 1 <= f
    /\ max_individual_load self <= max_individual_load self * f
    /\ p = py_min load (max_individual_load self * f)
    /\ (load <= max_individual_load self -> p = load).

(** ** The engine *)

(** The combined dictionary that [run_distribution] builds from, and copies
    back into, the attributes of [self]. *)
Definition combined_dict (self : PowerManagement) : OAState :=
  mkOA (_combined_oa self) (_combined_ramp_start self)
       (_combined_init_factor self) (_combined_ramp_dur self).

(** The elapsed minutes a tick computes from the clock reading [now]. *)
Definition tick_minutes (now : datetime) (self : PowerManagement) : Q :=
  total_seconds (datetime_sub now (_last_update_time self)) / 60.

(** [current_combined_limit], from the combined limit factor. *)
Definition limit_of_factor (self : Config) (L_combined_actual factor : Q) : Q :=
  if Qltb 1 factor then L_combined_actual
  else max_combined_load self * factor.

(** What a tick leaves untouched while it loops over the units. *)
Definition frame_eq (self self' : PowerManagement) : Prop :=
  _config self' = _config self
  /\ combined_dict self' = combined_dict self
  /\ _last_update_time self' = _last_update_time self.

(** The effect of the loop on the list of unit dictionaries: the list keeps
    its length, and the dictionary at position [j] is either untouched or the
    result of one update with the load at that position. *)
Definition unit_effect (wall : nat -> datetime) (cfg : Config) (dt : Q)
    (loads : list Q) (i : nat) (l l' : list OAState) : Prop :=
  List.length l' = List.length l /\
  forall j d, nth_error l j = Some d ->
    exists d', nth_error l' j = Some d' /\
      (d' = d \/
       exists load n, (i <= j)%nat /\ nth_error loads (j - i) = Some load /\
         d' = oa_next wall cfg load (max_individual_load cfg) dt n d).

(** The engine is constructed once; afterwards the clock may be read by
    others (time passes), and ticks run with arbitrary loads.  A tick that
    raised is followed by further ticks as well: the controller catches the
    exception and keeps the manager. *)
Inductive reachable (wall : nat -> datetime) (config : Config)
  : World PowerManagement -> Prop :=
| reach_init (n : nat) (w : World unit) (self : PowerManagement) :
    __init__ wall config (mkWorld n tt) = (w, Ok self) ->
    reachable wall config (mkWorld (calls w) self)
| reach_clock (w : World PowerManagement) :
    reachable wall config w ->
    reachable wall config (mkWorld (S (calls w)) (obj w))
| reach_tick (w : World PowerManagement) (L_c : Q) (L_u : list Q) :
    reachable wall config w ->
    reachable wall config (fst (run_distribution wall L_c L_u w)).

(** The clock never runs backwards: every tick sees [dt >= 0]. *)
Definition monotone_clock (wall : nat -> datetime) : Prop :=
  forall i j : nat, (i <= j)%nat -> (wall i <= wall j)%Z.

(** The structural invariant of the engine. *)
Definition engine_wf (wall : nat -> datetime) (config : Config)
    (w : World PowerManagement) : Prop :=
  _config (obj w) = config
  /\ List.length (_consumer_oa_states (obj w)) = NUM_CONSUMERS
  /\ oa_wf (combined_dict (obj w))
  /\ Forall oa_wf (_consumer_oa_states (obj w))
  /\ exists k, (k < calls w)%nat /\ _last_update_time (obj w) = wall k.

Definition engine_in_range (w : World PowerManagement) : Prop :=
  oa_in_range (combined_dict (obj w))
  /\ Forall oa_in_range (_consumer_oa_states (obj w)).

(** The engine right after construction, when the constructor took the clock
    reading of index [n]. *)
Definition boot (wall : nat -> datetime) (config : Config) (n : nat)
  : World PowerManagement :=
  mkWorld (S n)
    (mkPM config 100 None None 1 (repeat (mkOA 100 None 1 None) NUM_CONSUMERS)
       (wall n)).

(** ** The controller *)

(** The load the controller passes on for one unit. *)
Definition unit_load (py_float : string -> option Q)
    (hass_states : string -> option string) (entity_id : string) : Q :=
  match get_float_state py_float (hass_states entity_id) with
  | Some load => load
  | None => 0
  end.

(** [hass.states] with the state of one entity replaced. *)
Definition set_state (hass_states : string -> option string)
    (entity_id state : string) : string -> option string :=
  fun e => if String.eqb e entity_id then Some state else hass_states e.

(** ** Configurations, clocks and sensor states used in examples *)

(** The default limits and durations of [const.py], with entity ids chosen
    for the examples. *)
Definition default_config : Config :=
  mkConfig "sensor.combined" "sensor.unit_1" "sensor.unit_2" "sensor.unit_3"
    "sensor.unit_4" 16.0 4.0 10.0 2.0 10.0 5.0 20.0 60.0.

(** A configuration as the tuning form accepts it (every duration is only
    coerced to a float): the defaults, with both ramp durations set to 0. *)
Definition zero_ramp_config : Config :=
  mkConfig "sensor.combined" "sensor.unit_1" "sensor.unit_2" "sensor.unit_3"
    "sensor.unit_4" 16.0 4.0 10.0 2.0 0.0 0.0 20.0 60.0.

(** The defaults, with the two delays and the two recovery durations set
    to 0. *)
Definition degenerate_config : Config :=
  mkConfig "sensor.combined" "sensor.unit_1" "sensor.unit_2" "sensor.unit_3"
    "sensor.unit_4" 16.0 4.0 0.0 0.0 10.0 5.0 0.0 0.0.

(** A clock that advances by one second at every reading. *)
Definition second_clock (n : nat) : datetime := (Z.of_nat n * 1000000)%Z.

(** A clock that advances by one minute at every reading. *)
Definition minute_clock (n : nat) : datetime := (Z.of_nat n * 60000000)%Z.

(** A clock that advances by two minutes at every reading. *)
Definition two_minute_clock (n : nat) : datetime := (Z.of_nat n * 120000000)%Z.

(** A clock that reads 0 once and two minutes ever after. *)
Definition stalled_clock (n : nat) : datetime :=
  match n with
  | O => 0%Z
  | S _ => 120000000%Z
  end.

(** A clock that agrees with [second_clock] on the first ten readings. *)
Definition second_clock_then_stuck (n : nat) : datetime :=
  if (n <? 10)%nat then second_clock n else 0%Z.

(** A stand-in for [float] on the few strings used in the example. *)
Definition sample_float (s : string) : option Q :=
  if String.eqb s "17.0" then Some 17.0
  else if String.eqb s "4.0" then Some 4.0
  else None.

Definition sample_states (e : string) : option string :=
  if String.eqb e "sensor.combined" then Some "17.0"%string else Some "4.0"%string.

(** ** Sequences of updates of one dictionary *)

(** The dictionary after successive updates, whatever their outcomes. *)
Fixpoint oa_after (wall : nat -> datetime) (self : Config) (reference_limit : Q)
    (ticks : list OATick) (d : OAState) : OAState :=
  match ticks with
  | [] => d
  | t :: rest =>
      oa_after wall self reference_limit rest
        (oa_next wall self (tick_load t) reference_limit (tick_dt t) (tick_call t) d)
  end.

(** The minutes that elapse over a sequence of updates. *)
Fixpoint total_dt (ticks : list OATick) : Q :=
  match ticks with
  | [] => 0
  | t :: rest => tick_dt t + total_dt rest
  end.

(** Updates that all see the load [load] and a non-negative elapsed time. *)
Definition steady (load : Q) (ticks : list OATick) : Prop :=
  Forall (fun t => tick_load t = load /\ 0 <= tick_dt t) ticks.

(** A recorded ramp, if any, has a zero duration. *)
Definition zero_duration_ramp (d : OAState) : Prop :=
  match ramp_start d with
  | None => True
  | Some _ => exists dur, ramp_dur d = Some dur /\ dur == 0
  end.

(** ** The platform: the controller and the sensor entities *)

(** The lists of a published result have one entry per unit. *)
Definition result_shaped (r : DistributionResult) : Prop :=
  List.length (final_limits_A r) = NUM_CONSUMERS
  /\ List.length (individual_oa_percents r) = NUM_CONSUMERS.

(** The platform after setup: time passes, the controller runs, and the
    platform refreshes one sensor entity at a time, in any order and with
    any source states. *)
Inductive platform_reachable (py_float : string -> option Q)
    (wall : nat -> datetime) (entry_id : string) (data : Config)
  : World Platform -> Prop :=
| plat_setup (n : nat) (hass_states : string -> option string)
    (w : World unit) (p : Platform) :
    async_setup_entry py_float wall entry_id data hass_states (mkWorld n tt)
    = (w, Ok p) ->
    platform_reachable py_float wall entry_id data (mkWorld (calls w) p)
| plat_clock (w : World Platform) :
    platform_reachable py_float wall entry_id data w ->
    platform_reachable py_float wall entry_id data (mkWorld (S (calls w)) (obj w))
| plat_controller (w : World Platform) (hass_states : string -> option string) :
    platform_reachable py_float wall entry_id data w ->
    platform_reachable py_float wall entry_id data
      (let w' := fst (async_run_controller py_float wall hass_states
                        (mkWorld (calls w) (hass_data (obj w)))) in
       mkWorld (calls w') (mkPlatform (obj w') (sensors (obj w))))
| plat_update (w : World Platform) (hass_states : string -> option string)
    (i : nat) (s : PowerDistributorSensor) :
    platform_reachable py_float wall entry_id data w ->
    nth_error (sensors (obj w)) i = Some s ->
    platform_reachable py_float wall entry_id data
      (mkWorld (calls w)
         (mkPlatform (hass_data (obj w))
            (list_update i (async_update py_float hass_states (hass_data (obj w)) s)
               (sensors (obj w))))).

(** A sensor that can index a shaped result. *)
Definition sensor_ok (s : PowerDistributorSensor) : Prop :=
  (_is_combined s = true \/ (0 <= _index s < 4)%Z)
  /\ (forall r, _last_result s = Some r -> result_shaped r)
  /\ (_last_actual_load s <> None -> _state_is_valid s = true).

(** ** The configuration flow *)

(** One call of a step of the flow. *)
Inductive flow_call : Type :=
| CallUser (user_input : option UserInput)
| CallTuning (user_input : option TuningInput).

Definition flow_step (c : flow_call) (store : FlowData) : FlowData * flow_outcome :=
  match c with
  | CallUser i => async_step_user i store
  | CallTuning i => async_step_tuning i store
  end.

(** A sequence of step calls, of one flow or of several, on the shared
    dictionary: the final dictionary and what each call returned. *)
Fixpoint flow_run (calls : list flow_call) (store : FlowData)
  : FlowData * list flow_outcome :=
  match calls with
  | [] => (store, [])
  | c :: rest =>
      let (store1, r) := flow_step c store in
      let (store2, rs) := flow_run rest store1 in
      (store2, r :: rs)
  end.

(** The limits stored in the dictionary, if any, are positive. *)
Definition flow_store_ok (store : FlowData) : Prop :=
  forall u, user_part store = Some u ->
    0 < ui_max_combined_load u /\ 0 < ui_max_individual_load u.

(** An outcome that is an entry has complete data, the stored name as title
    and positive limits. *)
Definition entry_ok (r : flow_outcome) : Prop :=
  forall title data, r = FlowOk (CreateEntry title data) ->
    exists u t,
      data = mkFlowData (Some u) (Some t)
      /\ title = ui_name u
      /\ 0 < ui_max_combined_load u
      /\ 0 < ui_max_individual_load u.

(** Inputs used in examples. *)
Definition sample_user_input : UserInput :=
  mkUserInput "Power Distributor" "sensor.combined" "sensor.unit_1" "sensor.unit_2"
    "sensor.unit_3" "sensor.unit_4" 16.0 4.0.

Definition other_user_input : UserInput :=
  mkUserInput "Garage" "sensor.garage" "sensor.g1" "sensor.g2" "sensor.g3"
    "sensor.g4" 32.0 8.0.

Definition zero_ramp_tuning : TuningInput :=
  mkTuningInput 10.0 2.0 0.0 0.0 20.0 60.0.

(* ================================================================= *)
(** * Properties *)

(* ================================================================= *)
(** ** Arithmetic of the built-ins *)

Lemma Qltb_true (x y : Q) : Qltb x y = true <-> x < y.
Proof.
  unfold Qltb. rewrite negb_true_iff. split; intro H.
  - apply Qnot_le_lt. intro L. apply Qle_bool_iff in L. congruence.
  - destruct (Qle_bool y x) eqn:E; [|reflexivity].
    apply Qle_bool_iff in E. lra.
Qed.

Lemma Qltb_false (x y : Q) : Qltb x y = false <-> y <= x.
Proof.
  unfold Qltb. rewrite negb_false_iff. apply Qle_bool_iff.
Qed.

Lemma Qle_bool_false (x y : Q) : Qle_bool x y = false <-> y < x.
Proof.
  rewrite <- Qltb_true. unfold Qltb. now rewrite negb_true_iff.
Qed.

Lemma Qeq_bool_false (x y : Q) : Qeq_bool x y = false <-> ~ x == y.
Proof.
  split.
  - apply Qeq_bool_neq.
  - intro H. destruct (Qeq_bool x y) eqn:E; [|reflexivity].
    apply Qeq_bool_iff in E. contradiction.
Qed.

(** Case analysis on the comparisons of the source. *)
Ltac cmp_cases :=
  repeat match goal with
  | |- context [Qltb ?a ?b] =>
      let E := fresh "E" in
      destruct (Qltb a b) eqn:E;
      [apply Qltb_true in E | apply Qltb_false in E]
  | |- context [Qle_bool ?a ?b] =>
      let E := fresh "E" in
      destruct (Qle_bool a b) eqn:E;
      [apply Qle_bool_iff in E | apply Qle_bool_false in E]
  | |- context [Qeq_bool ?a ?b] =>
      let E := fresh "E" in
      destruct (Qeq_bool a b) eqn:E;
      [apply Qeq_bool_iff in E | apply Qeq_bool_false in E]
  end.

Lemma py_min_le_l (a b : Q) : py_min a b <= a.
Proof. unfold py_min. cmp_cases; lra. Qed.

Lemma py_min_glb (a b c : Q) : c <= a -> c <= b -> c <= py_min a b.
Proof. unfold py_min. cmp_cases; lra. Qed.

Lemma py_max_ge_l (a b : Q) : a <= py_max a b.
Proof. unfold py_max. cmp_cases; lra. Qed.

Lemma py_max_lub (a b c : Q) : a <= c -> b <= c -> py_max a b <= c.
Proof. unfold py_max. cmp_cases; lra. Qed.

Lemma py_div_ok (a b : Q) : ~ b == 0 -> py_div a b = Ok (a / b).
Proof.
  intro H. unfold py_div. apply Qeq_bool_false in H. now rewrite H.
Qed.

(* ================================================================= *)
(** ** The interpolator and the timing calculator *)

(** The division of [_interpolate_value] is guarded by its first test: the
    function returns for every input. *)
Lemma interpolate_returns (x x1 y1 x2 y2 : Q) :
  exists v, _interpolate_value x x1 y1 x2 y2 = Ok v.
Proof.
  unfold _interpolate_value. cmp_cases; eauto.
  rewrite py_div_ok by lra. simpl. eauto.
Qed.

(** Between two anchors in increasing order the value stays between the
    anchor values. *)
Lemma interpolate_between (x x1 y1 x2 y2 lo hi v : Q) :
  x1 < x2 -> lo <= y1 <= hi -> lo <= y2 <= hi ->
  _interpolate_value x x1 y1 x2 y2 = Ok v -> lo <= v <= hi.
Proof.
  intros Hx H1 H2. unfold _interpolate_value.
  cmp_cases; intro H; try lra; try (inversion H; subst; lra).
  rewrite py_div_ok in H by lra. simpl in H. inversion H; subst. clear H.
  set (t := (x - x1) / (x2 - x1)).
  assert (Ht : 0 <= t <= 1).
  { unfold t. split.
    - apply Qle_shift_div_l; lra.
    - apply Qle_shift_div_r; lra. }
  assert (Eq : y1 + (x - x1) * (y2 - y1) / (x2 - x1) == y1 + t * (y2 - y1)).
  { unfold t. field. lra. }
  rewrite Eq. nra.
Qed.

Lemma rate_per_min_returns (T : Q) :
  exists r, rate_per_min T = Ok r /\ 0 < r /\ (T <= 0 -> r = 100).
Proof.
  unfold rate_per_min. cmp_cases.
  - rewrite py_div_ok by lra. exists (100 / T).
    split; [reflexivity|]. split; [|intro; lra].
    apply Qlt_shift_div_l; lra.
  - exists 100. split; [reflexivity|]. split; [lra|reflexivity].
Qed.

Lemma oa_timing_returns (self : Config) (r : Q) :
  exists T_delay T_ramp,
    _calculate_oa_timing self r = Ok (T_delay, T_ramp)
    /\ _interpolate_value (py_min 1.20 r) 1.05 (_delay_5 self) 1.20 (_delay_20 self)
       = Ok T_delay
    /\ _interpolate_value (py_min 1.20 r) 1.05 (_ramp_5 self) 1.20 (_ramp_20 self)
       = Ok T_ramp.
Proof.
  unfold _calculate_oa_timing.
  destruct (interpolate_returns (py_min 1.20 r) 1.05 (_delay_5 self) 1.20 (_delay_20 self))
    as [a Ha].
  destruct (interpolate_returns (py_min 1.20 r) 1.05 (_ramp_5 self) 1.20 (_ramp_20 self))
    as [b Hb].
  exists a, b. rewrite Ha, Hb. simpl. auto.
Qed.

Lemma recovery_time_returns (self : Config) (r : Q) :
  exists T, _calculate_recovery_time self r = Ok T.
Proof. apply interpolate_returns. Qed.

(* ================================================================= *)
(** ** The branches of the OA state machine *)

Section Branches.

Variable wall : nat -> datetime.
Variable self : Config.

Lemma update_nonpositive_limit (load ref dt : Q) (w : World OAState) :
  ref <= 0 ->
  _update_oa_state wall self load ref dt w = (mkWorld (S (calls w)) (obj w), Ok 1).
Proof.
  intro H. unfold _update_oa_state, bind, datetime_now.
  apply Qle_bool_iff in H. rewrite H. reflexivity.
Qed.

Lemma update_recovery (load ref dt : Q) (w : World OAState) :
  0 < ref -> load <= ref ->
  exists T rate,
    _calculate_recovery_time self (py_max 0 (py_min 1 (load / ref))) = Ok T
    /\ rate_per_min T = Ok rate
    /\ _update_oa_state wall self load ref dt w
       = (mkWorld (S (calls w))
            (mkOA (py_min 100 (oa (obj w) + rate * dt)) None
                  (init_factor (obj w)) (ramp_dur (obj w))),
          Ok (py_max 1 (load / ref))).
Proof.
  intros Hr Hl.
  destruct (recovery_time_returns self (py_max 0 (py_min 1 (load / ref)))) as [T HT].
  destruct (rate_per_min_returns T) as [rate [Hrate _]].
  exists T, rate. split; [assumption|]. split; [assumption|].
  unfold _update_oa_state, bind, datetime_now, lift, modify_obj, get_obj, ret.
  assert (E1 : Qle_bool ref 0 = false) by (apply Qle_bool_false; lra).
  rewrite E1. rewrite py_div_ok by lra.
  apply Qle_bool_iff in Hl. rewrite Hl. simpl. rewrite HT.
  change (if Qltb 0 T then py_div 100 T else Ok 100) with (rate_per_min T).
  rewrite Hrate. reflexivity.
Qed.

Lemma update_consumption (load ref dt : Q) (w : World OAState) :
  0 < ref -> ref < load ->
  exists T_delay T_ramp rate,
    _calculate_oa_timing self (load / ref) = Ok (T_delay, T_ramp)
    /\ rate_per_min T_delay = Ok rate
    /\ _update_oa_state wall self load ref dt w
       = let level := py_max 0 (oa (obj w) - rate * dt) in
         if Qltb 0 level then
           (mkWorld (S (calls w))
              (mkOA level None (init_factor (obj w)) (ramp_dur (obj w))),
            Ok (load / ref))
         else
           limiting_result (wall (calls w)) (load / ref) T_ramp (S (calls w))
             (setitem_oa level (obj w)).
Proof.
  intros Hr Hl.
  destruct (oa_timing_returns self (load / ref)) as [Td [Tr [Ht _]]].
  destruct (rate_per_min_returns Td) as [rate [Hrate _]].
  exists Td, Tr, rate. split; [assumption|]. split; [assumption|].
  unfold _update_oa_state, bind, datetime_now, lift, modify_obj, get_obj, ret.
  assert (E1 : Qle_bool ref 0 = false) by (apply Qle_bool_false; lra).
  rewrite E1. rewrite py_div_ok by lra.
  assert (E2 : Qle_bool load ref = false) by (apply Qle_bool_false; lra).
  rewrite E2. rewrite Ht. simpl.
  change (if Qltb 0 Td then py_div 100 Td else Ok 100) with (rate_per_min Td).
  rewrite Hrate. simpl.
  destruct (Qltb 0 _); [reflexivity|].
  unfold limiting_result, capture_ramp, minutes_between.
  destruct w as [n [o rs f rd]]. simpl.
  destruct rs as [t|]; simpl.
  - destruct rd as [dur|]; simpl; [|reflexivity].
    unfold py_div. destruct (Qeq_bool dur 0); [reflexivity|].
    destruct (Qle_bool 1 _); reflexivity.
  - unfold py_div. destruct (Qeq_bool Tr 0); [reflexivity|].
    destruct (Qle_bool 1 _); reflexivity.
Qed.

End Branches.

(* ================================================================= *)
(** ** Invariants of one OA dictionary *)

Section OAInvariants.

Variable wall : nat -> datetime.
Variable self : Config.

Lemma branch_cases (load ref : Q) :
  ref <= 0 \/ (0 < ref /\ load <= ref) \/ (0 < ref /\ ref < load).
Proof.
  destruct (Qlt_le_dec 0 ref) as [H|H]; [|now left].
  right. destruct (Qlt_le_dec ref load); [right|left]; split; assumption.
Qed.

Lemma overload_ratio_gt_1 (load ref : Q) : 0 < ref -> ref < load -> 1 < load / ref.
Proof.
  intros Hr Hl. apply Qlt_shift_div_l; lra.
Qed.

(** Every update reads the clock exactly once. *)
Lemma update_calls (load ref dt : Q) (w : World OAState) :
  calls (fst (_update_oa_state wall self load ref dt w)) = S (calls w).
Proof.
  destruct (branch_cases load ref) as [H|[[Hr Hl]|[Hr Hl]]].
  - rewrite update_nonpositive_limit by assumption. reflexivity.
  - destruct (update_recovery wall self load ref dt w Hr Hl) as [T [rate [_ [_ E]]]].
    rewrite E. reflexivity.
  - destruct (update_consumption wall self load ref dt w Hr Hl)
      as [Td [Tr [rate [_ [_ E]]]]].
    rewrite E. cbv zeta. destruct (Qltb 0 _); [reflexivity|].
    unfold limiting_result.
    destruct (ramp_start (capture_ramp _ _ _ _)); [|reflexivity].
    destruct (ramp_dur (capture_ramp _ _ _ _)); [|reflexivity].
    destruct (Qeq_bool _ 0); [reflexivity|].
    destruct (Qle_bool 1 _); reflexivity.
Qed.

(** The dictionary left by the limiting phase: the captured bookkeeping,
    with the buffer possibly reset to zero. *)
Lemma limiting_result_obj (now : datetime) (r T_ramp : Q) (n : nat) (d : OAState) :
  let d1 := capture_ramp now r T_ramp d in
  obj (fst (limiting_result now r T_ramp n d)) = d1
  \/ obj (fst (limiting_result now r T_ramp n d)) = setitem_oa 0 d1.
Proof.
  cbv zeta. unfold limiting_result.
  destruct (ramp_start (capture_ramp _ _ _ _)); [|now left].
  destruct (ramp_dur (capture_ramp _ _ _ _)); [|now left].
  destruct (Qeq_bool _ 0); [now left|].
  destruct (Qle_bool 1 _); [now right|now left].
Qed.

Lemma update_keeps_range (load ref dt : Q) (n : nat) (d : OAState) :
  0 <= dt -> oa_in_range d -> oa_in_range (oa_next wall self load ref dt n d).
Proof.
  unfold oa_in_range, oa_next. intros Hdt Hd.
  destruct (branch_cases load ref) as [H|[[Hr Hl]|[Hr Hl]]].
  - rewrite update_nonpositive_limit by assumption. exact Hd.
  - destruct (update_recovery wall self load ref dt (mkWorld n d) Hr Hl)
      as [T [rate [_ [Hrate E]]]].
    rewrite E. simpl.
    destruct (rate_per_min_returns T) as [rate' [Hrate' [Hpos _]]].
    rewrite Hrate in Hrate'. inversion Hrate'; subst rate'.
    split.
    + apply py_min_glb; [lra|nra].
    + apply py_min_le_l.
  - destruct (update_consumption wall self load ref dt (mkWorld n d) Hr Hl)
      as [Td [Tr [rate [_ [Hrate E]]]]].
    rewrite E. cbv zeta. simpl obj.
    destruct (rate_per_min_returns Td) as [rate' [Hrate' [Hpos _]]].
    rewrite Hrate in Hrate'. inversion Hrate'; subst rate'.
    assert (Hlev : 0 <= py_max 0 (oa d - rate * dt) <= 100).
    { split; [apply py_max_ge_l|apply py_max_lub; [lra|nra]]. }
    destruct (Qltb 0 _) eqn:E0; [exact Hlev|].
    destruct (limiting_result_obj (wall n) (load / ref) Tr (S n)
                (setitem_oa (py_max 0 (oa d - rate * dt)) d)) as [Eo|Eo];
      rewrite Eo; unfold capture_ramp; simpl;
      destruct (ramp_start d); simpl; lra.
Qed.

Lemma update_keeps_wf (load ref dt : Q) (n : nat) (d : OAState) :
  oa_wf d -> oa_wf (oa_next wall self load ref dt n d).
Proof.
  unfold oa_wf, oa_next. intros [Hf Hramp].
  destruct (branch_cases load ref) as [H|[[Hr Hl]|[Hr Hl]]].
  - rewrite update_nonpositive_limit by assumption. simpl. auto.
  - destruct (update_recovery wall self load ref dt (mkWorld n d) Hr Hl)
      as [T [rate [_ [_ E]]]].
    rewrite E. simpl. split; [assumption|congruence].
  - destruct (update_consumption wall self load ref dt (mkWorld n d) Hr Hl)
      as [Td [Tr [rate [_ [_ E]]]]].
    rewrite E. cbv zeta. simpl obj.
    destruct (Qltb 0 _) eqn:E0.
    + simpl. split; [assumption|congruence].
    + apply Qltb_false in E0.
      pose proof (py_max_ge_l 0 (oa d - rate * dt)) as Hge.
      pose proof (overload_ratio_gt_1 load ref Hr Hl) as Hratio.
      destruct (limiting_result_obj (wall n) (load / ref) Tr (S n)
                  (setitem_oa (py_max 0 (oa d - rate * dt)) d)) as [Eo|Eo];
        rewrite Eo; unfold capture_ramp; simpl;
        destruct (ramp_start d) eqn:Ers; simpl;
        (split; [lra|]); intros _; (split; [lra|]);
        try discriminate; apply Hramp; discriminate.
Qed.

(** The returned limit factor is never below one. *)
Lemma update_factor_ge_1 (load ref dt : Q) (w w' : World OAState) (f : Q) :
  1 <= init_factor (obj w) ->
  _update_oa_state wall self load ref dt w = (w', Ok f) -> 1 <= f.
Proof.
  intros Hf.
  destruct (branch_cases load ref) as [H|[[Hr Hl]|[Hr Hl]]].
  - rewrite update_nonpositive_limit by assumption. intro E; inversion E; lra.
  - destruct (update_recovery wall self load ref dt w Hr Hl) as [T [rate [_ [_ E]]]].
    rewrite E. intro E'; inversion E'; subst. apply py_max_ge_l.
  - destruct (update_consumption wall self load ref dt w Hr Hl)
      as [Td [Tr [rate [_ [_ E]]]]].
    rewrite E. cbv zeta.
    pose proof (overload_ratio_gt_1 load ref Hr Hl) as Hratio.
    destruct (Qltb 0 _); [intro E'; inversion E'; subst; lra|].
    unfold limiting_result.
    set (d1 := capture_ramp _ _ _ _).
    assert (Hd1 : 1 <= init_factor d1).
    { unfold d1, capture_ramp. simpl. destruct (ramp_start (obj w)); simpl; lra. }
    destruct (ramp_start d1) as [t|]; [|discriminate].
    destruct (ramp_dur d1) as [dur|]; [|discriminate].
    destruct (Qeq_bool dur 0); [discriminate|].
    destruct (Qle_bool 1 _) eqn:Ep; intro E'; inversion E'; subst; [lra|].
    apply Qle_bool_false in Ep. nra.
Qed.

End OAInvariants.

(* ================================================================= *)
(** ** The tick, unfolded *)

Section Tick.

Variable wall : nat -> datetime.

Lemma py_div_60 (x : Q) : py_div x 60 = Ok (x / 60).
Proof. reflexivity. Qed.

(** [run_distribution] up to its [return], as a cascade of its three
    stages: the combined update, the loop over the units, the proportional
    distribution. *)
Lemma run_distribution_locals_eq (L_c : Q) (L_u : list Q) (w : World PowerManagement) :
  run_distribution_locals wall L_c L_u w =
  let self := obj w in
  let cfg := _config self in
  let now := wall (calls w) in
  let dt := tick_minutes now self in
  let self1 := set_last_update_time now self in
  match _update_oa_state wall cfg L_c (max_combined_load cfg) dt
          (mkWorld (S (calls w)) (combined_dict self)) with
  | (wc, Raise e) => (mkWorld (calls wc) self1, Raise e)
  | (wc, Ok f_c) =>
      let unmanaged := py_max 0 (L_c - py_sum L_u) in
      let limit := limit_of_factor cfg L_c f_c in
      let capacity := py_max 0 (limit - unmanaged) in
      match consumer_loop wall cfg dt 0 L_u [] []
              (mkWorld (calls wc) (set_combined (obj wc) self1)) with
      | (w2, Raise e) => (w2, Raise e)
      | (w2, Ok lp) =>
          match proportional_distribution capacity (fst lp) with
          | Raise e => (w2, Raise e)
          | Ok fl =>
              (w2, Ok (mkLocals dt unmanaged f_c limit capacity (fst lp) (snd lp)
                         (py_sum (fst lp)) fl))
          end
      end
  end.
Proof.
  unfold run_distribution_locals, bind, datetime_now, get_obj, modify_obj, lift,
    with_local, ret, tick_minutes, combined_dict, limit_of_factor.
  cbv zeta. simpl calls. simpl obj. rewrite py_div_60.
  destruct (_update_oa_state _ _ _ _ _ _) as [wc [f_c|e]]; [|reflexivity].
  simpl fst. simpl snd. simpl obj. simpl calls.
  destruct (consumer_loop _ _ _ _ _ _ _ _) as [w2 [lp|e]]; [|reflexivity].
  destruct (proportional_distribution _ _); reflexivity.
Qed.

Lemma run_distribution_world (L_c : Q) (L_u : list Q) (w : World PowerManagement) :
  fst (run_distribution wall L_c L_u w) = fst (run_distribution_locals wall L_c L_u w).
Proof.
  unfold run_distribution, bind, get_obj, ret.
  destruct (run_distribution_locals _ _ _ _) as [w' [l|e]]; reflexivity.
Qed.

(** *** Updating one dictionary of the list *)

Lemma list_update_length {A : Type} (i : nat) (v : A) (l : list A) :
  List.length (list_update i v l) = List.length l.
Proof.
  revert i. induction l as [|h t IH]; intros [|i]; simpl; auto.
Qed.

Lemma nth_error_list_update_eq {A : Type} (i : nat) (v x : A) (l : list A) :
  nth_error l i = Some x -> nth_error (list_update i v l) i = Some v.
Proof.
  revert i. induction l as [|h t IH]; intros [|i]; simpl; intro H;
    try discriminate; auto.
Qed.

Lemma nth_error_list_update_neq {A : Type} (i j : nat) (v : A) (l : list A) :
  i <> j -> nth_error (list_update i v l) j = nth_error l j.
Proof.
  revert i j. induction l as [|h t IH]; intros [|i] [|j] H; simpl; auto;
    congruence.
Qed.

Lemma Forall_list_update {A : Type} (P : A -> Prop) (i : nat) (v : A) (l : list A) :
  Forall P l -> P v -> Forall P (list_update i v l).
Proof.
  intros Hl Hv. revert i. induction Hl as [|h t Hh Ht IH]; intros [|i]; simpl;
    constructor; auto.
Qed.

(** One iteration of the loop over the units. *)
Lemma consumer_loop_cons (cfg : Config) (dt : Q) (i : nat) (load : Q)
    (rest pre percs : list Q) (w : World PowerManagement) :
  consumer_loop wall cfg dt i (load :: rest) pre percs w =
  match nth_error (_consumer_oa_states (obj w)) i with
  | None => (w, Raise IndexError)
  | Some d =>
      match _update_oa_state wall cfg load (max_individual_load cfg) dt
              (mkWorld (calls w) d) with
      | (w1, Raise e) =>
          (mkWorld (calls w1) (set_consumer i (obj w1) (obj w)), Raise e)
      | (w1, Ok f) =>
          consumer_loop wall cfg dt (S i) rest
            (pre ++ [py_min load (max_individual_load cfg * f)])
            (percs ++ [py_round2 (oa (obj w1))])
            (mkWorld (calls w1) (set_consumer i (obj w1) (obj w)))
      end
  end.
Proof.
  simpl. unfold bind at 1. unfold on_consumer.
  destruct (nth_error _ i) as [d|]; [|reflexivity].
  destruct (_update_oa_state _ _ _ _ _ _) as [w1 [f|e]]; reflexivity.
Qed.

Lemma consumer_loop_effect (cfg : Config) (dt : Q) (loads : list Q) :
  forall (i : nat) (pre percs : list Q) (w : World PowerManagement),
    let w' := fst (consumer_loop wall cfg dt i loads pre percs w) in
    frame_eq (obj w) (obj w')
    /\ (calls w <= calls w')%nat
    /\ unit_effect wall cfg dt loads i (_consumer_oa_states (obj w))
         (_consumer_oa_states (obj w')).
Proof.
  induction loads as [|load rest IH]; intros i pre percs w; cbv zeta.
  - simpl. unfold frame_eq, unit_effect. repeat split; auto.
    intros j d H. exists d. auto.
  - rewrite consumer_loop_cons.
    destruct (nth_error (_consumer_oa_states (obj w)) i) as [d0|] eqn:Ei.
    2:{ simpl. unfold frame_eq, unit_effect. repeat split; auto.
        intros j d H. exists d. auto. }
    pose proof (update_calls wall cfg load (max_individual_load cfg) dt
                  (mkWorld (calls w) d0)) as Hc.
    assert (Hone : forall j d,
      nth_error (_consumer_oa_states (obj w)) j = Some d ->
      exists d', nth_error (list_update i
                   (oa_next wall cfg load (max_individual_load cfg) dt (calls w) d0)
                   (_consumer_oa_states (obj w))) j = Some d' /\
        ((j <> i /\ d' = d) \/
         (j = i /\ d' = oa_next wall cfg load (max_individual_load cfg) dt (calls w) d))).
    { intros j d H. destruct (Nat.eq_dec j i) as [->|Hne].
      - rewrite Ei in H. inversion H; subst d0.
        eexists. split; [eapply nth_error_list_update_eq; eassumption|]. auto.
      - exists d. rewrite nth_error_list_update_neq by congruence. auto. }
    unfold oa_next in Hone.
    destruct (_update_oa_state _ _ _ _ _ _) as [w1 [f|e]] eqn:Eu; simpl in Hc, Hone.
    + specialize (IH (S i) (pre ++ [py_min load (max_individual_load cfg * f)])
                     (percs ++ [py_round2 (oa (obj w1))])
                     (mkWorld (calls w1) (set_consumer i (obj w1) (obj w)))).
      cbv zeta in IH. destruct IH as [[F1 [F2 F3]] [C U]].
      simpl in F1, F2, F3, C, U.
      split; [|split].
      * unfold frame_eq. rewrite F1, F2, F3. auto.
      * lia.
      * destruct U as [Ulen U]. split.
        { rewrite Ulen. apply list_update_length. }
        intros j d H. destruct (Hone j d H) as [d1 [H1 Hd1]].
        destruct (U j d1 H1) as [d' [H' Hd']].
        exists d'. split; [assumption|].
        destruct Hd1 as [[Hne ->]|[-> ->]].
        { destruct Hd' as [->|[ld [n [Hle [Hnth ->]]]]]; [now left|].
          right. exists ld, n. split; [lia|]. split; [|reflexivity].
          replace (j - i)%nat with (S (j - S i)) by lia. exact Hnth. }
        { destruct Hd' as [->|[ld [n [Hle _]]]]; [|lia].
          right. exists load, (calls w). split; [lia|].
          rewrite Nat.sub_diag. split; [reflexivity|].
          unfold oa_next. rewrite Ei in H. inversion H; subst d0.
          rewrite Eu. reflexivity. }
    + simpl. split; [|split].
      * unfold frame_eq. auto.
      * lia.
      * split; [apply list_update_length|].
        intros j d H. destruct (Hone j d H) as [d1 [H1 Hd1]].
        exists d1. split; [assumption|].
        destruct Hd1 as [[Hne ->]|[-> ->]]; [now left|].
        right. exists load, (calls w). split; [lia|].
        rewrite Nat.sub_diag. split; [reflexivity|].
        unfold oa_next. rewrite Ei in H. inversion H; subst d0.
        rewrite Eu. reflexivity.
Qed.

(** The effect of a whole tick on the engine, whatever its outcome: the
    configuration is kept, the time stamp is the clock reading taken first,
    the combined dictionary is untouched or updated once with the combined
    load, and each unit dictionary is untouched or updated once with the
    load of its unit. *)
Lemma tick_effect (L_c : Q) (L_u : list Q) (w : World PowerManagement) :
  let w' := fst (run_distribution wall L_c L_u w) in
  let cfg := _config (obj w) in
  let dt := tick_minutes (wall (calls w)) (obj w) in
  _config (obj w') = cfg
  /\ _last_update_time (obj w') = wall (calls w)
  /\ (calls w < calls w')%nat
  /\ (combined_dict (obj w') = combined_dict (obj w) \/
      combined_dict (obj w')
      = oa_next wall cfg L_c (max_combined_load cfg) dt (S (calls w))
          (combined_dict (obj w)))
  /\ unit_effect wall cfg dt L_u 0 (_consumer_oa_states (obj w))
       (_consumer_oa_states (obj w')).
Proof.
  cbv zeta. rewrite run_distribution_world, run_distribution_locals_eq. cbv zeta.
  pose proof (update_calls wall (_config (obj w)) L_c
                (max_combined_load (_config (obj w)))
                (tick_minutes (wall (calls w)) (obj w))
                (mkWorld (S (calls w)) (combined_dict (obj w)))) as Hc.
  unfold oa_next.
  destruct (_update_oa_state _ _ _ _ _ _) as [wc [f_c|e]] eqn:Eu; simpl in Hc.
  - pose proof (consumer_loop_effect (_config (obj w))
                  (tick_minutes (wall (calls w)) (obj w)) L_u 0 [] []
                  (mkWorld (calls wc)
                     (set_combined (obj wc)
                        (set_last_update_time (wall (calls w)) (obj w))))) as He.
    cbv zeta in He. destruct He as [[F1 [F2 F3]] [C U]].
    simpl in F1, F2, F3, C, U.
    assert (Hw : forall r : World PowerManagement * outcome Locals,
       fst r = fst (consumer_loop wall (_config (obj w))
                  (tick_minutes (wall (calls w)) (obj w)) 0 L_u [] []
                  (mkWorld (calls wc)
                     (set_combined (obj wc)
                        (set_last_update_time (wall (calls w)) (obj w))))) ->
       _config (obj (fst r)) = _config (obj w)
       /\ _last_update_time (obj (fst r)) = wall (calls w)
       /\ (calls w < calls (fst r))%nat
       /\ (combined_dict (obj (fst r)) = combined_dict (obj w) \/
           combined_dict (obj (fst r)) = obj wc)
       /\ unit_effect wall (_config (obj w)) (tick_minutes (wall (calls w)) (obj w))
            L_u 0 (_consumer_oa_states (obj w)) (_consumer_oa_states (obj (fst r)))).
    { intros r ->. rewrite F1, F2, F3. repeat split; try assumption; try lia.
      - right. destruct (obj wc); reflexivity.
      - apply U.
      - apply U. }
    destruct (consumer_loop _ _ _ _ _ _ _ _) as [w2 [lp|e]]; simpl in Hw.
    + destruct (proportional_distribution _ _); apply (Hw (w2, Raise IndexError));
        reflexivity.
    + apply (Hw (w2, Raise e)). reflexivity.
  - simpl. repeat split; try lia; auto.
    intros j d H. exists d. auto.
Qed.

End Tick.

(* ================================================================= *)
(** ** Reachable engine states *)

Section Reachability.

Variable wall : nat -> datetime.
Variable config : Config.

Lemma unit_effect_Forall (P : OAState -> Prop) (cfg : Config) (dt : Q)
    (loads : list Q) (i : nat) (l l' : list OAState) :
  (forall load n d, P d -> P (oa_next wall cfg load (max_individual_load cfg) dt n d)) ->
  unit_effect wall cfg dt loads i l l' -> Forall P l -> Forall P l'.
Proof.
  intros HP [Hlen Hu] Hl. rewrite Forall_forall in *. intros d' Hin.
  apply In_nth_error in Hin. destruct Hin as [j Hj].
  assert (Hlt : (j < List.length l)%nat).
  { rewrite <- Hlen. apply nth_error_Some. congruence. }
  destruct (nth_error l j) as [d|] eqn:Ed.
  2:{ apply nth_error_None in Ed. lia. }
  destruct (Hu j d Ed) as [d'' [Hj' Hd]].
  rewrite Hj in Hj'. inversion Hj'; subst d''.
  assert (Pd : P d) by (apply Hl; eapply nth_error_In; eassumption).
  destruct Hd as [->|[load [n [_ [_ ->]]]]]; auto.
Qed.

(** A property of one dictionary that every update keeps is kept by the
    tick for all five dictionaries. *)
Lemma tick_keeps (P : OAState -> Prop) (L_c : Q) (L_u : list Q)
    (w : World PowerManagement) :
  let w' := fst (run_distribution wall L_c L_u w) in
  let dt := tick_minutes (wall (calls w)) (obj w) in
  (forall load ref n d, P d -> P (oa_next wall (_config (obj w)) load ref dt n d)) ->
  P (combined_dict (obj w)) -> Forall P (_consumer_oa_states (obj w)) ->
  P (combined_dict (obj w')) /\ Forall P (_consumer_oa_states (obj w')).
Proof.
  cbv zeta. intros HP Hc Hu.
  destruct (tick_effect wall L_c L_u w) as [_ [_ [_ [Ec Eu]]]].
  split.
  - destruct Ec as [->| ->]; auto.
  - eapply unit_effect_Forall; [|exact Eu|exact Hu]. intros; apply HP; assumption.
Qed.

Lemma elapsed_nonneg (now : datetime) (self : PowerManagement) :
  (_last_update_time self <= now)%Z -> 0 <= tick_minutes now self.
Proof.
  intro H. unfold tick_minutes, total_seconds, datetime_sub.
  assert (0 <= inject_Z (now - _last_update_time self)).
  { change 0 with (inject_Z 0). rewrite <- Zle_Qle. lia. }
  apply Qle_shift_div_l; [lra|]. apply Qle_shift_div_l; lra.
Qed.

Lemma reachable_wf (w : World PowerManagement) :
  reachable wall config w -> engine_wf wall config w.
Proof.
  induction 1 as [n w self H|w H IH|w L_c L_u H IH].
  - unfold __init__, bind, datetime_now, ret in H. simpl in H.
    inversion H; subst; clear H. unfold engine_wf. simpl.
    assert (W : oa_wf (mkOA 100 None 1 None)).
    { unfold oa_wf. simpl. split; [lra|congruence]. }
    split; [reflexivity|]. split; [reflexivity|]. split; [exact W|].
    split; [repeat (constructor; [exact W|]); constructor|].
    exists n. auto.
  - destruct IH as [H1 [H2 [H3 [H4 [k [Hk H5]]]]]].
    unfold engine_wf. simpl. repeat split; try apply H3; auto.
    exists k. split; [lia|assumption].
  - destruct IH as [H1 [H2 [H3 [H4 [k [Hk H5]]]]]].
    destruct (tick_effect wall L_c L_u w) as [E1 [E2 [E3 [_ [Elen _]]]]].
    destruct (tick_keeps oa_wf L_c L_u w) as [K1 K2]; auto.
    { intros. apply update_keeps_wf. assumption. }
    unfold engine_wf. repeat split; try apply K1; auto.
    + congruence.
    + congruence.
    + exists (calls w). auto.
Qed.

Lemma reachable_in_range (w : World PowerManagement) :
  monotone_clock wall -> reachable wall config w -> engine_in_range w.
Proof.
  intros Hmono. induction 1 as [n w self H|w H IH|w L_c L_u H IH].
  - unfold __init__, bind, datetime_now, ret in H. simpl in H.
    inversion H; subst; clear H. unfold engine_in_range. simpl.
    assert (W : oa_in_range (mkOA 100 None 1 None)).
    { unfold oa_in_range. simpl. lra. }
    split; [exact W|]. repeat (constructor; [exact W|]); constructor.
  - exact IH.
  - destruct IH as [H1 H2].
    destruct (reachable_wf w H) as [_ [_ [_ [_ [k [Hk Hlast]]]]]].
    apply (tick_keeps oa_in_range L_c L_u w); auto.
    intros. apply update_keeps_range; [|assumption].
    apply elapsed_nonneg. rewrite Hlast. apply Hmono. lia.
Qed.

End Reachability.

(* ================================================================= *)
(** ** The example clock and the initial state *)

Lemma second_clock_monotone : monotone_clock second_clock.
Proof. intros i j H. unfold second_clock. lia. Qed.

Lemma boot_reachable (wall : nat -> datetime) (config : Config) (n : nat) :
  reachable wall config (boot wall config n).
Proof.
  apply (reach_init wall config n (mkWorld (S n) tt)). reflexivity.
Qed.

(* ================================================================= *)
(** ** C1: the unguarded division by the ramp duration *)

(** C1. With both ramp durations configured as 0, the first tick that
    exhausts the combined buffer (20 A on a 16 A circuit, two minutes after
    construction) divides by the captured ramp duration 0 and raises
    [ZeroDivisionError]; the time stamp of the engine has been advanced, the
    combined attributes have not been written back. *)
Theorem run_distribution_zero_ramp_raises :
  let w := boot two_minute_clock zero_ramp_config 0 in
  let r := run_distribution two_minute_clock 20 [4; 4; 4; 4] w in
  snd r = Raise ZeroDivisionError
  /\ _last_update_time (obj (fst r)) = 120000000%Z
  /\ combined_dict (obj (fst r)) = combined_dict (obj w).
Proof.
  vm_compute. auto.
Qed.

(* ================================================================= *)
(** ** C1, continued: with positive ramp durations the tick returns *)

Lemma interpolate_positive (x x1 y1 x2 y2 v : Q) :
  x1 < x2 -> 0 < y1 -> 0 < y2 ->
  _interpolate_value x x1 y1 x2 y2 = Ok v -> 0 < v.
Proof.
  intros Hx H1 H2 E.
  destruct (Qlt_le_dec y1 y2) as [H|H].
  - destruct (interpolate_between x x1 y1 x2 y2 y1 y2 v Hx) as [L _];
      try assumption; lra.
  - destruct (interpolate_between x x1 y1 x2 y2 y2 y1 v Hx) as [L _];
      try assumption; lra.
Qed.

Lemma proportional_distribution_returns (capacity : Q) (requests : list Q) :
  exists final, proportional_distribution capacity requests = Ok final.
Proof.
  unfold proportional_distribution. cbv zeta. cmp_cases; eauto.
  rewrite py_div_ok by lra. simpl. eauto.
Qed.

Section PositiveRamps.

Variable wall : nat -> datetime.
Variable self : Config.
Hypothesis ramp_5_positive : 0 < _ramp_5 self.
Hypothesis ramp_20_positive : 0 < _ramp_20 self.

Lemma oa_timing_ramp_positive (r T_delay T_ramp : Q) :
  _calculate_oa_timing self r = Ok (T_delay, T_ramp) -> 0 < T_ramp.
Proof.
  intro E. destruct (oa_timing_returns self r) as [a [b [E' [_ Hb]]]].
  rewrite E in E'. inversion E'; subst a b.
  apply interpolate_positive in Hb; try assumption. reflexivity.
Qed.

(** With positive ramp durations an update returns, and keeps recorded
    durations positive. *)
Lemma update_returns (load ref dt : Q) (n : nat) (d : OAState) :
  ramp_dur_positive d ->
  exists d' f,
    _update_oa_state wall self load ref dt (mkWorld n d) = (mkWorld (S n) d', Ok f)
    /\ ramp_dur_positive d'.
Proof.
  intro Hd. unfold ramp_dur_positive in *.
  destruct (branch_cases load ref) as [H|[[Hr Hl]|[Hr Hl]]].
  - rewrite update_nonpositive_limit by assumption. simpl. eauto.
  - destruct (update_recovery wall self load ref dt (mkWorld n d) Hr Hl)
      as [T [rate [_ [_ E]]]].
    rewrite E. simpl. eexists. eexists. split; [reflexivity|].
    simpl. congruence.
  - destruct (update_consumption wall self load ref dt (mkWorld n d) Hr Hl)
      as [Td [Tr [rate [HT [_ E]]]]].
    pose proof (oa_timing_ramp_positive _ _ _ HT) as HTr.
    rewrite E. cbv zeta. simpl obj. simpl calls.
    destruct (Qltb 0 _).
    + eexists. eexists. split; [reflexivity|]. simpl. congruence.
    + unfold limiting_result, capture_ramp. simpl.
      destruct (ramp_start d) as [t|] eqn:Ers; simpl.
      * destruct Hd as [dur [Hdur Hpos]]; [congruence|].
        rewrite Ers, Hdur.
        assert (Ed : Qeq_bool dur 0 = false) by (apply Qeq_bool_false; lra).
        rewrite Ed.
        destruct (Qle_bool 1 _); eexists; eexists; (split; [reflexivity|]);
          simpl; rewrite Ers, Hdur; eauto.
      * assert (Ed : Qeq_bool Tr 0 = false) by (apply Qeq_bool_false; lra).
        rewrite Ed.
        destruct (Qle_bool 1 _); eexists; eexists; (split; [reflexivity|]);
          simpl; eauto.
Qed.

Lemma consumer_loop_returns (dt : Q) (loads : list Q) :
  forall (i : nat) (pre percs : list Q) (w : World PowerManagement),
    Forall ramp_dur_positive (_consumer_oa_states (obj w)) ->
    (i + List.length loads <= List.length (_consumer_oa_states (obj w)))%nat ->
    exists w' lp, consumer_loop wall self dt i loads pre percs w = (w', Ok lp).
Proof.
  induction loads as [|load rest IH]; intros i pre percs w Hpos Hlen.
  - simpl. unfold ret. eauto.
  - rewrite consumer_loop_cons. simpl in Hlen.
    destruct (nth_error (_consumer_oa_states (obj w)) i) as [d|] eqn:Ei.
    2:{ apply nth_error_None in Ei. lia. }
    assert (Pd : ramp_dur_positive d).
    { rewrite Forall_forall in Hpos. apply Hpos. eapply nth_error_In; eassumption. }
    destruct (update_returns load (max_individual_load self) dt (calls w) d Pd)
      as [d' [f [E Pd']]].
    rewrite E. apply IH; simpl.
    + apply Forall_list_update; assumption.
    + rewrite list_update_length. lia.
Qed.

End PositiveRamps.

(** With both ramp durations positive, from every reachable engine state a
    tick with at most four unit loads returns a result: no division of the
    tick has a zero divisor. *)
Theorem run_distribution_returns (wall : nat -> datetime) (config : Config)
    (L_c : Q) (L_u : list Q) (w : World PowerManagement) :
  0 < _ramp_5 config -> 0 < _ramp_20 config ->
  reachable wall config w ->
  (List.length L_u <= NUM_CONSUMERS)%nat ->
  exists w' result, run_distribution wall L_c L_u w = (w', Ok result).
Proof.
  intros H5 H20 Hr Hlen.
  assert (Hpos : engine_wf wall config w
                 /\ ramp_dur_positive (combined_dict (obj w))
                 /\ Forall ramp_dur_positive (_consumer_oa_states (obj w))).
  { split; [apply reachable_wf; exact Hr|].
    clear Hlen. induction Hr as [n w self H|w H IH|w L_c' L_u' H IH].
    - unfold __init__, bind, datetime_now, ret in H. simpl in H.
      inversion H; subst; clear H. simpl.
      assert (P : ramp_dur_positive (mkOA 100 None 1 None)).
      { unfold ramp_dur_positive. simpl. congruence. }
      split; [exact P|]. repeat (constructor; [exact P|]); constructor.
    - exact IH.
    - destruct IH as [Pc Pu].
      pose proof (reachable_wf wall config w H) as [Hcfg _].
      apply (tick_keeps wall ramp_dur_positive L_c' L_u' w); auto.
      intros load ref n d Pd. rewrite Hcfg. unfold oa_next.
      destruct (update_returns wall config H5 H20 load ref
                  (tick_minutes (wall (calls w)) (obj w)) n d Pd) as [d' [f [E Pd']]].
      rewrite E. exact Pd'. }
  destruct Hpos as [[Hcfg [Hfour _]] [Pc Pu]].
  unfold run_distribution, bind. rewrite run_distribution_locals_eq. cbv zeta.
  rewrite Hcfg.
  destruct (update_returns wall config H5 H20 L_c (max_combined_load config)
              (tick_minutes (wall (calls w)) (obj w)) (S (calls w))
              (combined_dict (obj w)) Pc) as [dc [f_c [E _]]].
  rewrite E.
  destruct (consumer_loop_returns wall config H5 H20
              (tick_minutes (wall (calls w)) (obj w)) L_u 0 [] []
              (mkWorld (calls (mkWorld (S (S (calls w))) dc))
                 (set_combined (obj (mkWorld (S (S (calls w))) dc))
                    (set_last_update_time (wall (calls w)) (obj w)))))
    as [w2 [lp El]].
  { exact Pu. }
  { simpl. rewrite Hfour. exact Hlen. }
  rewrite El.
  destruct (proportional_distribution_returns
              (py_max 0 (limit_of_factor config L_c f_c - py_max 0 (L_c - py_sum L_u)))
              (fst lp)) as [fl Ef].
  rewrite Ef. unfold get_obj, ret. eauto.
Qed.

Lemma run_distribution_returns_witness :
  exists w' result,
    run_distribution second_clock 17 [4; 4; 4; 4] (boot second_clock default_config 0)
    = (w', Ok result).
Proof.
  apply (run_distribution_returns second_clock default_config).
  - reflexivity.
  - reflexivity.
  - apply boot_reachable.
  - simpl. unfold NUM_CONSUMERS. lia.
Defined.

(* ================================================================= *)
(** ** C2: the clock is read inside the tick *)

(** C2, counterexample.  [run_distribution] has no time parameter.  From one
    and the same engine state and with the same loads, two runs that differ
    only in what the wall clock reads return different results and leave
    different engine states. *)
Lemma run_distribution_depends_on_clock :
  let w := boot second_clock default_config 0 in
  snd (run_distribution second_clock 17 [4; 4; 4; 4] w)
    <> snd (run_distribution minute_clock 17 [4; 4; 4; 4] w)
  /\ obj (fst (run_distribution second_clock 17 [4; 4; 4; 4] w))
    <> obj (fst (run_distribution minute_clock 17 [4; 4; 4; 4] w)).
Proof.
  vm_compute. split; intro H; discriminate H.
Qed.

Section ClockReadings.

Variables wall1 wall2 : nat -> datetime.

Lemma update_clock_ext (self : Config) (load ref dt : Q) (w : World OAState) :
  wall1 (calls w) = wall2 (calls w) ->
  _update_oa_state wall1 self load ref dt w = _update_oa_state wall2 self load ref dt w.
Proof.
  intro H. unfold _update_oa_state, bind, datetime_now. rewrite H. reflexivity.
Qed.

Lemma consumer_loop_clock_ext (cfg : Config) (dt : Q) (loads : list Q) :
  forall (i : nat) (pre percs : list Q) (w : World PowerManagement),
    (forall k, (calls w <= k < calls w + List.length loads)%nat -> wall1 k = wall2 k) ->
    consumer_loop wall1 cfg dt i loads pre percs w
    = consumer_loop wall2 cfg dt i loads pre percs w.
Proof.
  induction loads as [|load rest IH]; intros i pre percs w H; [reflexivity|].
  rewrite !consumer_loop_cons.
  destruct (nth_error _ i) as [d|]; [|reflexivity].
  rewrite <- (update_clock_ext cfg load (max_individual_load cfg) dt (mkWorld (calls w) d))
    by (apply H; simpl; lia).
  pose proof (update_calls wall1 cfg load (max_individual_load cfg) dt
                (mkWorld (calls w) d)) as Hc.
  destruct (_update_oa_state wall1 _ _ _ _ _) as [w1 [f|e]]; [|reflexivity].
  apply IH. simpl in *. intros k Hk. apply H. lia.
Qed.

End ClockReadings.

(** C2, amended.  The tick is a function of the engine state, the loads and
    the clock readings it takes itself: one in [run_distribution], one in the
    combined update and one per unit update.  Two runs from the same engine
    state with the same loads, under clocks that agree on these readings,
    return the same result and leave the same engine state. *)
Theorem run_distribution_clock_determined (wall1 wall2 : nat -> datetime)
    (L_c : Q) (L_u : list Q) (w : World PowerManagement) :
  (forall k, (calls w <= k < calls w + 2 + List.length L_u)%nat -> wall1 k = wall2 k) ->
  run_distribution wall1 L_c L_u w = run_distribution wall2 L_c L_u w.
Proof.
  intro H. unfold run_distribution, bind.
  rewrite !run_distribution_locals_eq. cbv zeta.
  rewrite <- (H (calls w)) by lia.
  rewrite <- (update_clock_ext wall1 wall2) by (apply H; simpl; lia).
  pose proof (update_calls wall1 (_config (obj w)) L_c
                (max_combined_load (_config (obj w)))
                (tick_minutes (wall1 (calls w)) (obj w))
                (mkWorld (S (calls w)) (combined_dict (obj w)))) as Hc.
  destruct (_update_oa_state wall1 _ _ _ _ _) as [wc [f_c|e]]; [|reflexivity].
  rewrite <- (consumer_loop_clock_ext wall1 wall2); [reflexivity|].
  simpl in *. intros k Hk. apply H. lia.
Qed.

Lemma run_distribution_clock_determined_witness :
  run_distribution second_clock 17 [4; 4; 4; 4] (boot second_clock default_config 0)
  = run_distribution second_clock_then_stuck 17 [4; 4; 4; 4]
      (boot second_clock default_config 0).
Proof.
  apply run_distribution_clock_determined.
  simpl. intros k Hk. unfold second_clock_then_stuck.
  destruct (Nat.ltb_spec k 10); [reflexivity|lia].
Defined.

(* ================================================================= *)
(** ** C3: bounds of the acceptance buffers *)

(** C3. With a clock that never runs backwards (every tick sees
    [dt >= 0]), in every reachable engine state -- the state right after
    construction, where every buffer is 100, and the state after any tick
    with any loads -- the engine holds four unit dictionaries, and the
    combined buffer and the four unit buffers all lie between 0 and 100. *)
Theorem oa_percent_bounds (wall : nat -> datetime) (config : Config)
    (w : World PowerManagement) :
  monotone_clock wall ->
  reachable wall config w ->
  0 <= _combined_oa (obj w) <= 100
  /\ List.length (_consumer_oa_states (obj w)) = 4%nat
  /\ Forall (fun d => 0 <= oa d <= 100) (_consumer_oa_states (obj w)).
Proof.
  intros Hmono Hr.
  destruct (reachable_in_range wall config w Hmono Hr) as [Hc Hu].
  destruct (reachable_wf wall config w Hr) as [_ [Hlen _]].
  split; [exact Hc|]. split; [exact Hlen|exact Hu].
Qed.

Lemma oa_percent_bounds_witness :
  let w := fst (run_distribution second_clock 17 [4; 4; 4; 4]
                  (boot second_clock default_config 0)) in
  0 <= _combined_oa (obj w) <= 100
  /\ List.length (_consumer_oa_states (obj w)) = 4%nat
  /\ Forall (fun d => 0 <= oa d <= 100) (_consumer_oa_states (obj w)).
Proof.
  apply (oa_percent_bounds second_clock default_config).
  - exact second_clock_monotone.
  - apply reach_tick. apply boot_reachable.
Defined.

(* ================================================================= *)
(** ** C4: linearity of the ramp *)

Section Ramp.

Variable wall : nat -> datetime.
Variable self : Config.
Variable reference_limit : Q.

Lemma ramp_step (t0 : datetime) (dur f0 : Q) (load dt : Q) (n : nat) (d : OAState) :
  0 < reference_limit -> 0 < dur -> ramping t0 dur f0 d ->
  reference_limit < load -> 0 <= dt ->
  exists f d',
    _update_oa_state wall self load reference_limit dt (mkWorld n d)
    = (mkWorld (S n) d', Ok f)
    /\ on_ramp t0 dur f0 (wall n) f
    /\ ramping t0 dur f0 d'.
Proof.
  intros Hr Hdur [Hoa [Hrs [Hrd Hf]]] Hl Hdt.
  destruct (update_consumption wall self load reference_limit dt (mkWorld n d) Hr Hl)
    as [Td [Tr [rate [_ [Hrate E]]]]].
  destruct (rate_per_min_returns Td) as [rate' [Hrate' [Hpos _]]].
  rewrite Hrate in Hrate'. inversion Hrate'; subst rate'. clear Hrate'.
  rewrite E. clear E. cbv zeta. simpl obj. simpl calls.
  assert (Hlev : py_max 0 (oa d - rate * dt) = 0).
  { unfold py_max. destruct (Qltb 0 _) eqn:E0; [|reflexivity].
    apply Qltb_true in E0. nra. }
  rewrite Hlev.
  replace (Qltb 0 0) with false by reflexivity.
  unfold limiting_result, capture_ramp. simpl. rewrite Hrs. simpl. rewrite Hrs, Hrd.
  assert (Ed : Qeq_bool dur 0 = false) by (apply Qeq_bool_false; lra).
  rewrite Ed. unfold on_ramp, ramping. cbv zeta.
  set (p := minutes_between (wall n) t0 / dur).
  unfold py_min. destruct (Qltb p 1) eqn:Ep.
  - apply Qltb_true in Ep.
    assert (E1 : Qle_bool 1 p = false) by (apply Qle_bool_false; lra).
    rewrite E1. eexists. eexists. split; [reflexivity|].
    split; [|simpl; repeat split; auto; reflexivity].
    subst f0. simpl. split; intro; [reflexivity|lra].
  - apply Qltb_false in Ep.
    replace (Qle_bool 1 1) with true by reflexivity.
    eexists. eexists. split; [reflexivity|].
    split; [|simpl; repeat split; auto; reflexivity].
    split; intro; [|reflexivity].
    assert (p == 1) by lra. nra.
Qed.

(** Entering the ramp: an overloaded update that finds no recorded ramp and
    exhausts the buffer records the ramp -- start, duration and factor -- and
    returns the overload ratio itself, the value of the ramp at [p = 0]. *)
Lemma ramp_entry (load dt : Q) (n : nat) (d : OAState) (T_delay T_ramp rate : Q) :
  0 < reference_limit -> reference_limit < load ->
  ramp_start d = None ->
  _calculate_oa_timing self (load / reference_limit) = Ok (T_delay, T_ramp) ->
  rate_per_min T_delay = Ok rate ->
  oa d - rate * dt <= 0 -> 0 < T_ramp ->
  exists f d',
    _update_oa_state wall self load reference_limit dt (mkWorld n d)
    = (mkWorld (S n) d', Ok f)
    /\ f == load / reference_limit
    /\ ramping (wall n) T_ramp (load / reference_limit) d'.
Proof.
  intros Hr Hl Hrs HT Hrate Hlev HTr.
  destruct (update_consumption wall self load reference_limit dt (mkWorld n d) Hr Hl)
    as [Td [Tr [rate' [HT' [Hrate' E]]]]].
  rewrite HT in HT'. inversion HT'; subst Td Tr. clear HT'.
  rewrite Hrate in Hrate'. inversion Hrate'; subst rate'. clear Hrate'.
  rewrite E. clear E. cbv zeta. simpl obj. simpl calls.
  assert (E0 : py_max 0 (oa d - rate * dt) = 0).
  { unfold py_max. destruct (Qltb 0 _) eqn:E0; [|reflexivity].
    apply Qltb_true in E0. lra. }
  rewrite E0. replace (Qltb 0 0) with false by reflexivity.
  unfold limiting_result, capture_ramp. simpl. rewrite Hrs. simpl.
  assert (Ed : Qeq_bool T_ramp 0 = false) by (apply Qeq_bool_false; lra).
  rewrite Ed.
  set (q := minutes_between (wall n) (wall n) / T_ramp).
  assert (Hq : q == 0).
  { unfold q, minutes_between, total_seconds, datetime_sub.
    rewrite Z.sub_diag. field. lra. }
  assert (Ep : py_min 1 q = q).
  { unfold py_min. assert (Qltb q 1 = true) as -> by (apply Qltb_true; lra).
    reflexivity. }
  rewrite Ep.
  assert (E1 : Qle_bool 1 q = false) by (apply Qle_bool_false; lra).
  rewrite E1. eexists. eexists. split; [reflexivity|]. split.
  - rewrite Hq. ring.
  - unfold ramping. simpl. repeat split; reflexivity.
Qed.

End Ramp.

(** C4. Let a dictionary record a ramp entered at [t0] with captured factor
    [f0] and a positive captured duration [dur].  For as long as the load
    stays above a positive reference limit (and no tick is given a negative
    elapsed time), every update returns a factor [f] such that, with [p] the
    minutes elapsed since [t0] divided by [dur] at the update's clock
    reading: [f == f0 - (f0 - 1) * p] when [0 <= p <= 1], and [f == 1] when
    [p >= 1]. *)
Theorem ramp_linearity (wall : nat -> datetime) (self : Config) (reference_limit : Q)
    (t0 : datetime) (dur f0 : Q) (ticks : list OATick) (d : OAState) :
  0 < reference_limit -> 0 < dur -> ramping t0 dur f0 d ->
  Forall (fun t => reference_limit < tick_load t /\ 0 <= tick_dt t) ticks ->
  Forall2 (fun t r => exists f, r = Ok f /\ on_ramp t0 dur f0 (wall (tick_call t)) f)
    ticks (oa_ticks wall self reference_limit ticks d).
Proof.
  intros Hr Hdur Hd Hticks. revert d Hd.
  induction Hticks as [|t rest [Hl Hdt] _ IH]; intros d Hd; simpl.
  - constructor.
  - destruct (ramp_step wall self reference_limit t0 dur f0 (tick_load t) (tick_dt t)
                (tick_call t) d Hr Hdur Hd Hl Hdt) as [f [d' [E [Hf Hd']]]].
    rewrite E. simpl. constructor.
    + exists f. auto.
    + apply IH. exact Hd'.
Qed.

Lemma ramp_linearity_witness :
  Forall2 (fun t r => exists f, r = Ok f
             /\ on_ramp 0%Z 5 1.25 (minute_clock (tick_call t)) f)
    [mkTick 1 20 1; mkTick 3 18 2; mkTick 7 17 4]
    (oa_ticks minute_clock default_config 16
       [mkTick 1 20 1; mkTick 3 18 2; mkTick 7 17 4]
       (mkOA 0 (Some 0%Z) 1.25 (Some 5))).
Proof.
  apply ramp_linearity.
  - reflexivity.
  - reflexivity.
  - unfold ramping. simpl. repeat split; reflexivity.
  - repeat constructor; simpl; lra.
Defined.

(* ================================================================= *)
(** ** C5: proportional distribution *)

Lemma fold_left_Qplus_compat (l : list Q) (a b : Q) :
  a == b -> fold_left Qplus l a == fold_left Qplus l b.
Proof.
  revert a b. induction l as [|h t IH]; intros a b H; simpl; [exact H|].
  apply IH. rewrite H. reflexivity.
Qed.

Lemma fold_left_Qplus_scale (c : Q) (l : list Q) (a : Q) :
  fold_left Qplus (map (fun load => load * c) l) (a * c) == fold_left Qplus l a * c.
Proof.
  revert a. induction l as [|h t IH]; intro a; simpl; [reflexivity|].
  rewrite <- IH. apply fold_left_Qplus_compat. ring.
Qed.

Lemma py_sum_scale (c : Q) (l : list Q) :
  py_sum (map (fun load => load * c) l) == py_sum l * c.
Proof.
  unfold py_sum. rewrite <- fold_left_Qplus_scale.
  apply fold_left_Qplus_compat. ring.
Qed.

(** Under shortage with a positive demand the final limits are the requests
    scaled by capacity over demand. *)
Lemma proportional_distribution_shortage (capacity : Q) (requests final : list Q) :
  capacity < py_sum requests -> 0 < py_sum requests ->
  proportional_distribution capacity requests = Ok final ->
  final = map (fun load => load * (capacity / py_sum requests)) requests.
Proof.
  intros Hs Hp. unfold proportional_distribution. cbv zeta.
  assert (E1 : Qle_bool (py_sum requests) capacity = false)
    by (apply Qle_bool_false; exact Hs).
  assert (E2 : Qltb 0 (py_sum requests) = true) by (apply Qltb_true; exact Hp).
  rewrite E1, E2, py_div_ok by lra. simpl. intro H. inversion H. reflexivity.
Qed.

Section TickResults.

Variable wall : nat -> datetime.

(** A tick that returns has run the proportional distribution on the
    capacity and the requests it reports. *)
Lemma locals_distribution (L_c : Q) (L_u : list Q) (w w' : World PowerManagement)
    (l : Locals) :
  run_distribution_locals wall L_c L_u w = (w', Ok l) ->
  L_units_pre_capped_total l = py_sum (pre_capped_requests l)
  /\ proportional_distribution (X_managed_capacity l) (pre_capped_requests l)
     = Ok (final_limits l).
Proof.
  rewrite run_distribution_locals_eq. cbv zeta.
  destruct (_update_oa_state _ _ _ _ _ _) as [wc [f_c|e]]; [|discriminate].
  destruct (consumer_loop _ _ _ _ _ _ _ _) as [w2 [lp|e]]; [|discriminate].
  destruct (proportional_distribution _ _) as [fl|e] eqn:Ep; [|discriminate].
  intro H. inversion H; subst. simpl. auto.
Qed.

Lemma consumer_loop_length (cfg : Config) (dt : Q) (loads : list Q) :
  forall (i : nat) (pre percs pre' percs' : list Q) (w w' : World PowerManagement),
    consumer_loop wall cfg dt i loads pre percs w = (w', Ok (pre', percs')) ->
    List.length pre' = (List.length pre + List.length loads)%nat.
Proof.
  induction loads as [|load rest IH]; intros i pre percs pre' percs' w w'.
  - simpl. unfold ret. intro H. inversion H. lia.
  - rewrite consumer_loop_cons.
    destruct (nth_error _ i) as [d|]; [|discriminate].
    destruct (_update_oa_state _ _ _ _ _ _) as [w1 [f|e]]; [|discriminate].
    intro H. apply IH in H. rewrite length_app in H. simpl in *. lia.
Qed.

Lemma locals_requests_length (L_c : Q) (L_u : list Q) (w w' : World PowerManagement)
    (l : Locals) :
  run_distribution_locals wall L_c L_u w = (w', Ok l) ->
  List.length (pre_capped_requests l) = List.length L_u.
Proof.
  rewrite run_distribution_locals_eq. cbv zeta.
  destruct (_update_oa_state _ _ _ _ _ _) as [wc [f_c|e]]; [|discriminate].
  destruct (consumer_loop _ _ _ _ _ _ _ _) as [w2 [[pre' percs']|e]] eqn:El;
    [|discriminate].
  destruct (proportional_distribution _ _) as [fl|e]; [|discriminate].
  intro H. inversion H; subst. simpl.
  apply consumer_loop_length in El. simpl in El. exact El.
Qed.

End TickResults.

(** C5, counterexample.  Default configuration, 20 A combined, units
    drawing 4, 4, 4 and 0 A.  The first tick, two minutes after
    construction, exhausts the combined buffer and starts the ramp; at the
    second tick the ramp is complete and the combined limit is 16 A.  The
    capacity 8 is then below the demand 12; the fourth unit has a request
    of 0 and a final limit of 0, and the quotient of the two is not capacity
    over demand (in Python the division raises). *)
Lemma proportional_ratio_counterexample :
  let w1 := fst (run_distribution two_minute_clock 20 [4; 4; 4; 0]
                   (boot two_minute_clock default_config 0)) in
  reachable two_minute_clock default_config w1
  /\ exists w' l p f,
       run_distribution_locals two_minute_clock 20 [4; 4; 4; 0] w1 = (w', Ok l)
       /\ X_managed_capacity l < L_units_pre_capped_total l
       /\ 0 < L_units_pre_capped_total l
       /\ nth_error (pre_capped_requests l) 3 = Some p
       /\ nth_error (final_limits l) 3 = Some f
       /\ py_div f p = Raise ZeroDivisionError
       /\ ~ f / p == X_managed_capacity l / L_units_pre_capped_total l.
Proof.
  cbv zeta. split; [apply reach_tick, boot_reachable|].
  eexists. eexists. eexists. eexists.
  split; [vm_compute; reflexivity|].
  split; [reflexivity|]. split; [reflexivity|].
  split; [reflexivity|]. split; [reflexivity|].
  split; [reflexivity|]. intro H. vm_compute in H. discriminate H.
Qed.

(** C5, amended.  Whenever a tick returns with the managed capacity below a
    positive total demand: there is one final limit per unit, each final
    limit is the unit's request times capacity over demand, so that the
    quotient final over request is capacity over demand for every unit
    whose request is not zero, and the final limits add up to the capacity. *)
Theorem proportional_scaling (wall : nat -> datetime) (L_c : Q) (L_u : list Q)
    (w w' : World PowerManagement) (l : Locals) :
  run_distribution_locals wall L_c L_u w = (w', Ok l) ->
  X_managed_capacity l < L_units_pre_capped_total l ->
  0 < L_units_pre_capped_total l ->
  List.length (final_limits l) = List.length L_u
  /\ (forall i p, nth_error (pre_capped_requests l) i = Some p ->
        exists f, nth_error (final_limits l) i = Some f
          /\ f == p * (X_managed_capacity l / L_units_pre_capped_total l)
          /\ (~ p == 0 ->
              f / p == X_managed_capacity l / L_units_pre_capped_total l))
  /\ py_sum (final_limits l) == X_managed_capacity l.
Proof.
  intros Hrun Hs Hp.
  destruct (locals_distribution wall L_c L_u w w' l Hrun) as [Et Ed].
  pose proof (locals_requests_length wall L_c L_u w w' l Hrun) as Hlen.
  rewrite Et in *.
  apply proportional_distribution_shortage in Ed; [|assumption|assumption].
  rewrite Ed. split; [|split].
  - rewrite length_map. exact Hlen.
  - intros i p Hi. exists (p * (X_managed_capacity l / py_sum (pre_capped_requests l))).
    split; [|split].
    + rewrite nth_error_map, Hi. reflexivity.
    + reflexivity.
    + intro Hnz. field. split; [lra|exact Hnz].
  - rewrite py_sum_scale. field. lra.
Qed.

Lemma proportional_scaling_witness :
  exists w' l,
    run_distribution_locals two_minute_clock 20 [4; 4; 4; 0]
      (fst (run_distribution two_minute_clock 20 [4; 4; 4; 0]
              (boot two_minute_clock default_config 0))) = (w', Ok l)
    /\ py_sum (final_limits l) == X_managed_capacity l.
Proof.
  eexists. eexists. split; [vm_compute; reflexivity|].
  refine (proj2 (proj2 (proportional_scaling two_minute_clock 20 [4; 4; 4; 0]
                          (fst (run_distribution two_minute_clock 20 [4; 4; 4; 0]
                                  (boot two_minute_clock default_config 0)))
                          _ _ _ _ _)));
    [vm_compute; reflexivity|reflexivity|reflexivity].
Defined.

(* ================================================================= *)
(** ** C6: degenerate tuning durations *)

(** C6, counterexample.  With delay and recovery durations of 0 and a clock
    that advances one second per reading: the first tick, overloaded, takes
    the combined buffer from 100 to 100 - 100/60 and not to 0; after a second
    overloaded tick, a tick under the limit raises the buffer by 10 and not
    to 100. *)
Lemma degenerate_durations_not_instant :
  let w0 := boot second_clock degenerate_config 0 in
  let w1 := fst (run_distribution second_clock 20 [4; 4; 4; 4] w0) in
  let w2 := fst (run_distribution second_clock 20 [4; 4; 4; 4] w1) in
  let w3 := fst (run_distribution second_clock 10 [1; 1; 1; 1] w2) in
  (exists T_ramp, _calculate_oa_timing degenerate_config (20 / 16) = Ok (0.0, T_ramp))
  /\ _combined_oa (obj w1) == 100 - 100 / 60
  /\ ~ _combined_oa (obj w1) == 0
  /\ _calculate_recovery_time degenerate_config (py_max 0 (py_min 1 (10 / 16)))
     = Ok 0.0
  /\ _combined_oa (obj w3) == _combined_oa (obj w2) + 10
  /\ ~ _combined_oa (obj w3) == 100.
Proof.
  cbv zeta.
  split; [eexists; vm_compute; reflexivity|].
  split; [vm_compute; reflexivity|].
  split; [intro H; vm_compute in H; discriminate H|].
  split; [vm_compute; reflexivity|].
  split; [vm_compute; reflexivity|].
  intro H; vm_compute in H; discriminate H.
Qed.

(** C6, amended.  With a positive reference limit: under the limit, a
    recovery duration [T_recover <= 0] makes the buffer rise at 100 points
    per minute, to [min(100, oa + 100 * dt)]; over the limit, a delay
    [T_delay <= 0] makes it decay at 100 points per minute, to
    [max(0, oa - 100 * dt)]. *)
Theorem degenerate_duration_rate (wall : nat -> datetime) (self : Config)
    (load ref dt : Q) (n : nat) (d : OAState) (T_recover T_delay T_ramp : Q) :
  0 < ref ->
  _calculate_recovery_time self (py_max 0 (py_min 1 (load / ref))) = Ok T_recover ->
  _calculate_oa_timing self (load / ref) = Ok (T_delay, T_ramp) ->
  (load <= ref /\ T_recover <= 0) \/ (ref < load /\ T_delay <= 0) ->
  oa (oa_next wall self load ref dt n d) == fallback_level load ref dt d.
Proof.
  intros Hr HT HTd Hcase. unfold oa_next, fallback_level.
  destruct Hcase as [[Hl HT0]|[Hl HT0]].
  - destruct (update_recovery wall self load ref dt (mkWorld n d) Hr Hl)
      as [T' [rate [HT' [Hrate E]]]].
    rewrite HT in HT'. inversion HT'; subst T'.
    destruct (rate_per_min_returns T_recover) as [rate' [Hrate' [_ H100]]].
    rewrite Hrate in Hrate'. inversion Hrate'; subst rate'.
    rewrite E. simpl. rewrite (H100 HT0).
    apply Qle_bool_iff in Hl. rewrite Hl. reflexivity.
  - destruct (update_consumption wall self load ref dt (mkWorld n d) Hr Hl)
      as [Td' [Tr' [rate [HT' [Hrate E]]]]].
    rewrite HTd in HT'. inversion HT'; subst Td' Tr'.
    destruct (rate_per_min_returns T_delay) as [rate' [Hrate' [_ H100]]].
    rewrite Hrate in Hrate'. inversion Hrate'; subst rate'.
    rewrite E, (H100 HT0). cbv zeta. simpl obj.
    assert (El : Qle_bool load ref = false) by (apply Qle_bool_false; exact Hl).
    rewrite El.
    destruct (Qltb 0 _) eqn:E0; [reflexivity|].
    apply Qltb_false in E0.
    pose proof (py_max_ge_l 0 (oa d - 100 * dt)) as Hge.
    destruct (limiting_result_obj (wall n) (load / ref) T_ramp (S n)
                (setitem_oa (py_max 0 (oa d - 100 * dt)) d)) as [Eo|Eo];
      rewrite Eo; unfold capture_ramp; simpl;
      destruct (ramp_start d); simpl; lra.
Qed.

Lemma degenerate_duration_rate_witness :
  oa (oa_next second_clock degenerate_config 10 16 (1 # 10) 0 (mkOA 50 None 1 None))
  == fallback_level 10 16 (1 # 10) (mkOA 50 None 1 None).
Proof.
  apply (degenerate_duration_rate second_clock degenerate_config 10 16 (1 # 10) 0
           (mkOA 50 None 1 None) 0.0 0.0 10.0).
  - reflexivity.
  - vm_compute. reflexivity.
  - vm_compute. reflexivity.
  - left. split; [vm_compute; discriminate|vm_compute; discriminate].
Defined.

(* ================================================================= *)
(** ** C7: a tick with no elapsed time *)

Lemma stalled_clock_monotone : monotone_clock stalled_clock.
Proof.
  intros [|i] [|j] H; simpl; lia.
Qed.

(** C7, counterexample.  Two minutes at 20 A exhaust the combined buffer and
    start a ramp with factor 1.25.  The next tick has no elapsed time and a
    load under the limit: it clears the recorded ramp start.  The tick after
    it, again with no elapsed time and now at 24 A, records a new ramp and
    replaces the captured factor by 1.5. *)
Lemma zero_dt_changes_ramp :
  let w0 := boot stalled_clock default_config 0 in
  let w1 := fst (run_distribution stalled_clock 20 [4; 4; 4; 4] w0) in
  let w2 := fst (run_distribution stalled_clock 10 [1; 1; 1; 1] w1) in
  let w3 := fst (run_distribution stalled_clock 24 [4; 4; 4; 4] w2) in
  reachable stalled_clock default_config w1
  /\ tick_minutes (stalled_clock (calls w1)) (obj w1) == 0
  /\ _combined_ramp_start (obj w1) = Some 120000000%Z
  /\ _combined_ramp_start (obj w2) = None
  /\ reachable stalled_clock default_config w2
  /\ tick_minutes (stalled_clock (calls w2)) (obj w2) == 0
  /\ _combined_init_factor (obj w2) == 1.25
  /\ _combined_init_factor (obj w3) == 1.5
  /\ _combined_ramp_start (obj w3) = Some 120000000%Z.
Proof.
  cbv zeta.
  split; [apply reach_tick, boot_reachable|].
  split; [vm_compute; reflexivity|].
  split; [vm_compute; reflexivity|].
  split; [vm_compute; reflexivity|].
  split; [apply reach_tick, reach_tick, boot_reachable|].
  split; [vm_compute; reflexivity|].
  split; [vm_compute; reflexivity|].
  split; [vm_compute; reflexivity|].
  vm_compute; reflexivity.
Qed.

Lemma zero_dt_kept_refl (load ref : Q) (d : OAState) : zero_dt_kept load ref d d.
Proof. unfold zero_dt_kept. split; [reflexivity|auto]. Qed.

Lemma update_zero_dt (wall : nat -> datetime) (self : Config)
    (load ref dt : Q) (n : nat) (d : OAState) :
  dt == 0 -> oa_in_range d -> oa_wf d ->
  zero_dt_kept load ref d (oa_next wall self load ref dt n d).
Proof.
  intros Hdt [Hlo Hhi] [Hf Hramp]. unfold oa_next, zero_dt_kept.
  destruct (branch_cases load ref) as [H|[[Hr Hl]|[Hr Hl]]].
  - rewrite update_nonpositive_limit by assumption. simpl. split; [reflexivity|auto].
  - destruct (update_recovery wall self load ref dt (mkWorld n d) Hr Hl)
      as [T [rate [_ [_ E]]]].
    rewrite E. simpl. split.
    + unfold py_min. cmp_cases; nra.
    + intro Hne. split; [|reflexivity].
      destruct (ramp_start d) eqn:Ers; [|reflexivity].
      exfalso. apply Hne. split; [assumption|]. left. split; [congruence|assumption].
  - destruct (update_consumption wall self load ref dt (mkWorld n d) Hr Hl)
      as [Td [Tr [rate [_ [_ E]]]]].
    rewrite E. cbv zeta. simpl obj.
    assert (Hlev : py_max 0 (oa d - rate * dt) == oa d).
    { unfold py_max. cmp_cases; nra. }
    destruct (Qltb 0 _) eqn:E0.
    + apply Qltb_true in E0. simpl. split; [exact Hlev|].
      intros _. split; [|reflexivity].
      destruct (ramp_start d) eqn:Ers; [|reflexivity].
      exfalso. assert (oa d == 0) by (apply Hramp; congruence). lra.
    + apply Qltb_false in E0.
      destruct (limiting_result_obj (wall n) (load / ref) Tr (S n)
                  (setitem_oa (py_max 0 (oa d - rate * dt)) d)) as [Eo|Eo];
        rewrite Eo; unfold capture_ramp; simpl;
        destruct (ramp_start d) eqn:Ers; simpl; rewrite ?Ers;
        (split; [lra|]); intro Hne; try (split; reflexivity);
        exfalso; apply Hne; (split; [assumption|]); right;
        (split; [assumption|]); (split; [lra|assumption]).
Qed.

(** C7, amended.  With a clock that never runs backwards, from every
    reachable engine state and with any loads, a tick whose clock reading
    equals the time stamp of the previous tick (no elapsed time) keeps the
    time stamp and the level of every buffer, combined and units; and for
    each of the five dictionaries it keeps the ramp start and the captured
    factor unless that dictionary is in a ramp event for its load (a
    recorded ramp with the load at or under the limit, or no recorded ramp
    with an exhausted buffer and the load over the limit). *)
Theorem zero_dt_tick (wall : nat -> datetime) (config : Config)
    (L_c : Q) (L_u : list Q) (w : World PowerManagement) :
  monotone_clock wall ->
  reachable wall config w ->
  wall (calls w) = _last_update_time (obj w) ->
  let w' := fst (run_distribution wall L_c L_u w) in
  _last_update_time (obj w') = _last_update_time (obj w)
  /\ zero_dt_kept L_c (max_combined_load config)
       (combined_dict (obj w)) (combined_dict (obj w'))
  /\ List.length (_consumer_oa_states (obj w'))
     = List.length (_consumer_oa_states (obj w))
  /\ forall i d, nth_error (_consumer_oa_states (obj w)) i = Some d ->
       exists d', nth_error (_consumer_oa_states (obj w')) i = Some d'
         /\ oa d' == oa d
         /\ ((forall load, nth_error L_u i = Some load ->
                ~ ramp_event load (max_individual_load config) d) ->
             ramp_start d' = ramp_start d /\ init_factor d' = init_factor d).
Proof.
  intros Hmono Hr Hnow. cbv zeta.
  destruct (reachable_wf wall config w Hr) as [Hcfg [_ [Wc [Wu _]]]].
  destruct (reachable_in_range wall config w Hmono Hr) as [Rc Ru].
  destruct (tick_effect wall L_c L_u w) as [_ [Et [_ [Ec [Elen Eu]]]]].
  rewrite Hcfg in *.
  assert (Hdt : tick_minutes (wall (calls w)) (obj w) == 0).
  { unfold tick_minutes, total_seconds, datetime_sub. rewrite Hnow, Z.sub_diag.
    reflexivity. }
  split; [congruence|]. split; [|split; [exact Elen|]].
  - destruct Ec as [->| ->]; [apply zero_dt_kept_refl|].
    apply update_zero_dt; assumption.
  - intros i d Hi. destruct (Eu i d Hi) as [d' [Hi' Hd']].
    exists d'. split; [exact Hi'|].
    destruct Hd' as [->|[load [n [_ [Hload ->]]]]].
    + split; [reflexivity|auto].
    + rewrite Nat.sub_0_r in Hload.
      assert (Rd : oa_in_range d).
      { rewrite Forall_forall in Ru. apply Ru. eapply nth_error_In; eassumption. }
      assert (Wd : oa_wf d).
      { rewrite Forall_forall in Wu. apply Wu. eapply nth_error_In; eassumption. }
      destruct (update_zero_dt wall config load (max_individual_load config)
                  (tick_minutes (wall (calls w)) (obj w)) n d Hdt Rd Wd) as [K1 K2].
      split; [exact K1|]. intro Hno. apply K2. apply Hno. exact Hload.
Qed.

Lemma zero_dt_tick_witness :
  let w := fst (run_distribution stalled_clock 20 [4; 4; 4; 4]
                  (boot stalled_clock default_config 0)) in
  let w' := fst (run_distribution stalled_clock 21 [4; 4; 4; 4] w) in
  _last_update_time (obj w') = _last_update_time (obj w)
  /\ zero_dt_kept 21 (max_combined_load default_config)
       (combined_dict (obj w)) (combined_dict (obj w'))
  /\ List.length (_consumer_oa_states (obj w'))
     = List.length (_consumer_oa_states (obj w))
  /\ forall i d, nth_error (_consumer_oa_states (obj w)) i = Some d ->
       exists d', nth_error (_consumer_oa_states (obj w')) i = Some d'
         /\ oa d' == oa d
         /\ ((forall load, nth_error [4; 4; 4; 4] i = Some load ->
                ~ ramp_event load (max_individual_load default_config) d) ->
             ramp_start d' = ramp_start d /\ init_factor d' = init_factor d).
Proof.
  apply (zero_dt_tick stalled_clock default_config 21 [4; 4; 4; 4]).
  - exact stalled_clock_monotone.
  - apply reach_tick, boot_reachable.
  - vm_compute. reflexivity.
Defined.

(* ================================================================= *)
(** ** C9: the limit factor is at least one *)

Section Caps.

Variable wall : nat -> datetime.
Variable self : Config.

(** The factor returned for a unit never lowers the cap under the rated
    limit. *)
Lemma update_cap (load ref dt : Q) (w w' : World OAState) (f : Q) :
  1 <= init_factor (obj w) ->
  _update_oa_state wall self load ref dt w = (w', Ok f) ->
  1 <= f /\ ref <= ref * f.
Proof.
  intros Hf E.
  pose proof (update_factor_ge_1 wall self load ref dt w w' f Hf E) as H1.
  split; [exact H1|].
  destruct (Qlt_le_dec 0 ref) as [Hr|Hr]; [nra|].
  rewrite update_nonpositive_limit in E by assumption.
  inversion E; subst. lra.
Qed.

Lemma capped_request_intro (load f : Q) :
  1 <= f -> max_individual_load self <= max_individual_load self * f ->
  capped_request self load (py_min load (max_individual_load self * f)).
Proof.
  intros H1 H2. exists f. repeat split; auto.
  intro Hl. unfold py_min.
  assert (E : Qltb (max_individual_load self * f) load = false)
    by (apply Qltb_false; lra).
  rewrite E. reflexivity.
Qed.

Lemma consumer_loop_requests (dt : Q) (loads : list Q) :
  forall (i : nat) (pre percs pre' percs' : list Q) (w w' : World PowerManagement),
    Forall oa_wf (_consumer_oa_states (obj w)) ->
    consumer_loop wall self dt i loads pre percs w = (w', Ok (pre', percs')) ->
    exists ps, pre' = pre ++ ps /\ Forall2 (capped_request self) loads ps.
Proof.
  induction loads as [|load rest IH]; intros i pre percs pre' percs' w w' Hwf.
  - simpl. unfold ret. intro H. inversion H; subst.
    exists []. rewrite app_nil_r. split; [reflexivity|constructor].
  - rewrite consumer_loop_cons.
    destruct (nth_error _ i) as [d|] eqn:Ei; [|discriminate].
    assert (Wd : oa_wf d).
    { rewrite Forall_forall in Hwf. apply Hwf. eapply nth_error_In; eassumption. }
    pose proof (update_keeps_wf wall self load (max_individual_load self) dt
                  (calls w) d Wd) as Wd'.
    unfold oa_next in Wd'.
    destruct (_update_oa_state _ _ _ _ _ _) as [w1 [f|e]] eqn:Eu; [|discriminate].
    simpl in Wd'. intro H.
    apply IH in H.
    2:{ simpl. apply Forall_list_update; assumption. }
    destruct H as [ps [-> Hps]].
    exists (py_min load (max_individual_load self * f) :: ps).
    split; [rewrite <- app_assoc; reflexivity|].
    constructor; [|exact Hps].
    destruct (update_cap load (max_individual_load self) dt (mkWorld (calls w) d)
                w1 f (proj1 Wd) Eu) as [H1 H2].
    apply capped_request_intro; assumption.
Qed.

End Caps.

(** C9. In every reachable engine state, an update of any of the five
    dictionaries -- with any load, any reference limit of any sign and any
    elapsed time -- that returns, returns a factor of at least one.  So in a
    tick that returns, the combined factor is at least one and, for every
    unit, the request passed to the distribution is [min(load, cap)] for a
    cap [max_individual_load * f] with [f >= 1] that is not below
    [max_individual_load]; a unit whose load is at or below
    [max_individual_load] has exactly its load as request. *)
Theorem limit_factor_at_least_one (wall : nat -> datetime) (config : Config)
    (w : World PowerManagement) :
  reachable wall config w ->
  (forall (self : Config) (d : OAState) (load ref dt : Q) (n : nat)
          (w1 : World OAState) (f : Q),
      d = combined_dict (obj w) \/ In d (_consumer_oa_states (obj w)) ->
      _update_oa_state wall self load ref dt (mkWorld n d) = (w1, Ok f) ->
      1 <= f)
  /\ (forall (L_c : Q) (L_u : list Q) (w' : World PowerManagement) (l : Locals),
        run_distribution_locals wall L_c L_u w = (w', Ok l) ->
        1 <= combined_limit_factor l
        /\ Forall2 (capped_request config) L_u (pre_capped_requests l)).
Proof.
  intro Hr.
  destruct (reachable_wf wall config w Hr) as [Hcfg [_ [Wc [Wu _]]]].
  split.
  - intros self d load ref dt n w1 f Hd E.
    apply (update_factor_ge_1 wall self load ref dt (mkWorld n d) w1 f); [|exact E].
    simpl. destruct Hd as [->|Hin]; [apply Wc|].
    rewrite Forall_forall in Wu. apply (Wu d Hin).
  - intros L_c L_u w' l. rewrite run_distribution_locals_eq. cbv zeta.
    rewrite Hcfg.
    destruct (_update_oa_state _ _ _ _ _ _) as [wc [f_c|e]] eqn:Eu; [|discriminate].
    destruct (consumer_loop _ _ _ _ _ _ _ _) as [w2 [[pre' percs']|e]] eqn:El;
      [|discriminate].
    destruct (proportional_distribution _ _) as [fl|e]; [|discriminate].
    intro H. inversion H; subst. simpl. split.
    + eapply update_factor_ge_1; [|exact Eu]. exact (proj1 Wc).
    + apply consumer_loop_requests in El; [|exact Wu].
      destruct El as [ps [-> Hps]]. exact Hps.
Qed.

Lemma limit_factor_at_least_one_witness :
  let w := boot second_clock default_config 0 in
  (forall (self : Config) (d : OAState) (load ref dt : Q) (n : nat)
          (w1 : World OAState) (f : Q),
      d = combined_dict (obj w) \/ In d (_consumer_oa_states (obj w)) ->
      _update_oa_state second_clock self load ref dt (mkWorld n d) = (w1, Ok f) ->
      1 <= f)
  /\ (forall (L_c : Q) (L_u : list Q) (w' : World PowerManagement) (l : Locals),
        run_distribution_locals second_clock L_c L_u w = (w', Ok l) ->
        1 <= combined_limit_factor l
        /\ Forall2 (capped_request default_config) L_u (pre_capped_requests l)).
Proof.
  apply (limit_factor_at_least_one second_clock default_config).
  apply boot_reachable.
Defined.

(* ================================================================= *)
(** ** C8 and C10: the inputs of the controller *)

Section Controller.

Variable py_float : string -> option Q.
Variable wall : nat -> datetime.

Lemma gather_units_eq (hass_states : string -> option string) (data : Config) :
  gather_units py_float hass_states data
  = [unit_load py_float hass_states (entity_unit_1 data);
     unit_load py_float hass_states (entity_unit_2 data);
     unit_load py_float hass_states (entity_unit_3 data);
     unit_load py_float hass_states (entity_unit_4 data)].
Proof. reflexivity. Qed.

(** The controller with a combined reading [L]: the tick runs on the
    manager; its result is published when it returns, and the previous one
    stays when it raises.  The controller itself returns normally. *)
Lemma controller_runs (hass_states : string -> option string)
    (w : World HassData) (L : Q) :
  get_float_state py_float
    (hass_states (entity_combined_load (_config (manager (obj w))))) = Some L ->
  async_run_controller py_float wall hass_states w =
  match run_distribution wall L
          (gather_units py_float hass_states (_config (manager (obj w))))
          (mkWorld (calls w) (manager (obj w))) with
  | (w1, Ok results) =>
      (mkWorld (calls w1) (mkHassData (obj w1) (Some results)), Ok tt)
  | (w1, Raise _) =>
      (mkWorld (calls w1) (mkHassData (obj w1) (latest_results (obj w))), Ok tt)
  end.
Proof.
  intro H. unfold async_run_controller, bind at 1, get_obj at 1. simpl obj.
  rewrite H. unfold try_except, bind, in_manager, modify_obj.
  destruct (run_distribution _ _ _ _) as [w1 [results|e]]; reflexivity.
Qed.

Lemma controller_skips (hass_states : string -> option string) (w : World HassData) :
  get_float_state py_float
    (hass_states (entity_combined_load (_config (manager (obj w))))) = None ->
  async_run_controller py_float wall hass_states w = (w, Ok tt).
Proof.
  intro H. unfold async_run_controller, bind, get_obj. simpl obj.
  rewrite H. reflexivity.
Qed.

(** No exception leaves the controller. *)
Lemma controller_returns (hass_states : string -> option string)
    (w : World HassData) :
  snd (async_run_controller py_float wall hass_states w) = Ok tt.
Proof.
  destruct (get_float_state py_float
              (hass_states (entity_combined_load (_config (manager (obj w))))))
    as [L|] eqn:E.
  - rewrite (controller_runs hass_states w L E).
    destruct (run_distribution _ _ _ _) as [w1 [results|e]]; reflexivity.
  - rewrite (controller_skips hass_states w E). reflexivity.
Qed.

End Controller.

(** C8. At a tick of the controller: when the combined reading is
    unavailable ([get_float_state] gives [None]) the controller returns with
    the world exactly as it was -- no clock reading taken, every attribute
    of the manager and the published result untouched.  When the combined
    reading is a number, the tick runs with four unit loads, each the unit's
    own reading, or 0 for a unit whose reading is unavailable: the manager's
    time stamp becomes the clock reading of the tick, the result is
    published when the computation returns, and the previous result stays
    when it raises. *)
Theorem controller_tick_inputs (py_float : string -> option Q)
    (wall : nat -> datetime) (hass_states : string -> option string)
    (w : World HassData) :
  let data := _config (manager (obj w)) in
  let w' := fst (async_run_controller py_float wall hass_states w) in
  match get_float_state py_float (hass_states (entity_combined_load data)) with
  | None => async_run_controller py_float wall hass_states w = (w, Ok tt)
  | Some L =>
      let loads :=
        [unit_load py_float hass_states (entity_unit_1 data);
         unit_load py_float hass_states (entity_unit_2 data);
         unit_load py_float hass_states (entity_unit_3 data);
         unit_load py_float hass_states (entity_unit_4 data)] in
      let r := run_distribution wall L loads (mkWorld (calls w) (manager (obj w))) in
      snd (async_run_controller py_float wall hass_states w) = Ok tt
      /\ calls w' = calls (fst r)
      /\ manager (obj w') = obj (fst r)
      /\ _last_update_time (manager (obj w')) = wall (calls w)
      /\ latest_results (obj w')
         = match snd r with
           | Ok results => Some results
           | Raise _ => latest_results (obj w)
           end
  end.
Proof.
  cbv zeta.
  destruct (get_float_state py_float _) as [L|] eqn:E.
  - rewrite (controller_runs py_float wall hass_states w L E).
    rewrite gather_units_eq.
    pose proof (tick_effect wall L
      [unit_load py_float hass_states (entity_unit_1 (_config (manager (obj w))));
       unit_load py_float hass_states (entity_unit_2 (_config (manager (obj w))));
       unit_load py_float hass_states (entity_unit_3 (_config (manager (obj w))));
       unit_load py_float hass_states (entity_unit_4 (_config (manager (obj w))))]
      (mkWorld (calls w) (manager (obj w)))) as T.
    cbv zeta in T. destruct T as [_ [T _]]. simpl calls in T.
    destruct (run_distribution _ _ _ _) as [w1 [results|e]]; simpl in *; auto.
  - apply controller_skips. exact E.
Qed.

Lemma set_state_same (hass_states : string -> option string) (e s : string) :
  set_state hass_states e s e = Some s.
Proof. unfold set_state. rewrite String.eqb_refl. reflexivity. Qed.

(** C10. Let [s] be a state string that [float] rejects with [ValueError].
    [get_float_state] returns [None] for it, as it does for a missing state
    and for the states [unavailable] and [unknown].  When the combined entity
    reports [s] the controller returns normally with the world exactly as it
    was (the tick is skipped); when a unit entity reports [s] the load
    gathered for that unit is 0, and the controller returns normally. *)
Theorem unparseable_state_is_unavailable (py_float : string -> option Q)
    (wall : nat -> datetime) (hass_states : string -> option string)
    (w : World HassData) (s : string) (i : nat) (entity_key : Config -> string) :
  py_float s = None ->
  nth_error unit_keys i = Some entity_key ->
  let data := _config (manager (obj w)) in
  get_float_state py_float (Some s) = None
  /\ get_float_state py_float None = None
  /\ get_float_state py_float (Some STATE_UNAVAILABLE) = None
  /\ get_float_state py_float (Some STATE_UNKNOWN) = None
  /\ async_run_controller py_float wall
       (set_state hass_states (entity_combined_load data) s) w = (w, Ok tt)
  /\ nth_error (gather_units py_float (set_state hass_states (entity_key data) s) data) i
     = Some 0
  /\ snd (async_run_controller py_float wall
            (set_state hass_states (entity_key data) s) w) = Ok tt.
Proof.
  intros Hs Hkey. cbv zeta.
  assert (G : get_float_state py_float (Some s) = None).
  { unfold get_float_state. destruct (_ || _)%bool; [reflexivity|exact Hs]. }
  split; [exact G|]. split; [reflexivity|]. split; [reflexivity|].
  split; [reflexivity|]. split; [|split].
  - apply controller_skips. rewrite set_state_same. exact G.
  - unfold gather_units. rewrite nth_error_map, Hkey. simpl.
    rewrite set_state_same, G. reflexivity.
  - apply controller_returns.
Qed.

Lemma unparseable_state_is_unavailable_witness :
  let w := mkWorld 1 (mkHassData (obj (boot second_clock default_config 0)) None) in
  get_float_state sample_float (Some "n/a"%string) = None
  /\ get_float_state sample_float None = None
  /\ get_float_state sample_float (Some STATE_UNAVAILABLE) = None
  /\ get_float_state sample_float (Some STATE_UNKNOWN) = None
  /\ async_run_controller sample_float second_clock
       (set_state sample_states "sensor.combined" "n/a") w = (w, Ok tt)
  /\ nth_error (gather_units sample_float
                  (set_state sample_states "sensor.unit_3" "n/a") default_config) 2
     = Some 0
  /\ snd (async_run_controller sample_float second_clock
            (set_state sample_states "sensor.unit_3" "n/a") w) = Ok tt.
Proof.
  apply (unparseable_state_is_unavailable sample_float second_clock sample_states
           (mkWorld 1 (mkHassData (obj (boot second_clock default_config 0)) None))
           "n/a" 2 entity_unit_3).
  - reflexivity.
  - reflexivity.
Defined.

(* ================================================================= *)
(** * Further properties of the code *)

(* ================================================================= *)
(** ** The interpolator and the timing calculator *)

Lemma py_min_le_r (a b : Q) : py_min a b <= b.
Proof. unfold py_min. cmp_cases; lra. Qed.

Lemma py_max_ge_r (a b : Q) : b <= py_max a b.
Proof. unfold py_max. cmp_cases; lra. Qed.

Lemma interpolate_anchors (x x1 y1 x2 y2 v : Q) :
  x1 < x2 -> _interpolate_value x x1 y1 x2 y2 = Ok v ->
  py_min y1 y2 <= v <= py_max y1 y2
  /\ (x <= x1 -> v = y1)
  /\ (x2 <= x -> v = y2).
Proof.
  intros Hx E. split; [|split].
  - apply (interpolate_between x x1 y1 x2 y2 _ _ v Hx); [| |exact E];
      unfold py_min, py_max; cmp_cases; lra.
  - intro H. revert E. unfold _interpolate_value.
    assert (E1 : Qeq_bool x1 x2 = false) by (apply Qeq_bool_false; lra).
    apply Qle_bool_iff in H. rewrite E1, H. intro E; inversion E; reflexivity.
  - intro H. revert E. unfold _interpolate_value.
    assert (E1 : Qeq_bool x1 x2 = false) by (apply Qeq_bool_false; lra).
    assert (E2 : Qle_bool x x1 = false) by (apply Qle_bool_false; lra).
    apply Qle_bool_iff in H. rewrite E1, E2, H. intro E; inversion E; reflexivity.
Qed.

(** X1. [_interpolate_value] returns for every input: its only division is
    behind the test [x1 == x2].  With anchors in increasing order the value
    lies between the two anchor values, it is the first anchor value at and
    below [x1] and the second at and above [x2]; with equal anchors it is
    the first anchor value. *)
Theorem interpolate_value_clamped (x x1 y1 x2 y2 : Q) :
  exists v,
    _interpolate_value x x1 y1 x2 y2 = Ok v
    /\ (x1 < x2 ->
        py_min y1 y2 <= v <= py_max y1 y2
        /\ (x <= x1 -> v = y1)
        /\ (x2 <= x -> v = y2))
    /\ (x1 == x2 -> v = y1).
Proof.
  destruct (interpolate_returns x x1 y1 x2 y2) as [v E].
  exists v. split; [exact E|]. split.
  - intro Hx. apply (interpolate_anchors x x1 y1 x2 y2 v Hx E).
  - intro H. revert E. unfold _interpolate_value.
    apply Qeq_bool_iff in H. rewrite H. intro E; inversion E; reflexivity.
Qed.

Lemma clamp_cases (a b : Q) :
  (b <= 0 /\ py_max 0 (py_min a b) == 0)
  \/ (0 < b /\ b < a /\ py_max 0 (py_min a b) == b)
  \/ (0 < a /\ a <= b /\ py_max 0 (py_min a b) == a)
  \/ (a <= 0 /\ a <= b /\ py_max 0 (py_min a b) == 0).
Proof.
  unfold py_min.
  destruct (Qltb b a) eqn:F; [apply Qltb_true in F|apply Qltb_false in F];
    unfold py_max; cmp_cases.
  - right; left. repeat split; lra.
  - left. split; lra.
  - right; right; left. repeat split; lra.
  - right; right; right. repeat split; lra.
Qed.

Lemma interpolate_linear (x x1 y1 x2 y2 v : Q) :
  x1 < x2 -> _interpolate_value x x1 y1 x2 y2 = Ok v ->
  exists t, 0 <= t <= 1 /\ v == y1 + t * (y2 - y1)
            /\ t * (x2 - x1) == py_max 0 (py_min (x2 - x1) (x - x1)).
Proof.
  intros Hx. unfold _interpolate_value.
  assert (E1 : Qeq_bool x1 x2 = false) by (apply Qeq_bool_false; lra).
  rewrite E1.
  pose proof (clamp_cases (x2 - x1) (x - x1)) as C.
  destruct (Qle_bool x x1) eqn:E2;
    [apply Qle_bool_iff in E2|apply Qle_bool_false in E2].
  - intro E; inversion E; subst. exists 0. split; [lra|]. split; [ring|].
    destruct C as [[? ->]|[[? [? ->]]|[[? [? ->]]|[? [? ->]]]]]; lra.
  - destruct (Qle_bool x2 x) eqn:E3;
      [apply Qle_bool_iff in E3|apply Qle_bool_false in E3].
    + intro E; inversion E; subst. exists 1. split; [lra|]. split; [ring|].
      destruct C as [[? ->]|[[? [? ->]]|[[? [? ->]]|[? [? ->]]]]]; lra.
    + rewrite py_div_ok by lra. simpl. intro E; inversion E; subst.
      exists ((x - x1) / (x2 - x1)). split; [|split].
      * split; [apply Qle_shift_div_l; lra|apply Qle_shift_div_r; lra].
      * field. lra.
      * destruct C as [[? ->]|[[? [? ->]]|[[? [? ->]]|[? [? ->]]]]];
          try lra; field; lra.
Qed.

(** X2. Between anchors in increasing order the interpolator is monotone in
    [x]: non-decreasing when the anchor values increase, non-increasing when
    they decrease. *)
Theorem interpolate_value_monotone (x x' x1 y1 x2 y2 v v' : Q) :
  x1 < x2 -> x <= x' ->
  _interpolate_value x x1 y1 x2 y2 = Ok v ->
  _interpolate_value x' x1 y1 x2 y2 = Ok v' ->
  (y1 <= y2 -> v <= v') /\ (y2 <= y1 -> v' <= v).
Proof.
  intros Hx Hxx E E'.
  destruct (interpolate_linear x x1 y1 x2 y2 v Hx E) as [t [Ht [Hv Hp]]].
  destruct (interpolate_linear x' x1 y1 x2 y2 v' Hx E') as [t' [Ht' [Hv' Hp']]].
  assert (Htt : t <= t').
  { assert (H : t * (x2 - x1) <= t' * (x2 - x1)).
    { rewrite Hp, Hp'.
      destruct (clamp_cases (x2 - x1) (x - x1))
        as [[? ->]|[[? [? ->]]|[[? [? ->]]|[? [? ->]]]]];
      destruct (clamp_cases (x2 - x1) (x' - x1))
        as [[? ->]|[[? [? ->]]|[[? [? ->]]|[? [? ->]]]]]; lra. }
    nra. }
  rewrite Hv, Hv'. split; intro; nra.
Qed.

Lemma interpolate_value_monotone_witness :
  exists v v',
    _interpolate_value 1.08 1.05 2 1.20 10 = Ok v
    /\ _interpolate_value 1.14 1.05 2 1.20 10 = Ok v'
    /\ v <= v'.
Proof.
  destruct (interpolate_returns 1.08 1.05 2 1.20 10) as [v E].
  destruct (interpolate_returns 1.14 1.05 2 1.20 10) as [v' E'].
  exists v, v'. split; [exact E|]. split; [exact E'|].
  apply (interpolate_value_monotone 1.08 1.14 1.05 2 1.20 10 v v').
  - reflexivity.
  - vm_compute. discriminate.
  - exact E.
  - exact E'.
  - vm_compute. discriminate.
Defined.

(** X3. The timing calculator returns for every ratio.  The delay lies
    between [delay_5] and [delay_20] and the ramp duration between [ramp_5]
    and [ramp_20]; from a ratio of 1.20 on they are the 20 percent values (the
    ratio is capped), up to a ratio of 1.05 they are the 5 percent values.
    The recovery duration lies between [recover_fast] and [recover_slow], is
    [recover_fast] up to a load ratio of 0.80 and [recover_slow] from 1.00
    on. *)
Theorem timing_saturates (self : Config) (r : Q) :
  exists T_delay T_ramp T_recover,
    _calculate_oa_timing self r = Ok (T_delay, T_ramp)
    /\ _calculate_recovery_time self r = Ok T_recover
    /\ py_min (_delay_5 self) (_delay_20 self) <= T_delay
       <= py_max (_delay_5 self) (_delay_20 self)
    /\ py_min (_ramp_5 self) (_ramp_20 self) <= T_ramp
       <= py_max (_ramp_5 self) (_ramp_20 self)
    /\ py_min (_recover_fast self) (_recover_slow self) <= T_recover
       <= py_max (_recover_fast self) (_recover_slow self)
    /\ (1.20 <= r -> T_delay = _delay_20 self /\ T_ramp = _ramp_20 self)
    /\ (r <= 1.05 -> T_delay = _delay_5 self /\ T_ramp = _ramp_5 self)
    /\ (r <= 0.80 -> T_recover = _recover_fast self)
    /\ (1.00 <= r -> T_recover = _recover_slow self).
Proof.
  destruct (oa_timing_returns self r) as [Td [Tr [E [Ed Er]]]].
  destruct (recovery_time_returns self r) as [Tc Ec].
  exists Td, Tr, Tc. split; [exact E|]. split; [exact Ec|].
  assert (A : (1.05 : Q) < 1.20) by reflexivity.
  assert (B : (0.80 : Q) < 1.00) by reflexivity.
  destruct (interpolate_anchors (py_min 1.20 r) 1.05 (_delay_5 self) 1.20
              (_delay_20 self) Td A Ed) as [D1 [D2 D3]].
  destruct (interpolate_anchors (py_min 1.20 r) 1.05 (_ramp_5 self) 1.20
              (_ramp_20 self) Tr A Er) as [R1 [R2 R3]].
  destruct (interpolate_anchors r 0.80 (_recover_fast self) 1.00
              (_recover_slow self) Tc B Ec) as [C1 [C2 C3]].
  split; [exact D1|]. split; [exact R1|]. split; [exact C1|].
  split; [|split; [|split]].
  - intro H. assert (Hm : 1.20 <= py_min 1.20 r) by (apply py_min_glb; lra).
    split; [apply D3|apply R3]; exact Hm.
  - intro H. assert (Hm : py_min 1.20 r <= 1.05).
    { pose proof (py_min_le_r 1.20 r). lra. }
    split; [apply D2|apply R2]; exact Hm.
  - exact C2.
  - exact C3.
Qed.

(* ================================================================= *)
(** ** The phases of the OA state machine *)

Lemma py_min_cases (a b : Q) :
  (b < a /\ py_min a b = b) \/ (a <= b /\ py_min a b = a).
Proof.
  unfold py_min.
  destruct (Qltb b a) eqn:E; [apply Qltb_true in E|apply Qltb_false in E]; auto.
Qed.

Lemma py_max_cases (a b : Q) :
  (a < b /\ py_max a b = b) \/ (b <= a /\ py_max a b = a).
Proof.
  unfold py_max.
  destruct (Qltb a b) eqn:E; [apply Qltb_true in E|apply Qltb_false in E]; auto.
Qed.

Lemma rate_of_positive (T rate : Q) :
  rate_per_min T = Ok rate -> 0 < rate /\ (0 < T -> rate * T == 100).
Proof.
  unfold rate_per_min.
  destruct (Qltb 0 T) eqn:E; [apply Qltb_true in E|apply Qltb_false in E].
  - rewrite py_div_ok by lra. intro H; inversion H; subst. split.
    + apply Qlt_shift_div_l; lra.
    + intros _. field. lra.
  - intro H; inversion H; subst. split; [lra|]. intro; lra.
Qed.

(** The level of the buffer after an update over the limit. *)
Lemma update_consumption_oa (wall : nat -> datetime) (self : Config)
    (load ref dt : Q) (n : nat) (d : OAState) (T_delay T_ramp rate : Q) :
  0 < ref -> ref < load ->
  _calculate_oa_timing self (load / ref) = Ok (T_delay, T_ramp) ->
  rate_per_min T_delay = Ok rate ->
  oa (oa_next wall self load ref dt n d) = py_max 0 (oa d - rate * dt).
Proof.
  intros Hr Hl HT Hrate. unfold oa_next.
  destruct (update_consumption wall self load ref dt (mkWorld n d) Hr Hl)
    as [Td [Tr [rate' [HT' [Hrate' E]]]]].
  rewrite HT in HT'. inversion HT'; subst Td Tr.
  rewrite Hrate in Hrate'. inversion Hrate'; subst rate'.
  rewrite E. cbv zeta. simpl obj.
  destruct (Qltb 0 _) eqn:E0; [reflexivity|].
  assert (Z0 : py_max 0 (oa d - rate * dt) = 0).
  { revert E0. unfold py_max. destruct (Qltb 0 (oa d - rate * dt)) eqn:F;
      [|reflexivity].
    intro E0. rewrite F in E0. discriminate. }
  rewrite Z0.
  destruct (limiting_result_obj (wall n) (load / ref) T_ramp (S n) (setitem_oa 0 d))
    as [Eo|Eo]; rewrite Eo; unfold capture_ramp; simpl;
    destruct (ramp_start d); reflexivity.
Qed.

(** X4. An update at or under a positive limit, with the buffer in range and
    a non-negative elapsed time: it returns the factor 1 exactly, clears the
    ramp start, keeps the captured factor and duration, and raises the
    buffer by a positive rate times the elapsed time, capped at 100, so that
    the buffer never decreases. *)
Theorem recovery_update (wall : nat -> datetime) (self : Config)
    (load ref dt : Q) (n : nat) (d : OAState) :
  0 < ref -> load <= ref -> 0 <= dt -> oa_in_range d ->
  exists rate d',
    _update_oa_state wall self load ref dt (mkWorld n d) = (mkWorld (S n) d', Ok 1)
    /\ 0 < rate
    /\ oa d' = py_min 100 (oa d + rate * dt)
    /\ oa d <= oa d' <= 100
    /\ ramp_start d' = None
    /\ init_factor d' = init_factor d
    /\ ramp_dur d' = ramp_dur d.
Proof.
  intros Hr Hl Hdt [Hlo Hhi].
  destruct (update_recovery wall self load ref dt (mkWorld n d) Hr Hl)
    as [T [rate [_ [Hrate E]]]].
  destruct (rate_of_positive T rate Hrate) as [Hpos _].
  exists rate. eexists. rewrite E. simpl.
  assert (Hratio : load / ref <= 1) by (apply Qle_shift_div_r; lra).
  split.
  - unfold py_max. assert (F : Qltb 1 (load / ref) = false) by (apply Qltb_false; lra).
    rewrite F. reflexivity.
  - simpl. repeat split; try assumption; try reflexivity.
    + destruct (py_min_cases 100 (oa d + rate * dt)) as [[? ->]|[? ->]]; nra.
    + apply py_min_le_l.
Qed.

Lemma recovery_update_witness :
  exists rate d',
    _update_oa_state second_clock default_config 10 16 1 (mkWorld 3 (mkOA 40 (Some 5%Z) 1.25 (Some 5)))
    = (mkWorld 4 d', Ok 1)
    /\ 0 < rate
    /\ oa d' = py_min 100 (40 + rate * 1)
    /\ 40 <= oa d' <= 100
    /\ ramp_start d' = None
    /\ init_factor d' = 1.25
    /\ ramp_dur d' = Some 5.
Proof.
  apply (recovery_update second_clock default_config 10 16 1 3
           (mkOA 40 (Some 5%Z) 1.25 (Some 5))).
  - reflexivity.
  - vm_compute. discriminate.
  - vm_compute. discriminate.
  - unfold oa_in_range. simpl. lra.
Defined.

Lemma total_dt_nonneg (load : Q) (ticks : list OATick) :
  steady load ticks -> 0 <= total_dt ticks.
Proof.
  induction 1 as [|t rest [_ H] _ IH]; simpl; lra.
Qed.

(** X5. Sustained load at or under the limit.  Over any sequence of updates
    that all see the same load and non-negative elapsed times, the buffer
    ends at [min(100, oa + rate * total)], where [total] is the sum of the
    elapsed times: it does not matter how the time is cut into ticks.  The
    buffer never ends lower than it started, and it is full once the total
    reaches a positive recovery duration. *)
Theorem recovery_sequence (wall : nat -> datetime) (self : Config)
    (load ref T rate : Q) (ticks : list OATick) (d : OAState) :
  0 < ref -> load <= ref ->
  _calculate_recovery_time self (py_max 0 (py_min 1 (load / ref))) = Ok T ->
  rate_per_min T = Ok rate ->
  steady load ticks ->
  0 <= oa d <= 100 ->
  oa (oa_after wall self ref ticks d) == py_min 100 (oa d + rate * total_dt ticks)
  /\ oa d <= oa (oa_after wall self ref ticks d)
  /\ (0 < T -> T <= total_dt ticks -> oa (oa_after wall self ref ticks d) == 100).
Proof.
  intros Hr Hl HT Hrate Hst Hd.
  destruct (rate_of_positive T rate Hrate) as [Hpos HrT].
  assert (Main : oa (oa_after wall self ref ticks d)
                 == py_min 100 (oa d + rate * total_dt ticks)).
  { revert d Hd. induction Hst as [|t rest [Hload Hdt] Hrest IH]; intros d Hd; simpl.
    - destruct (py_min_cases 100 (oa d + rate * 0)) as [[? ->]|[? ->]]; lra.
    - pose proof (total_dt_nonneg load rest Hrest) as Hs.
      set (d1 := oa_next wall self (tick_load t) ref (tick_dt t) (tick_call t) d).
      assert (E1 : oa d1 = py_min 100 (oa d + rate * tick_dt t)).
      { unfold d1, oa_next. rewrite Hload.
        destruct (update_recovery wall self load ref (tick_dt t)
                    (mkWorld (tick_call t) d) Hr Hl) as [T' [rate' [HT' [Hrate' E]]]].
        rewrite HT in HT'. inversion HT'; subst T'.
        rewrite Hrate in Hrate'. inversion Hrate'; subst rate'.
        rewrite E. reflexivity. }
      assert (R1 : 0 <= oa d1 <= 100).
      { rewrite E1.
        destruct (py_min_cases 100 (oa d + rate * tick_dt t)) as [[? ->]|[? ->]]; nra. }
      rewrite (IH d1 R1).
      destruct (py_min_cases 100 (oa d1 + rate * total_dt rest)) as [[? ->]|[? ->]];
        destruct (py_min_cases 100 (oa d + rate * (tick_dt t + total_dt rest)))
          as [[? ->]|[? ->]];
        revert H H0; rewrite E1;
        destruct (py_min_cases 100 (oa d + rate * tick_dt t)) as [[? ->]|[? ->]];
        intros; nra. }
  pose proof (total_dt_nonneg load ticks Hst) as Hs.
  split; [exact Main|]. split.
  - rewrite Main.
    destruct (py_min_cases 100 (oa d + rate * total_dt ticks)) as [[? ->]|[? ->]]; nra.
  - intros HTpos Htot. rewrite Main. specialize (HrT HTpos).
    destruct (py_min_cases 100 (oa d + rate * total_dt ticks)) as [[? ->]|[? ->]];
      [|reflexivity].
    nra.
Qed.

Lemma recovery_sequence_witness :
  oa (oa_after second_clock default_config 16
        [mkTick 1 8 15; mkTick 2 8 5] (mkOA 0 None 1 None)) == 100.
Proof.
  refine (proj2 (proj2 (recovery_sequence second_clock default_config 8 16 20.0
                          (100 / 20.0) [mkTick 1 8 15; mkTick 2 8 5]
                          (mkOA 0 None 1 None) _ _ _ _ _ _)) _ _).
  - reflexivity.
  - vm_compute. discriminate.
  - vm_compute. reflexivity.
  - vm_compute. reflexivity.
  - repeat constructor; simpl; lra.
  - simpl. lra.
  - reflexivity.
  - vm_compute. discriminate.
Defined.

(** X6. Sustained load over the limit.  Over any sequence of updates that
    all see the same load and non-negative elapsed times, whatever their
    outcomes, the buffer ends at [max(0, oa - rate * total)]: it never ends
    higher than it started, and it is exhausted once the total reaches a
    positive delay. *)
Theorem overload_sequence (wall : nat -> datetime) (self : Config)
    (load ref T_delay T_ramp rate : Q) (ticks : list OATick) (d : OAState) :
  0 < ref -> ref < load ->
  _calculate_oa_timing self (load / ref) = Ok (T_delay, T_ramp) ->
  rate_per_min T_delay = Ok rate ->
  steady load ticks ->
  0 <= oa d <= 100 ->
  oa (oa_after wall self ref ticks d) == py_max 0 (oa d - rate * total_dt ticks)
  /\ oa (oa_after wall self ref ticks d) <= oa d
  /\ (0 < T_delay -> T_delay <= total_dt ticks ->
      oa (oa_after wall self ref ticks d) == 0).
Proof.
  intros Hr Hl HT Hrate Hst Hd.
  destruct (rate_of_positive T_delay rate Hrate) as [Hpos HrT].
  assert (Main : oa (oa_after wall self ref ticks d)
                 == py_max 0 (oa d - rate * total_dt ticks)).
  { revert d Hd. induction Hst as [|t rest [Hload Hdt] Hrest IH]; intros d Hd; simpl.
    - destruct (py_max_cases 0 (oa d - rate * 0)) as [[? ->]|[? ->]]; lra.
    - pose proof (total_dt_nonneg load rest Hrest) as Hs.
      set (d1 := oa_next wall self (tick_load t) ref (tick_dt t) (tick_call t) d).
      assert (E1 : oa d1 = py_max 0 (oa d - rate * tick_dt t)).
      { unfold d1. rewrite Hload.
        apply (update_consumption_oa wall self load ref (tick_dt t) (tick_call t) d
                 T_delay T_ramp rate); assumption. }
      assert (R1 : 0 <= oa d1 <= 100).
      { rewrite E1.
        destruct (py_max_cases 0 (oa d - rate * tick_dt t)) as [[? ->]|[? ->]]; nra. }
      rewrite (IH d1 R1).
      destruct (py_max_cases 0 (oa d1 - rate * total_dt rest)) as [[? ->]|[? ->]];
        destruct (py_max_cases 0 (oa d - rate * (tick_dt t + total_dt rest)))
          as [[? ->]|[? ->]];
        revert H H0; rewrite E1;
        destruct (py_max_cases 0 (oa d - rate * tick_dt t)) as [[? ->]|[? ->]];
        intros; nra. }
  pose proof (total_dt_nonneg load ticks Hst) as Hs.
  split; [exact Main|]. split.
  - rewrite Main.
    destruct (py_max_cases 0 (oa d - rate * total_dt ticks)) as [[? ->]|[? ->]]; nra.
  - intros HTpos Htot. rewrite Main. specialize (HrT HTpos).
    destruct (py_max_cases 0 (oa d - rate * total_dt ticks)) as [[? ->]|[? ->]];
      [|reflexivity].
    nra.
Qed.

Lemma overload_sequence_witness :
  oa (oa_after second_clock default_config 16
        [mkTick 1 20 1; mkTick 2 20 (1 # 2); mkTick 3 20 (1 # 2)]
        (mkOA 100 None 1 None)) == 0.
Proof.
  refine (proj2 (proj2 (overload_sequence second_clock default_config 20 16 2.0 5.0
                          (100 / 2.0)
                          [mkTick 1 20 1; mkTick 2 20 (1 # 2); mkTick 3 20 (1 # 2)]
                          (mkOA 100 None 1 None) _ _ _ _ _ _)) _ _).
  - reflexivity.
  - reflexivity.
  - vm_compute. reflexivity.
  - vm_compute. reflexivity.
  - repeat constructor; simpl; lra.
  - simpl. lra.
  - reflexivity.
  - vm_compute. discriminate.
Defined.

(** X7. Accepted overload.  An update over a positive limit that leaves the
    buffer above zero returns exactly the overload ratio, records no ramp and
    keeps the captured factor; the cap [limit * factor] it implies does not
    restrict the load. *)
Theorem accepted_overload_unrestricted (wall : nat -> datetime) (self : Config)
    (load ref dt : Q) (n : nat) (d : OAState) (T_delay T_ramp rate : Q) :
  0 < ref -> ref < load ->
  _calculate_oa_timing self (load / ref) = Ok (T_delay, T_ramp) ->
  rate_per_min T_delay = Ok rate ->
  0 < oa d - rate * dt ->
  _update_oa_state wall self load ref dt (mkWorld n d)
  = (mkWorld (S n) (mkOA (oa d - rate * dt) None (init_factor d) (ramp_dur d)),
     Ok (load / ref))
  /\ py_min load (ref * (load / ref)) = load.
Proof.
  intros Hr Hl HT Hrate Hlev.
  destruct (update_consumption wall self load ref dt (mkWorld n d) Hr Hl)
    as [Td [Tr [rate' [HT' [Hrate' E]]]]].
  rewrite HT in HT'. inversion HT'; subst Td Tr.
  rewrite Hrate in Hrate'. inversion Hrate'; subst rate'.
  split.
  - rewrite E. cbv zeta. simpl obj. simpl calls.
    destruct (py_max_cases 0 (oa d - rate * dt)) as [[_ ->]|[? _]]; [|lra].
    apply Qltb_true in Hlev. rewrite Hlev. reflexivity.
  - unfold py_min.
    assert (F : Qltb (ref * (load / ref)) load = false).
    { apply Qltb_false. assert (ref * (load / ref) == load) by (field; lra). lra. }
    rewrite F. reflexivity.
Qed.

Lemma accepted_overload_unrestricted_witness :
  _update_oa_state second_clock default_config 20 16 1 (mkWorld 1 (mkOA 100 None 1 None))
  = (mkWorld 2 (mkOA (100 - 100 / 2.0 * 1) None 1 None), Ok (20 / 16))
  /\ py_min 20 (16 * (20 / 16)) = 20.
Proof.
  apply (accepted_overload_unrestricted second_clock default_config 20 16 1 1
           (mkOA 100 None 1 None) 2.0 5.0 (100 / 2.0)).
  - reflexivity.
  - reflexivity.
  - vm_compute. reflexivity.
  - vm_compute. reflexivity.
  - vm_compute. reflexivity.
Defined.

(** X8. The ramp is fixed when it is entered.  Let an update over a positive
    limit find no recorded ramp and exhaust the buffer, with a positive ramp
    duration [T_ramp] for its overload ratio.  It returns that ratio (the
    limit is not reduced yet) and records the ramp.  The next update over
    the limit, whatever its load, returns the factor on the line from the
    recorded ratio down to 1 over [T_ramp] minutes from the clock reading
    of the entry: a later change of the load changes neither the slope nor
    the end of the ramp. *)
Theorem ramp_fixed_at_entry (wall : nat -> datetime) (self : Config)
    (reference_limit load dt load' dt' : Q) (n : nat) (d : OAState)
    (T_delay T_ramp rate : Q) :
  0 < reference_limit -> reference_limit < load ->
  ramp_start d = None ->
  _calculate_oa_timing self (load / reference_limit) = Ok (T_delay, T_ramp) ->
  rate_per_min T_delay = Ok rate ->
  oa d - rate * dt <= 0 -> 0 < T_ramp ->
  reference_limit < load' -> 0 <= dt' ->
  exists f d' f' d'',
    _update_oa_state wall self load reference_limit dt (mkWorld n d)
    = (mkWorld (S n) d', Ok f)
    /\ f == load / reference_limit
    /\ _update_oa_state wall self load' reference_limit dt' (mkWorld (S n) d')
       = (mkWorld (S (S n)) d'', Ok f')
    /\ on_ramp (wall n) T_ramp (load / reference_limit) (wall (S n)) f'
    /\ ramping (wall n) T_ramp (load / reference_limit) d''.
Proof.
  intros Hr Hl Hrs HT Hrate Hlev HTr Hl' Hdt'.
  destruct (ramp_entry wall self reference_limit load dt n d T_delay T_ramp rate
              Hr Hl Hrs HT Hrate Hlev HTr) as [f [d' [E [Hf Hd']]]].
  destruct (ramp_step wall self reference_limit (wall n) T_ramp
              (load / reference_limit) load' dt' (S n) d' Hr HTr Hd' Hl' Hdt')
    as [f' [d'' [E' [Hon Hd'']]]].
  exists f, d', f', d''.
  split; [exact E|]. split; [exact Hf|]. split; [exact E'|].
  split; [exact Hon|exact Hd''].
Qed.

Lemma ramp_fixed_at_entry_witness :
  exists f d' f' d'',
    _update_oa_state second_clock default_config 20 16 2 (mkWorld 1 (mkOA 100 None 1 None))
    = (mkWorld 2 d', Ok f)
    /\ f == 20 / 16
    /\ _update_oa_state second_clock default_config 18 16 1 (mkWorld 2 d')
       = (mkWorld 3 d'', Ok f')
    /\ on_ramp (second_clock 1) 5.0 (20 / 16) (second_clock 2) f'
    /\ ramping (second_clock 1) 5.0 (20 / 16) d''.
Proof.
  apply (ramp_fixed_at_entry second_clock default_config 16 20 2 18 1 1
           (mkOA 100 None 1 None) 2.0 5.0 (100 / 2.0)).
  - reflexivity.
  - reflexivity.
  - reflexivity.
  - vm_compute. reflexivity.
  - vm_compute. reflexivity.
  - vm_compute. discriminate.
  - reflexivity.
  - reflexivity.
  - vm_compute. discriminate.
Defined.

Lemma zero_ramp_update (wall : nat -> datetime) (self : Config)
    (load ref dt : Q) (n : nat) (d : OAState) (T_delay T_ramp rate : Q) :
  _ramp_5 self == 0 -> _ramp_20 self == 0 ->
  0 < ref -> ref < load ->
  _calculate_oa_timing self (load / ref) = Ok (T_delay, T_ramp) ->
  rate_per_min T_delay = Ok rate ->
  oa d - rate * dt <= 0 ->
  zero_duration_ramp d ->
  exists d',
    _update_oa_state wall self load ref dt (mkWorld n d)
    = (mkWorld (S n) d', Raise ZeroDivisionError)
    /\ oa d' = 0
    /\ ramp_start d' <> None
    /\ zero_duration_ramp d'.
Proof.
  intros H5 H20 Hr Hl HT Hrate Hlev Hz.
  destruct (update_consumption wall self load ref dt (mkWorld n d) Hr Hl)
    as [Td [Tr [rate' [HT' [Hrate' E]]]]].
  rewrite HT in HT'. inversion HT'; subst Td Tr.
  rewrite Hrate in Hrate'. inversion Hrate'; subst rate'.
  assert (HTr : T_ramp == 0).
  { destruct (oa_timing_returns self (load / ref)) as [a [b [E' [_ Hb]]]].
    rewrite HT in E'. inversion E'; subst a b.
    assert (A : (1.05 : Q) < 1.20) by reflexivity.
    destruct (interpolate_between (py_min 1.20 (load / ref)) 1.05 (_ramp_5 self)
                1.20 (_ramp_20 self) 0 0 T_ramp A) as [L U];
      try exact Hb; lra. }
  rewrite E. cbv zeta. simpl obj. simpl calls.
  destruct (py_max_cases 0 (oa d - rate * dt)) as [[? _]|[_ ->]]; [lra|].
  replace (Qltb 0 0) with false by reflexivity.
  unfold limiting_result, capture_ramp, zero_duration_ramp in *. simpl.
  destruct (ramp_start d) as [t|] eqn:Ers; simpl.
  - destruct Hz as [dur [Hdur Hd0]]. rewrite Ers, Hdur.
    apply Qeq_bool_iff in Hd0. rewrite Hd0.
    eexists. split; [reflexivity|]. simpl. rewrite Ers.
    split; [reflexivity|]. split; [discriminate|].
    exists dur. split; [assumption|]. apply Qeq_bool_iff. exact Hd0.
  - assert (F : Qeq_bool T_ramp 0 = true) by (apply Qeq_bool_iff; exact HTr).
    rewrite F. eexists. split; [reflexivity|]. simpl.
    split; [reflexivity|]. split; [discriminate|].
    exists T_ramp. split; [reflexivity|exact HTr].
Qed.

(** X9. Ramp durations of zero.  With both ramp durations zero, an update
    over a positive limit that finds the buffer exhausted after its decay,
    and either no recorded ramp or a recorded ramp of zero duration, raises
    [ZeroDivisionError].  It leaves the buffer at zero and a recorded ramp of
    zero duration: the next such update raises again, for as long as the
    load stays over the limit. *)
Theorem zero_ramp_raises (wall : nat -> datetime) (self : Config)
    (load ref dt : Q) (n : nat) (d : OAState) (T_delay T_ramp rate : Q) :
  _ramp_5 self == 0 -> _ramp_20 self == 0 ->
  0 < ref -> ref < load ->
  _calculate_oa_timing self (load / ref) = Ok (T_delay, T_ramp) ->
  rate_per_min T_delay = Ok rate ->
  oa d - rate * dt <= 0 ->
  zero_duration_ramp d ->
  exists d',
    _update_oa_state wall self load ref dt (mkWorld n d)
    = (mkWorld (S n) d', Raise ZeroDivisionError)
    /\ oa d' = 0
    /\ ramp_start d' <> None
    /\ zero_duration_ramp d'.
Proof.
  exact (zero_ramp_update wall self load ref dt n d T_delay T_ramp rate).
Qed.

Lemma zero_ramp_raises_witness :
  exists d',
    _update_oa_state second_clock zero_ramp_config 20 16 2
      (mkWorld 1 (mkOA 100 None 1 None))
    = (mkWorld 2 d', Raise ZeroDivisionError)
    /\ oa d' = 0
    /\ ramp_start d' <> None
    /\ zero_duration_ramp d'.
Proof.
  apply (zero_ramp_raises second_clock zero_ramp_config 20 16 2 1
           (mkOA 100 None 1 None) 2.0 0.0 (100 / 2.0)).
  - reflexivity.
  - reflexivity.
  - reflexivity.
  - reflexivity.
  - vm_compute. reflexivity.
  - vm_compute. reflexivity.
  - vm_compute. discriminate.
  - exact I.
Defined.

(* ================================================================= *)
(** ** The distribution step *)

Lemma py_sum_le_from (l l' : list Q) :
  Forall2 Qle l l' -> forall a b, a <= b -> fold_left Qplus l a <= fold_left Qplus l' b.
Proof.
  induction 1 as [|x y t t' Hxy _ IH]; intros a b Hab; simpl; [exact Hab|].
  apply IH. lra.
Qed.

Lemma py_sum_le (l l' : list Q) : Forall2 Qle l l' -> py_sum l <= py_sum l'.
Proof.
  intro H. unfold py_sum. apply py_sum_le_from; [exact H|lra].
Qed.

Lemma Forall2_weaken {A B : Type} (R R' : A -> B -> Prop) (l : list A) (l' : list B) :
  (forall a b, R a b -> R' a b) -> Forall2 R l l' -> Forall2 R' l l'.
Proof.
  intros H. induction 1; constructor; auto.
Qed.

(** The locals of a tick that returns, stage by stage. *)
Lemma locals_inv (wall : nat -> datetime) (L_c : Q) (L_u : list Q)
    (w w' : World PowerManagement) (l : Locals) :
  run_distribution_locals wall L_c L_u w = (w', Ok l) ->
  let cfg := _config (obj w) in
  let dt := tick_minutes (wall (calls w)) (obj w) in
  exists wc,
    _update_oa_state wall cfg L_c (max_combined_load cfg) dt
      (mkWorld (S (calls w)) (combined_dict (obj w)))
    = (wc, Ok (combined_limit_factor l))
    /\ consumer_loop wall cfg dt 0 L_u [] []
         (mkWorld (calls wc)
            (set_combined (obj wc) (set_last_update_time (wall (calls w)) (obj w))))
       = (w', Ok (pre_capped_requests l, individual_oa_percents_ l))
    /\ L_unmanaged_actual l = py_max 0 (L_c - py_sum L_u)
    /\ current_combined_limit l = limit_of_factor cfg L_c (combined_limit_factor l)
    /\ X_managed_capacity l
       = py_max 0 (current_combined_limit l - L_unmanaged_actual l)
    /\ L_units_pre_capped_total l = py_sum (pre_capped_requests l)
    /\ proportional_distribution (X_managed_capacity l) (pre_capped_requests l)
       = Ok (final_limits l).
Proof.
  rewrite run_distribution_locals_eq. cbv zeta.
  destruct (_update_oa_state _ _ _ _ _ _) as [wc [f_c|e]]; [|discriminate].
  destruct (consumer_loop _ _ _ _ _ _ _ _) as [w2 [[pre' percs']|e]] eqn:El;
    [|discriminate].
  destruct (proportional_distribution _ _) as [fl|e] eqn:Ep; [|discriminate].
  intro H. inversion H; subst. simpl in *. exists wc. repeat split; auto.
Qed.

(** The three outcomes of the proportional distribution. *)
Lemma proportional_distribution_cases (capacity : Q) (requests final : list Q) :
  proportional_distribution capacity requests = Ok final ->
  (py_sum requests <= capacity /\ final = requests)
  \/ (capacity < py_sum requests /\ 0 < py_sum requests
      /\ final = map (fun load => load * (capacity / py_sum requests)) requests)
  \/ (capacity < py_sum requests /\ py_sum requests <= 0
      /\ final = repeat 0 NUM_CONSUMERS).
Proof.
  unfold proportional_distribution. cbv zeta.
  destruct (Qle_bool (py_sum requests) capacity) eqn:E1;
    [apply Qle_bool_iff in E1|apply Qle_bool_false in E1].
  - intro H; injection H as <-. left. split; [exact E1|reflexivity].
  - destruct (Qltb 0 (py_sum requests)) eqn:E2;
      [apply Qltb_true in E2|apply Qltb_false in E2].
    + rewrite py_div_ok by lra. simpl. intro H; injection H as <-. right; left.
      split; [exact E1|]. split; [exact E2|reflexivity].
    + intro H; injection H as <-. right; right.
      split; [exact E1|]. split; [exact E2|reflexivity].
Qed.

(** X10. In every tick that returns, from any engine state and with any
    loads: the unmanaged load and the managed capacity are not negative;
    there is one final limit per unit load; the final limits are either the
    capped requests themselves or, under shortage, the requests scaled by
    capacity over a positive demand (the all-zero default of the source is
    never the result); and the final limits never add up to more than the
    managed capacity. *)
Theorem final_limits_within_capacity (wall : nat -> datetime) (L_c : Q)
    (L_u : list Q) (w w' : World PowerManagement) (l : Locals) :
  run_distribution_locals wall L_c L_u w = (w', Ok l) ->
  0 <= L_unmanaged_actual l
  /\ 0 <= X_managed_capacity l
  /\ List.length (final_limits l) = List.length L_u
  /\ (final_limits l = pre_capped_requests l
      \/ (X_managed_capacity l < L_units_pre_capped_total l
          /\ 0 < L_units_pre_capped_total l
          /\ final_limits l
             = map (fun load =>
                      load * (X_managed_capacity l / L_units_pre_capped_total l))
                 (pre_capped_requests l)))
  /\ py_sum (final_limits l) <= X_managed_capacity l.
Proof.
  intro Hrun.
  pose proof (locals_requests_length wall L_c L_u w w' l Hrun) as Hlen.
  destruct (locals_inv wall L_c L_u w w' l Hrun)
    as [wc [_ [_ [Eu [_ [Ex [Et Ed]]]]]]].
  assert (Hu : 0 <= L_unmanaged_actual l) by (rewrite Eu; apply py_max_ge_l).
  assert (Hx : 0 <= X_managed_capacity l) by (rewrite Ex; apply py_max_ge_l).
  split; [exact Hu|]. split; [exact Hx|].
  rewrite Et.
  destruct (proportional_distribution_cases _ _ _ Ed)
    as [[H1 ->]|[[H1 [H2 ->]]|[H1 [H2 _]]]].
  - split; [exact Hlen|]. split; [now left|exact H1].
  - split; [rewrite length_map; exact Hlen|]. split; [right; auto|].
    rewrite py_sum_scale.
    assert (E : py_sum (pre_capped_requests l)
                * (X_managed_capacity l / py_sum (pre_capped_requests l))
                == X_managed_capacity l) by (field; lra).
    lra.
  - lra.
Qed.

Lemma final_limits_within_capacity_witness :
  exists w' l,
    run_distribution_locals two_minute_clock 20 [4; 4; 4; 0]
      (fst (run_distribution two_minute_clock 20 [4; 4; 4; 0]
              (boot two_minute_clock default_config 0))) = (w', Ok l)
    /\ py_sum (final_limits l) <= X_managed_capacity l.
Proof.
  eexists. eexists. split; [vm_compute; reflexivity|].
  refine (proj2 (proj2 (proj2 (proj2
            (final_limits_within_capacity two_minute_clock 20 [4; 4; 4; 0]
               (fst (run_distribution two_minute_clock 20 [4; 4; 4; 0]
                       (boot two_minute_clock default_config 0))) _ _ _)))));
    vm_compute; reflexivity.
Defined.

Lemma Forall2_map_r {A B C : Type} (R : A -> C -> Prop) (g : B -> C)
    (l : list A) (l' : list B) :
  Forall2 (fun a b => R a (g b)) l l' -> Forall2 R l (map g l').
Proof.
  induction 1; simpl; constructor; auto.
Qed.

(** X11. From a reachable engine state with a non-negative individual limit,
    in a tick that returns with unit loads that are not negative, every
    unit's final limit lies between 0 and the capped request, and the capped
    request is at most the unit's load: the engine never grants a unit more
    than it draws. *)
Theorem final_limits_below_load (wall : nat -> datetime) (config : Config)
    (L_c : Q) (L_u : list Q) (w w' : World PowerManagement) (l : Locals) :
  reachable wall config w ->
  0 <= max_individual_load config ->
  Forall (fun load => 0 <= load) L_u ->
  run_distribution_locals wall L_c L_u w = (w', Ok l) ->
  Forall2 (fun load p => 0 <= p <= load) L_u (pre_capped_requests l)
  /\ Forall2 (fun p f => 0 <= f <= p) (pre_capped_requests l) (final_limits l)
  /\ Forall2 (fun load f => 0 <= f <= load) L_u (final_limits l).
Proof.
  intros Hr HY Hloads Hrun.
  destruct (reachable_wf wall config w Hr) as [Hcfg [_ [_ [Wu _]]]].
  destruct (locals_inv wall L_c L_u w w' l Hrun)
    as [wc [_ [El [_ [_ [Ex [Et Ed]]]]]]].
  rewrite Hcfg in El.
  apply consumer_loop_requests in El; [|exact Wu].
  destruct El as [ps [Eps Hps]]. simpl in Eps. subst ps.
  assert (P1 : Forall2 (fun load p => 0 <= p <= load) L_u (pre_capped_requests l)).
  { clear - Hps Hloads HY. revert Hloads.
    induction Hps as [|load p t t' [f [Hf [_ [Hp _]]]] _ IH]; intro Hloads;
      [constructor|].
    inversion Hloads; subst. constructor; [|apply IH; assumption].
    destruct (py_min_cases load (max_individual_load config * f)) as [[? ->]|[? ->]];
      nra. }
  assert (Hx : 0 <= X_managed_capacity l) by (rewrite Ex; apply py_max_ge_l).
  assert (P2 : Forall2 (fun p f => 0 <= f <= p) (pre_capped_requests l) (final_limits l)).
  { destruct (proportional_distribution_cases _ _ _ Ed)
      as [[H1 ->]|[[H1 [H2 ->]]|[H1 [H2 _]]]]; [| |lra].
    - clear - P1. induction P1; constructor; auto. lra.
    - apply Forall2_map_r.
      set (s := X_managed_capacity l / py_sum (pre_capped_requests l)).
      assert (Hs : 0 <= s <= 1).
      { unfold s. split; [apply Qle_shift_div_l; lra|apply Qle_shift_div_r; lra]. }
      clearbody s. clear - P1 Hs. induction P1; constructor; auto. nra. }
  split; [exact P1|]. split; [exact P2|].
  clear - P1 P2. revert P2. generalize (final_limits l).
  induction P1 as [|load p t t' Hp _ IH]; intros fl P2; inversion P2; subst;
    constructor; [lra|apply IH; assumption].
Qed.

Lemma final_limits_below_load_witness :
  exists w' l,
    run_distribution_locals two_minute_clock 20 [4; 4; 4; 0]
      (fst (run_distribution two_minute_clock 20 [4; 4; 4; 0]
              (boot two_minute_clock default_config 0))) = (w', Ok l)
    /\ Forall2 (fun load f => 0 <= f <= load) [4; 4; 4; 0] (final_limits l).
Proof.
  eexists. eexists. split; [vm_compute; reflexivity|].
  refine (proj2 (proj2
            (final_limits_below_load two_minute_clock default_config 20 [4; 4; 4; 0]
               (fst (run_distribution two_minute_clock 20 [4; 4; 4; 0]
                       (boot two_minute_clock default_config 0))) _ _ _ _ _ _))).
  - apply reach_tick, boot_reachable.
  - vm_compute. discriminate.
  - repeat constructor; vm_compute; discriminate.
  - vm_compute. reflexivity.
Defined.

(** The factor of an update is one unless the load is over a positive
    limit. *)
Lemma factor_above_one (wall : nat -> datetime) (self : Config)
    (load ref dt : Q) (w w' : World OAState) (f : Q) :
  _update_oa_state wall self load ref dt w = (w', Ok f) ->
  1 < f -> 0 < ref /\ ref < load.
Proof.
  intros E Hf.
  destruct (branch_cases load ref) as [H|[[Hr Hl]|[Hr Hl]]]; [| |auto].
  - rewrite update_nonpositive_limit in E by assumption.
    inversion E; subst. lra.
  - destruct (update_recovery wall self load ref dt w Hr Hl) as [T [rate [_ [_ E']]]].
    rewrite E' in E. inversion E; subst.
    assert (load / ref <= 1) by (apply Qle_shift_div_r; lra).
    destruct (py_max_cases 1 (load / ref)) as [[? _]|[_ Hm]]; [lra|].
    rewrite Hm in Hf. lra.
Qed.

(** X12. The combined limit takes no intermediate value.  From a reachable
    engine state, in a tick that returns: either the combined factor exceeds
    one, which happens only with the combined load over a positive
    [max_combined_load], and then the combined limit is the combined load
    itself; or the factor equals one and the limit equals
    [max_combined_load].  While the ramp lowers the factor towards one, the
    combined limit stays at the actual load. *)
Theorem combined_limit_dichotomy (wall : nat -> datetime) (config : Config)
    (L_c : Q) (L_u : list Q) (w w' : World PowerManagement) (l : Locals) :
  reachable wall config w ->
  run_distribution_locals wall L_c L_u w = (w', Ok l) ->
  (1 < combined_limit_factor l
   /\ 0 < max_combined_load config /\ max_combined_load config < L_c
   /\ current_combined_limit l = L_c)
  \/ (combined_limit_factor l == 1
      /\ current_combined_limit l == max_combined_load config).
Proof.
  intros Hr Hrun.
  destruct (reachable_wf wall config w Hr) as [Hcfg [_ [Wc _]]].
  destruct (locals_inv wall L_c L_u w w' l Hrun)
    as [wc [Eu [_ [_ [Ec _]]]]].
  rewrite Hcfg in *.
  assert (Hge : 1 <= combined_limit_factor l).
  { eapply update_factor_ge_1; [|exact Eu]. exact (proj1 Wc). }
  rewrite Ec. unfold limit_of_factor.
  destruct (Qltb 1 (combined_limit_factor l)) eqn:F;
    [apply Qltb_true in F|apply Qltb_false in F].
  - left. destruct (factor_above_one _ _ _ _ _ _ _ _ Eu F). auto.
  - right. assert (E1 : combined_limit_factor l == 1) by lra.
    split; [exact E1|]. rewrite E1. ring.
Qed.

Lemma combined_limit_dichotomy_witness :
  exists w' l,
    run_distribution_locals second_clock 17 [4; 4; 4; 4]
      (boot second_clock default_config 0) = (w', Ok l)
    /\ ((1 < combined_limit_factor l
         /\ 0 < max_combined_load default_config
         /\ max_combined_load default_config < 17
         /\ current_combined_limit l = 17)
        \/ (combined_limit_factor l == 1
            /\ current_combined_limit l == max_combined_load default_config)).
Proof.
  eexists. eexists. split; [vm_compute; reflexivity|].
  refine (combined_limit_dichotomy second_clock default_config 17 [4; 4; 4; 4]
            (boot second_clock default_config 0) _ _ _ _).
  - apply boot_reachable.
  - vm_compute. reflexivity.
Defined.

(** X13. Units are throttled only when the combined circuit is limited.
    From a reachable engine state, in a tick that returns with unit loads
    that add up to no more than the combined load: if the combined factor
    exceeds one (the overload is accepted or still ramping) or the combined
    load is within [max_combined_load], every final limit is the unit's
    capped request, unscaled. *)
Theorem no_throttling_unless_limited (wall : nat -> datetime) (config : Config)
    (L_c : Q) (L_u : list Q) (w w' : World PowerManagement) (l : Locals) :
  reachable wall config w ->
  run_distribution_locals wall L_c L_u w = (w', Ok l) ->
  py_sum L_u <= L_c ->
  1 < combined_limit_factor l \/ L_c <= max_combined_load config ->
  final_limits l = pre_capped_requests l.
Proof.
  intros Hr Hrun Hsum Hcase.
  destruct (reachable_wf wall config w Hr) as [Hcfg [_ [Wc [Wu _]]]].
  destruct (locals_inv wall L_c L_u w w' l Hrun)
    as [wc [Eu [El [Eun [Ec [Ex [Et Ed]]]]]]].
  rewrite Hcfg in *.
  assert (Hge : 1 <= combined_limit_factor l).
  { eapply update_factor_ge_1; [|exact Eu]. exact (proj1 Wc). }
  assert (Hlimit : L_c <= current_combined_limit l).
  { rewrite Ec. unfold limit_of_factor.
    destruct (Qltb 1 (combined_limit_factor l)) eqn:F;
      [lra|apply Qltb_false in F].
    destruct Hcase as [H|H]; [lra|].
    assert (E1 : combined_limit_factor l == 1) by lra. rewrite E1. lra. }
  apply consumer_loop_requests in El; [|exact Wu].
  destruct El as [ps [Eps Hps]]. simpl in Eps. subst ps.
  assert (Hdemand : py_sum (pre_capped_requests l) <= py_sum L_u).
  { apply py_sum_le. clear - Hps.
    induction Hps as [|load p t t' [f [_ [_ [Hp _]]]] _ IH]; constructor; auto.
    rewrite Hp. apply py_min_le_l. }
  assert (Hcap : py_sum (pre_capped_requests l) <= X_managed_capacity l).
  { assert (Hu : L_unmanaged_actual l == L_c - py_sum L_u).
    { rewrite Eun.
      destruct (py_max_cases 0 (L_c - py_sum L_u)) as [[? ->]|[? ->]]; lra. }
    rewrite Ex.
    pose proof (py_max_ge_r 0 (current_combined_limit l - L_unmanaged_actual l)).
    lra. }
  destruct (proportional_distribution_cases _ _ _ Ed)
    as [[_ H]|[[H _]|[H _]]]; [exact H|lra|lra].
Qed.

Lemma no_throttling_unless_limited_witness :
  exists w' l,
    run_distribution_locals second_clock 20 [5; 5; 4; 0]
      (boot second_clock default_config 0) = (w', Ok l)
    /\ final_limits l = pre_capped_requests l.
Proof.
  eexists. eexists. split; [vm_compute; reflexivity|].
  refine (no_throttling_unless_limited second_clock default_config 20 [5; 5; 4; 0]
            (boot second_clock default_config 0) _ _ _ _ _ _).
  - apply boot_reachable.
  - vm_compute. reflexivity.
  - vm_compute. discriminate.
  - left. vm_compute. reflexivity.
Defined.

(** X14. Whatever its outcome, a tick from any engine state keeps the
    configuration and the number of unit dictionaries, stamps the engine
    with the first clock reading it took, and touches every dictionary at
    most once: the combined dictionary is untouched or updated once with the
    combined load against [max_combined_load], and the dictionary of unit
    [i] is untouched or updated once with the load of unit [i] against
    [max_individual_load]. *)
Theorem tick_touches_each_dictionary_once (wall : nat -> datetime) (L_c : Q)
    (L_u : list Q) (w : World PowerManagement) :
  let w' := fst (run_distribution wall L_c L_u w) in
  let cfg := _config (obj w) in
  let dt := tick_minutes (wall (calls w)) (obj w) in
  _config (obj w') = cfg
  /\ _last_update_time (obj w') = wall (calls w)
  /\ List.length (_consumer_oa_states (obj w'))
     = List.length (_consumer_oa_states (obj w))
  /\ (combined_dict (obj w') = combined_dict (obj w)
      \/ combined_dict (obj w')
         = oa_next wall cfg L_c (max_combined_load cfg) dt (S (calls w))
             (combined_dict (obj w)))
  /\ forall i d, nth_error (_consumer_oa_states (obj w)) i = Some d ->
       exists d', nth_error (_consumer_oa_states (obj w')) i = Some d'
         /\ (d' = d
             \/ exists load n, nth_error L_u i = Some load
                  /\ d' = oa_next wall cfg load (max_individual_load cfg) dt n d).
Proof.
  cbv zeta.
  destruct (tick_effect wall L_c L_u w) as [E1 [E2 [_ [E3 [E4 E5]]]]].
  split; [exact E1|]. split; [exact E2|]. split; [exact E4|]. split; [exact E3|].
  intros i d Hi. destruct (E5 i d Hi) as [d' [Hi' Hd']].
  exists d'. split; [exact Hi'|].
  destruct Hd' as [->|[load [n [_ [Hload ->]]]]]; [now left|].
  right. exists load, n. rewrite Nat.sub_0_r in Hload. auto.
Qed.

(* ================================================================= *)
(** ** The sensor entities *)

Lemma consumer_loop_percents_length (wall : nat -> datetime) (cfg : Config)
    (dt : Q) (loads : list Q) :
  forall (i : nat) (pre percs pre' percs' : list Q) (w w' : World PowerManagement),
    consumer_loop wall cfg dt i loads pre percs w = (w', Ok (pre', percs')) ->
    List.length percs' = (List.length percs + List.length loads)%nat.
Proof.
  induction loads as [|load rest IH]; intros i pre percs pre' percs' w w'.
  - simpl. unfold ret. intro H. inversion H. lia.
  - rewrite consumer_loop_cons.
    destruct (nth_error _ i) as [d|]; [|discriminate].
    destruct (_update_oa_state _ _ _ _ _ _) as [w1 [f|e]]; [|discriminate].
    intro H. apply IH in H. rewrite length_app in H. simpl in *. lia.
Qed.

(** A result that is returned has one entry per unit load in its lists. *)
Lemma result_lengths (wall : nat -> datetime) (L_c : Q) (L_u : list Q)
    (w w' : World PowerManagement) (r : DistributionResult) :
  run_distribution wall L_c L_u w = (w', Ok r) ->
  List.length (final_limits_A r) = List.length L_u
  /\ List.length (individual_oa_percents r) = List.length L_u.
Proof.
  unfold run_distribution, bind, get_obj, ret.
  destruct (run_distribution_locals wall L_c L_u w) as [w1 [l|e]] eqn:Hrun;
    [|discriminate].
  intro H. inversion H; subst. simpl. clear H.
  pose proof (locals_requests_length wall L_c L_u w w' l Hrun) as Hlen.
  destruct (locals_inv wall L_c L_u w w' l Hrun)
    as [wc [_ [El [_ [_ [Ex [_ Ed]]]]]]].
  split.
  - rewrite length_map.
    assert (Hx : 0 <= X_managed_capacity l) by (rewrite Ex; apply py_max_ge_l).
    destruct (proportional_distribution_cases _ _ _ Ed)
      as [[_ ->]|[[_ [_ ->]]|[H1 [H2 _]]]].
    + exact Hlen.
    + rewrite length_map. exact Hlen.
    + lra.
  - apply consumer_loop_percents_length in El. simpl in El. exact El.
Qed.

Section PlatformInvariant.

Variable py_float : string -> option Q.
Variable wall : nat -> datetime.
Variable entry_id : string.
Variable data : Config.

Definition platform_ok (w : World Platform) : Prop :=
  (forall r, latest_results (hass_data (obj w)) = Some r -> result_shaped r)
  /\ Forall sensor_ok (sensors (obj w)).

Lemma controller_keeps_shape (hass_states : string -> option string)
    (w : World HassData) :
  (forall r, latest_results (obj w) = Some r -> result_shaped r) ->
  forall r,
    latest_results (obj (fst (async_run_controller py_float wall hass_states w)))
    = Some r ->
    result_shaped r.
Proof.
  intros H r.
  destruct (get_float_state py_float
              (hass_states (entity_combined_load (_config (manager (obj w))))))
    as [L|] eqn:E.
  - rewrite (controller_runs py_float wall hass_states w L E).
    destruct (run_distribution _ _ _ _) as [w1 [results|e]] eqn:Er; simpl.
    + intro Hr. inversion Hr; subst.
      destruct (result_lengths _ _ _ _ _ _ Er) as [L1 L2].
      rewrite gather_units_eq in L1, L2. split; assumption.
    + apply H.
  - rewrite (controller_skips py_float wall hass_states w E). apply H.
Qed.

Lemma setup_sensors_ok : Forall sensor_ok (setup_sensors entry_id data).
Proof.
  unfold setup_sensors, unit_keys, sensor_ok. simpl.
  repeat constructor; simpl; try discriminate; try congruence; auto;
    right; lia.
Qed.

Lemma platform_reachable_ok (w : World Platform) :
  platform_reachable py_float wall entry_id data w -> platform_ok w.
Proof.
  induction 1 as [n hs w p H|w H IH|w hs H IH|w hs i s H IH Hi].
  - unfold async_setup_entry in H.
    unfold __init__, bind, datetime_now, ret in H. simpl in H.
    destruct (async_run_controller _ _ _ _) as [w3 [u|e]] eqn:Ec; [|discriminate].
    inversion H; subst; clear H. unfold platform_ok. simpl. split.
    + match type of Ec with
      | async_run_controller _ _ _ ?X = _ =>
          pose proof (controller_keeps_shape hs X) as K
      end.
      rewrite Ec in K. simpl in K. apply K. discriminate.
    + apply setup_sensors_ok.
  - exact IH.
  - destruct IH as [I1 I2]. unfold platform_ok. simpl. split; [|exact I2].
    apply controller_keeps_shape. exact I1.
  - destruct IH as [I1 I2]. unfold platform_ok. simpl. split; [exact I1|].
    apply Forall_list_update; [exact I2|].
    assert (Hs : sensor_ok s).
    { rewrite Forall_forall in I2. apply I2. eapply nth_error_In; eassumption. }
    destruct Hs as [S1 _]. unfold sensor_ok, async_update. simpl.
    split; [exact S1|]. split; [exact I1|].
    destruct (get_float_state py_float _); [reflexivity|congruence].
Qed.

End PlatformInvariant.

Lemma py_getitem_in_range {A : Type} (l : list A) (i : Z) :
  (0 <= i < Z.of_nat (List.length l))%Z -> exists x, py_getitem l i = Ok x.
Proof.
  intro H. unfold py_getitem. cbv zeta.
  assert (E1 : (i <? 0)%Z = false) by (apply Z.ltb_ge; lia).
  rewrite E1.
  assert (E2 : ((0 <=? i)%Z && (i <? Z.of_nat (List.length l))%Z)%bool = true).
  { apply andb_true_iff. split; [apply Z.leb_le|apply Z.ltb_lt]; lia. }
  rewrite E2.
  destruct (nth_error l (Z.to_nat i)) as [x|] eqn:E; [eauto|].
  apply nth_error_None in E. lia.
Qed.

(** X15. In every state the platform can reach after setup -- whatever the
    source states, the order of controller runs and sensor refreshes, and
    whether the computation raised -- reading the attributes of any of the
    sensor entities returns: the two list lookups of a unit sensor are
    always in range.  A sensor is available exactly when its last reading
    is a number. *)
Theorem sensor_attributes_return (py_float : string -> option Q)
    (wall : nat -> datetime) (entry_id : string) (data : Config)
    (w : World Platform) :
  platform_reachable py_float wall entry_id data w ->
  Forall (fun s =>
            (exists attrs, extra_state_attributes s (hass_data (obj w)) = Ok attrs)
            /\ available s = match native_value s with
                             | Some _ => true
                             | None => false
                             end)
    (sensors (obj w)).
Proof.
  intro Hr.
  destruct (platform_reachable_ok py_float wall entry_id data w Hr) as [_ Hs].
  eapply Forall_impl; [|exact Hs].
  intros s [S1 [S2 S3]]. split.
  - unfold extra_state_attributes.
    destruct (_last_result s) as [r|] eqn:Er; [|eauto].
    destruct (S2 r eq_refl) as [L1 L2].
    destruct (_is_combined s) eqn:Ec.
    + simpl. destruct (_last_actual_load s); simpl; eauto.
    + destruct S1 as [S1|S1]; [discriminate|].
      destruct (py_getitem_in_range (final_limits_A r) (_index s)) as [x Hx].
      { rewrite L1. unfold NUM_CONSUMERS. simpl. lia. }
      destruct (py_getitem_in_range (individual_oa_percents r) (_index s)) as [y Hy].
      { rewrite L2. unfold NUM_CONSUMERS. simpl. lia. }
      rewrite Hx, Hy. simpl. destruct (_last_actual_load s); simpl; eauto.
  - unfold available, native_value.
    destruct (_last_actual_load s) eqn:El; [|reflexivity].
    apply S3. discriminate.
Qed.

Lemma sensor_attributes_return_witness :
  match snd (async_setup_entry sample_float second_clock "e1" default_config
               sample_states (mkWorld 0 tt)) with
  | Ok p =>
      Forall (fun s =>
                (exists attrs, extra_state_attributes s (hass_data p) = Ok attrs)
                /\ available s = match native_value s with
                                 | Some _ => true
                                 | None => false
                                 end)
        (sensors p)
  | Raise _ => False
  end.
Proof.
  destruct (async_setup_entry sample_float second_clock "e1" default_config
              sample_states (mkWorld 0 tt)) as [w [p|e]] eqn:E.
  - simpl.
    apply (sensor_attributes_return sample_float second_clock "e1" default_config
             (mkWorld (calls w) p)).
    apply (plat_setup sample_float second_clock "e1" default_config 0 sample_states).
    exact E.
  - vm_compute in E. discriminate E.
Defined.

Lemma append_cancel_l (a x y : string) : (a ++ x = a ++ y)%string -> x = y.
Proof.
  induction a as [|c a IH]; simpl; intro H; [exact H|].
  injection H as H. apply IH. exact H.
Qed.

(** X16. For every entry id and configuration, setup creates five sensors:
    the combined sensor with index -1 and four unit sensors with indices 0
    to 3, each reading the entity configured for it, and their unique ids
    -- the domain, the entry id and the lower-cased name with underscores --
    are pairwise distinct. *)
Theorem setup_sensors_distinct (entry_id : string) (data : Config) :
  map _attr_unique_id (setup_sensors entry_id data)
  = map (fun suffix => (DOMAIN ++ "_" ++ entry_id ++ "_" ++ suffix)%string)
      ["combined_load_status"; "unit_1_status"; "unit_2_status"; "unit_3_status";
       "unit_4_status"]%string
  /\ NoDup (map _attr_unique_id (setup_sensors entry_id data))
  /\ map _index (setup_sensors entry_id data) = [-1; 0; 1; 2; 3]%Z
  /\ map _is_combined (setup_sensors entry_id data) = [true; false; false; false; false]
  /\ map _source_entity_id (setup_sensors entry_id data)
     = [entity_combined_load data; entity_unit_1 data; entity_unit_2 data;
        entity_unit_3 data; entity_unit_4 data].
Proof.
  split; [reflexivity|]. split; [|split; [reflexivity|split; reflexivity]].
  assert (E : map _attr_unique_id (setup_sensors entry_id data)
              = map (fun suffix => (DOMAIN ++ "_" ++ entry_id ++ "_" ++ suffix)%string)
                  ["combined_load_status"; "unit_1_status"; "unit_2_status";
                   "unit_3_status"; "unit_4_status"]%string) by reflexivity.
  rewrite E. clear E.
  assert (Inj : forall x y : string,
            (DOMAIN ++ "_" ++ entry_id ++ "_" ++ x = DOMAIN ++ "_" ++ entry_id ++ "_" ++ y)%string
            -> x = y).
  { intros x y H. apply append_cancel_l in H. apply append_cancel_l in H.
    apply append_cancel_l in H. apply append_cancel_l in H. exact H. }
  simpl map.
  repeat (constructor;
          [simpl; intro H;
           repeat (destruct H as [H|H]; [apply Inj in H; discriminate H|]);
           exact H|]).
  constructor.
Qed.

Lemma round_half_even_close (y : Q) :
  inject_Z (round_half_even y) - y <= 1 # 2
  /\ y - inject_Z (round_half_even y) <= 1 # 2.
Proof.
  unfold round_half_even. cbv zeta.
  pose proof (Qfloor_le y) as H1. pose proof (Qlt_floor y) as H2.
  rewrite inject_Z_plus in H2. change (inject_Z 1) with 1 in H2.
  destruct (Qltb (y - inject_Z (Qfloor y)) (1 # 2)) eqn:E1;
    [apply Qltb_true in E1|apply Qltb_false in E1].
  - generalize dependent (inject_Z (Qfloor y)). intros; lra.
  - destruct (Qltb (1 # 2) (y - inject_Z (Qfloor y))) eqn:E2;
      [apply Qltb_true in E2|apply Qltb_false in E2].
    + rewrite inject_Z_plus. change (inject_Z 1) with 1.
      generalize dependent (inject_Z (Qfloor y)). intros; lra.
    + destruct (Z.even (Qfloor y));
        [|rewrite inject_Z_plus; change (inject_Z 1) with 1];
        generalize dependent (inject_Z (Qfloor y)); intros; lra.
Qed.

(** [round(x, 2)] is within half a hundredth of [x]. *)
Lemma py_round2_close (x : Q) :
  py_round2 x - x <= 1 # 200 /\ x - py_round2 x <= 1 # 200.
Proof.
  unfold py_round2.
  destruct (round_half_even_close (x * 100)) as [H1 H2].
  set (z := inject_Z (round_half_even (x * 100))) in *.
  assert (E : z / 100 == z * (1 # 100)) by (field).
  rewrite E. lra.
Qed.

(** X17. What the combined sensor reports.  Let a tick return for the
    combined load [L_c], let the combined sensor hold that result, and let
    its last reading be [L_c] as well.  Its attributes return, with the
    rounded combined limit.  While the combined factor exceeds one (the
    overload is accepted or still ramping) the reported limit is the rounded
    load and the control status is "Limit Enforced".  Once the factor is at
    most one, with a non-negative [max_combined_load] that the load exceeds
    by more than 0.015, the control status is "Limit Exceeded". *)
Theorem combined_sensor_status (wall : nat -> datetime) (L_c : Q) (L_u : list Q)
    (w w' : World PowerManagement) (l : Locals) (r : DistributionResult)
    (hd : HassData) (s : PowerDistributorSensor) :
  run_distribution_locals wall L_c L_u w = (w', Ok l) ->
  run_distribution wall L_c L_u w = (w', Ok r) ->
  _is_combined s = true ->
  _last_result s = Some r ->
  _last_actual_load s = Some L_c ->
  exists attrs,
    extra_state_attributes s hd = Ok attrs
    /\ dict_lookup "calculated_limit_combined_A" attrs
       = Some (VFloat (py_round2 (current_combined_limit l)))
    /\ (1 < combined_limit_factor l ->
        current_combined_limit l = L_c
        /\ dict_lookup "control_status" attrs = Some (VStr "Limit Enforced"))
    /\ (combined_limit_factor l <= 1 ->
        0 <= max_combined_load (_config (obj w)) ->
        max_combined_load (_config (obj w)) + 0.015 < L_c ->
        dict_lookup "control_status" attrs = Some (VStr "Limit Exceeded")).
Proof.
  intros Hl Hrun Hc Hres Hload.
  assert (Er : current_combined_limit_A r = py_round2 (current_combined_limit l)).
  { revert Hrun. unfold run_distribution, bind, get_obj, ret. rewrite Hl.
    intro H. inversion H. reflexivity. }
  destruct (locals_inv wall L_c L_u w w' l Hl) as [wc [_ [_ [_ [Ec _]]]]].
  unfold extra_state_attributes. rewrite Hres, Hc, Hload. simpl.
  eexists. split; [reflexivity|]. simpl. rewrite Er.
  split; [reflexivity|].
  destruct (py_round2_close (current_combined_limit l)) as [R1 R2].
  split.
  - intro Hf. assert (El : current_combined_limit l = L_c).
    { rewrite Ec. unfold limit_of_factor. apply Qltb_true in Hf. rewrite Hf.
      reflexivity. }
    split; [exact El|].
    assert (F : Qltb (py_round2 (current_combined_limit l) + 0.01) L_c = false).
    { apply Qltb_false. rewrite El in *. lra. }
    rewrite F. reflexivity.
  - intros Hf HX Hexc.
    assert (El : current_combined_limit l <= max_combined_load (_config (obj w))).
    { rewrite Ec. unfold limit_of_factor.
      assert (F : Qltb 1 (combined_limit_factor l) = false) by (apply Qltb_false; lra).
      rewrite F. nra. }
    assert (F : Qltb (py_round2 (current_combined_limit l) + 0.01) L_c = true).
    { apply Qltb_true. lra. }
    rewrite F. reflexivity.
Qed.

Lemma combined_sensor_status_witness :
  exists attrs,
    extra_state_attributes
      (mkSensor "sensor.combined" true (-1) "Combined Load Status" "id"
         (match snd (run_distribution second_clock 17 [4; 4; 4; 4]
                       (boot second_clock default_config 0)) with
          | Ok r => Some r
          | Raise _ => None
          end)
         (Some 17) true)
      (mkHassData (obj (boot second_clock default_config 0)) None) = Ok attrs
    /\ dict_lookup "control_status" attrs = Some (VStr "Limit Enforced").
Proof.
  destruct (run_distribution_locals second_clock 17 [4; 4; 4; 4]
              (boot second_clock default_config 0)) as [w' [l|e]] eqn:Hl;
    [|vm_compute in Hl; discriminate Hl].
  destruct (run_distribution second_clock 17 [4; 4; 4; 4]
              (boot second_clock default_config 0)) as [w'' [r|e]] eqn:Hr;
    [|vm_compute in Hr; discriminate Hr].
  assert (Ew : w'' = w').
  { pose proof (run_distribution_world second_clock 17 [4; 4; 4; 4]
                  (boot second_clock default_config 0)) as H.
    rewrite Hr, Hl in H. exact H. }
  subst w''. simpl snd.
  destruct (combined_sensor_status second_clock 17 [4; 4; 4; 4]
              (boot second_clock default_config 0) w' l r
              (mkHassData (obj (boot second_clock default_config 0)) None)
              (mkSensor "sensor.combined" true (-1) "Combined Load Status" "id"
                 (Some r) (Some 17) true) Hl Hr eq_refl eq_refl eq_refl)
    as [attrs [A1 [_ [A2 _]]]].
  exists attrs. split; [exact A1|]. apply A2.
  vm_compute in Hl. inversion Hl. reflexivity.
Defined.

(* ================================================================= *)
(** ** The configuration flow *)

Lemma flow_step_ok (c : flow_call) (store : FlowData) :
  flow_store_ok store ->
  flow_store_ok (fst (flow_step c store)) /\ entry_ok (snd (flow_step c store)).
Proof.
  intro Hs. destruct c as [[u|]|[t|]]; simpl.
  - destruct (Qle_bool (ui_max_combined_load u) 0) eqn:E1; simpl.
    + split; [exact Hs|]. intros title data H. discriminate H.
    + destruct (Qle_bool (ui_max_individual_load u) 0) eqn:E2; simpl.
      * split; [exact Hs|]. intros title data H. discriminate H.
      * apply Qle_bool_false in E1. apply Qle_bool_false in E2. split.
        { intros u' H. simpl in H. inversion H; subst. auto. }
        { intros title data H. discriminate H. }
  - split; [exact Hs|]. intros title data H. discriminate H.
  - destruct (user_part store) as [u|] eqn:Eu; simpl.
    + split.
      * intros u' H. simpl in H. apply Hs. congruence.
      * intros title data H. inversion H; subst. exists u, t.
        destruct (Hs u Eu). repeat split; assumption.
    + split.
      * intros u' H. simpl in H. congruence.
      * intros title data H. discriminate H.
  - split; [exact Hs|]. intros title data H. discriminate H.
Qed.

(** X18. Whatever steps are called on the shared dictionary, in whatever
    order, with whatever inputs, and from however many flows, starting from
    the empty dictionary: every entry that is created carries the data of a
    first form and of a second form, has the stored name as title, and has
    positive limits. *)
Theorem flow_entries_have_positive_limits (calls : list flow_call) :
  Forall entry_ok (snd (flow_run calls (mkFlowData None None))).
Proof.
  assert (G : forall store, flow_store_ok store ->
                Forall entry_ok (snd (flow_run calls store))).
  { induction calls as [|c rest IH]; intros store Hs; simpl; [constructor|].
    destruct (flow_step_ok c store Hs) as [H1 H2].
    destruct (flow_step c store) as [store1 r]. simpl in H1, H2.
    specialize (IH store1 H1).
    destruct (flow_run rest store1) as [store2 rs]. simpl in *.
    constructor; assumption. }
  apply G. intros u H. discriminate H.
Qed.

(** X19. The two steps in sequence, from any dictionary.  A first form with
    a non-positive limit is answered by the same form with the error
    [positive_limits_required], and the dictionary is unchanged.  A first
    form with positive limits is stored and answered by the second form;
    the second form is then accepted whatever its durations, zero and
    negative ones included, and the entry is created with the name of the
    first form as title and exactly the values entered. *)
Theorem flow_two_steps (u : UserInput) (t : TuningInput) (store : FlowData) :
  if (Qle_bool (ui_max_combined_load u) 0
      || Qle_bool (ui_max_individual_load u) 0)%bool
  then
    async_step_user (Some u) store
    = (store, FlowOk (ShowForm "user" store [("base", "positive_limits_required")]%string))
  else
    let stored := mkFlowData (Some u) (tuning_part store) in
    async_step_user (Some u) store = (stored, FlowOk (ShowForm "tuning" stored []))
    /\ async_step_tuning (Some t) stored
       = (mkFlowData (Some u) (Some t),
          FlowOk (CreateEntry (ui_name u) (mkFlowData (Some u) (Some t)))).
Proof.
  unfold async_step_user.
  destruct (_ || _)%bool; [reflexivity|].
  cbv zeta. repeat split.
Qed.

(** X20. The dictionary is shared.  When two first forms with positive
    limits are stored one after the other -- by one flow or by two flows
    that are open at the same time -- the second form of either flow
    creates the entry with the data stored last. *)
Theorem flow_store_is_shared (uA uB : UserInput) (t : TuningInput) (store : FlowData) :
  0 < ui_max_combined_load uA -> 0 < ui_max_individual_load uA ->
  0 < ui_max_combined_load uB -> 0 < ui_max_individual_load uB ->
  snd (flow_run [CallUser (Some uA); CallUser (Some uB); CallTuning (Some t)] store)
  = [FlowOk (ShowForm "tuning" (mkFlowData (Some uA) (tuning_part store)) []);
     FlowOk (ShowForm "tuning" (mkFlowData (Some uB) (tuning_part store)) []);
     FlowOk (CreateEntry (ui_name uB) (mkFlowData (Some uB) (Some t)))].
Proof.
  intros A1 A2 B1 B2.
  apply Qle_bool_false in A1. apply Qle_bool_false in A2.
  apply Qle_bool_false in B1. apply Qle_bool_false in B2.
  simpl. unfold async_step_user. rewrite A1, A2. simpl. rewrite B1, B2. simpl.
  reflexivity.
Qed.

Lemma flow_store_is_shared_witness :
  snd (flow_run [CallUser (Some sample_user_input); CallUser (Some other_user_input);
                 CallTuning (Some zero_ramp_tuning)] (mkFlowData None None))
  = [FlowOk (ShowForm "tuning" (mkFlowData (Some sample_user_input) None) []);
     FlowOk (ShowForm "tuning" (mkFlowData (Some other_user_input) None) []);
     FlowOk (CreateEntry "Garage"
               (mkFlowData (Some other_user_input) (Some zero_ramp_tuning)))].
Proof.
  apply (flow_store_is_shared sample_user_input other_user_input zero_ramp_tuning
           (mkFlowData None None)); reflexivity.
Defined.

(* ================================================================= *)
(** ** The engine with ramp durations of zero *)

Lemma zero_ramp_tick (wall : nat -> datetime) (L_c : Q) (L_u : list Q)
    (w : World PowerManagement) (T_delay T_ramp rate : Q) :
  _ramp_5 (_config (obj w)) == 0 -> _ramp_20 (_config (obj w)) == 0 ->
  0 < max_combined_load (_config (obj w)) ->
  max_combined_load (_config (obj w)) < L_c ->
  _calculate_oa_timing (_config (obj w)) (L_c / max_combined_load (_config (obj w)))
  = Ok (T_delay, T_ramp) ->
  rate_per_min T_delay = Ok rate ->
  zero_duration_ramp (combined_dict (obj w)) ->
  _combined_oa (obj w) - rate * tick_minutes (wall (calls w)) (obj w) <= 0 ->
  run_distribution wall L_c L_u w
  = (mkWorld (S (S (calls w))) (set_last_update_time (wall (calls w)) (obj w)),
     Raise ZeroDivisionError).
Proof.
  intros H5 H20 Hr Hl HT Hrate Hz Hlev.
  unfold run_distribution, bind. rewrite run_distribution_locals_eq. cbv zeta.
  destruct (zero_ramp_update wall (_config (obj w)) L_c
              (max_combined_load (_config (obj w)))
              (tick_minutes (wall (calls w)) (obj w)) (S (calls w))
              (combined_dict (obj w)) T_delay T_ramp rate
              H5 H20 Hr Hl HT Hrate Hlev Hz) as [d' [E _]].
  rewrite E. reflexivity.
Qed.

(** X21. Ramp durations of zero, at the level of the engine.  With both ramp
    durations zero and the combined load over a positive
    [max_combined_load], the tick whose elapsed time exhausts the combined
    buffer raises [ZeroDivisionError] before any unit is looked at.  Of the
    whole tick only the new time stamp is kept: the combined buffer is
    stored as it was, no ramp is recorded, no unit dictionary is touched.
    Hence every later tick at the same combined load raises again, whatever
    the unit loads, whenever its elapsed time is again enough to exhaust the
    buffer. *)
Theorem zero_ramp_tick_is_lost (wall : nat -> datetime) (L_c : Q) (L_u : list Q)
    (w : World PowerManagement) (T_delay T_ramp rate : Q) :
  _ramp_5 (_config (obj w)) == 0 -> _ramp_20 (_config (obj w)) == 0 ->
  0 < max_combined_load (_config (obj w)) ->
  max_combined_load (_config (obj w)) < L_c ->
  _calculate_oa_timing (_config (obj w)) (L_c / max_combined_load (_config (obj w)))
  = Ok (T_delay, T_ramp) ->
  rate_per_min T_delay = Ok rate ->
  zero_duration_ramp (combined_dict (obj w)) ->
  _combined_oa (obj w) - rate * tick_minutes (wall (calls w)) (obj w) <= 0 ->
  let self1 := set_last_update_time (wall (calls w)) (obj w) in
  run_distribution wall L_c L_u w
  = (mkWorld (S (S (calls w))) self1, Raise ZeroDivisionError)
  /\ forall (L_u' : list Q) (n : nat),
       _combined_oa (obj w) - rate * tick_minutes (wall n) self1 <= 0 ->
       run_distribution wall L_c L_u' (mkWorld n self1)
       = (mkWorld (S (S n)) (set_last_update_time (wall n) self1),
          Raise ZeroDivisionError).
Proof.
  intros H5 H20 Hr Hl HT Hrate Hz Hlev. cbv zeta. split.
  - apply (zero_ramp_tick wall L_c L_u w T_delay T_ramp rate); assumption.
  - intros L_u' n Hlev'.
    apply (zero_ramp_tick wall L_c L_u'
             (mkWorld n (set_last_update_time (wall (calls w)) (obj w)))
             T_delay T_ramp rate); assumption.
Qed.

Lemma zero_ramp_tick_is_lost_witness :
  let w := boot two_minute_clock zero_ramp_config 0 in
  let self1 := set_last_update_time (two_minute_clock (calls w)) (obj w) in
  run_distribution two_minute_clock 20 [4; 4; 4; 4] w
  = (mkWorld (S (S (calls w))) self1, Raise ZeroDivisionError)
  /\ forall (L_u' : list Q) (n : nat),
       _combined_oa (obj w) - 100 / 2.0 * tick_minutes (two_minute_clock n) self1 <= 0 ->
       run_distribution two_minute_clock 20 L_u' (mkWorld n self1)
       = (mkWorld (S (S n)) (set_last_update_time (two_minute_clock n) self1),
          Raise ZeroDivisionError).
Proof.
  apply (zero_ramp_tick_is_lost two_minute_clock 20 [4; 4; 4; 4]
           (boot two_minute_clock zero_ramp_config 0) 2.0 0.0 (100 / 2.0)).
  - reflexivity.
  - reflexivity.
  - reflexivity.
  - reflexivity.
  - vm_compute. reflexivity.
  - vm_compute. reflexivity.
  - exact I.
  - vm_compute. discriminate.
Defined.
